(** * PPai-Backend: license guard and request handlers

    A shallow embedding of [netlify/functions/utils/license.js],
    [src/utils/errors.ts], [src/youtubeSearch.ts] and [src/aiCommand.ts],
    and the properties of the license guard, the method gate, the body
    validator and the response shaper.

    JavaScript strings are sequences of code units; the model takes the code
    units below 256 and writes them as Rocq strings. [process.env] and the
    header objects are finite maps from strings to strings. *)

From Stdlib Require Import Ascii SpecFloat.
From stdpp Require Import base decidable option list strings gmap pretty.

Local Open Scope stdpp_scope.

(** ** JavaScript strings *)

Module JsString.

(** The code units [String.prototype.trim] strips: TAB, LF, VT, FF, CR,
    SPACE and NO-BREAK SPACE (the white space and line terminators of the
    language below code unit 256). *)
Definition isWhiteSpace (c : ascii) : bool :=
  let n := nat_of_ascii c in
  ((9 <=? n) && (n <=? 13)) || (n =? 32) || (n =? 160).

(** [s.split(sep)] for a separator of one code unit: the pieces between
    the occurrences of [sep], in order; never the empty list. *)
Fixpoint split (sep : ascii) (s : string) : list string :=
  match s with
  | EmptyString => [EmptyString]
  | String c rest =>
      if bool_decide (c = sep) then EmptyString :: split sep rest
      else match split sep rest with
           | piece :: pieces => String c piece :: pieces
           | [] => [String c EmptyString]
           end
  end.

(** [parts.join(sep)]. *)
Fixpoint join (sep : ascii) (parts : list string) : string :=
  match parts with
  | [] => EmptyString
  | [p] => p
  | p :: ps => p +:+ String sep (join sep ps)
  end.

Fixpoint trimStart (s : string) : string :=
  match s with
  | EmptyString => EmptyString
  | String c rest => if isWhiteSpace c then trimStart rest else s
  end.

Fixpoint trimEnd (s : string) : string :=
  match s with
  | EmptyString => EmptyString
  | String c rest =>
      match trimEnd rest with
      | EmptyString => if isWhiteSpace c then EmptyString else String c EmptyString
      | kept => String c kept
      end
  end.

(** [s.trim()]. *)
Definition trim (s : string) : string := trimEnd (trimStart s).

(** Every code unit of [s] satisfies [p]. *)
Fixpoint all (p : ascii → bool) (s : string) : bool :=
  match s with
  | EmptyString => true
  | String c rest => p c && all p rest
  end.

(** [c] occurs in [s]. *)
Fixpoint mem (c : ascii) (s : string) : bool :=
  match s with
  | EmptyString => false
  | String d rest => bool_decide (d = c) || mem c rest
  end.

(** Truthiness of a value that is a string or undefined/null:
    [!x] is [negb (truthy x)]. *)
Definition truthy (x : option string) : bool :=
  match x with
  | None => false
  | Some s => negb (bool_decide (s = EmptyString))
  end.

(** [a || b] on values that are strings or undefined. *)
Definition or (a b : option string) : option string :=
  if truthy a then a else b.

(** [a || 'literal']. *)
Definition orLit (a : option string) (b : string) : string :=
  match a with
  | Some s => if bool_decide (s = EmptyString) then b else s
  | None => b
  end.

(** The string a value is, read only after [!x] was found false. *)
Definition value (x : option string) : string :=
  match x with Some s => s | None => EmptyString end.

(** The double quote, for string literals that contain one. *)
Definition dquote : string := String "034"%char EmptyString.

(** The line feed written [\n] in the source. *)
Definition lf : string := String "010"%char EmptyString.

End JsString.

(** ** Completions, effects and the handler monad *)

(** A value that was thrown: an [Error] object with its message and stack,
    or any other value that [String(value)] converts, kept as that string.
    The built-ins and the two services throw such values: [SyntaxError]
    and [TypeError] objects, and the rejections of [fetch] and of the SDK. *)
Inductive Thrown :=
| ErrorObject (message : string) (stack : option string)
| Primitive (asString : string).

(** What [logError] is handed, [unknown] in the source: a value as above,
    or a value that is no [Error] and whose conversion [String(value)]
    itself throws, such as [Object.create(null)]. *)
Inductive Unknown :=
| Known (e : Thrown)
| Unprintable (raised : Thrown).

(** What the functions do to the outside: console output and the two
    upstream requests. *)
Inductive Effect :=
| ConsoleWarn (args : list string)
| ConsoleError (args : list string)
| Fetch (url : string)
| GenerateContent (apiKey model prompt : string).

Inductive Completion (A : Type) :=
| Normal (a : A)
| Throw (e : Thrown).
Arguments Normal {A} a.
Arguments Throw {A} e.

(** [f] on the elements of a list, in order, up to the first that
    throws. *)
Definition mapC {A B} (f : A → Completion B) : list A → Completion (list B) :=
  fix go (l : list A) : Completion (list B) :=
    match l with
    | [] => Normal []
    | x :: rest =>
        match f x with
        | Throw e => Throw e
        | Normal y =>
            match go rest with
            | Throw e => Throw e
            | Normal ys => Normal (y :: ys)
            end
        end
    end.

(** A computation: how it completes, and the effects it performed, in
    order. *)
Definition M (A : Type) : Type := Completion A * list Effect.

Definition M_ret {A} (a : A) : M A := (Normal a, []).

Definition M_bind {A B} (f : A → M B) (m : M A) : M B :=
  match m with
  | (Normal a, t) => let '(r, t') := f a in (r, t ++ t')
  | (Throw e, t) => (Throw e, t)
  end.

#[global] Instance M_mret : MRet M := @M_ret.
#[global] Instance M_mbind : MBind M := @M_bind.

Definition perform (e : Effect) : M unit := (Normal tt, [e]).

Definition throw {A} (e : Thrown) : M A := (Throw e, []).

(** Lift the completion of an upstream call or built-in. *)
Definition liftC {A} (c : Completion A) : M A := (c, []).

(** [try { m } catch (error) { h error }]. *)
Definition try_catch {A} (m : M A) (h : Thrown → M A) : M A :=
  match m with
  | (Normal a, t) => (Normal a, t)
  | (Throw e, t) => let '(r, t') := h e in (r, t ++ t')
  end.

(** [f] on the elements of [l], in order, up to the first that throws,
    with the effects of the calls made. *)
Fixpoint mapM {A B} (f : A → M B) (l : list A) : M (list B) :=
  match l with
  | [] => mret []
  | x :: rest => y ← f x; ys ← mapM f rest; mret (y :: ys)
  end.

(** The upstream requests among the effects. *)
Definition isUpstream (e : Effect) : bool :=
  match e with
  | Fetch _ | GenerateContent _ _ _ => true
  | _ => false
  end.

Definition upstreamCalls {A} (m : M A) : list Effect := filter isUpstream m.2.

(** When [m] completes normally, its value satisfies [Q]. *)
Definition produces {A} (Q : A → Prop) (m : M A) : Prop :=
  ∀ a t, m = (Normal a, t) → Q a.

(** [m] completes normally with a value that satisfies [Q]. *)
Definition returns {A} (Q : A → Prop) (m : M A) : Prop :=
  ∃ a t, m = (Normal a, t) ∧ Q a.

(** ** utils/license *)

Record LicenseCheckResult := {
  valid : bool;
  reason : option string
}.

(** The three results [validateLicense] returns. *)
Definition missingToken : LicenseCheckResult :=
  {| valid := false; reason := Some "Missing authorization token" |}.

Definition invalidToken : LicenseCheckResult :=
  {| valid := false; reason := Some "Invalid license token" |}.

Definition validToken : LicenseCheckResult :=
  {| valid := true; reason := None |}.

(** [process.env.LICENSE_TOKENS?.split(',').map(t => t.trim()) || []]:
    an array is truthy, so [[]] is taken only when the variable is unset. *)
Definition whitelist (env : gmap string string) : list string :=
  match env !! "LICENSE_TOKENS" with
  | Some tokens => JsString.trim <$> JsString.split ","%char tokens
  | None => []
  end.

(** [process.env.NODE_ENV === 'development']. *)
Definition developmentMode (env : gmap string string) : bool :=
  bool_decide (env !! "NODE_ENV" = Some "development").

(** [whitelist.includes(token)]: the token is a string or null, the
    entries are strings. *)
Definition includes (l : list string) (token : option string) : bool :=
  existsb (λ entry, bool_decide (Some entry = token)) l.

Definition validateLicense (env : gmap string string) (token : option string)
  : M LicenseCheckResult :=
  if negb (JsString.truthy token) then
    mret {| valid := false; reason := Some "Missing authorization token" |}
  else
    let whitelist := whitelist env in
    if (length whitelist =? 0) && developmentMode env then
      _ ← perform (ConsoleWarn
             ["No LICENSE_TOKENS set - allowing all requests in development"]);
      mret {| valid := true; reason := None |}
    else if includes whitelist token then
      mret {| valid := true; reason := None |}
    else
      mret {| valid := false; reason := Some "Invalid license token" |}.

Definition extractToken (authHeader : option string) : option string :=
  if negb (JsString.truthy authHeader) then None
  else
    let parts := JsString.split " "%char (JsString.value authHeader) in
    if negb (length parts =? 2) || negb (bool_decide (parts !! 0 = Some "Bearer"))
    then None
    else parts !! 1.

(** ** utils/errors *)

(** [logError(error, context)]: the message, then the stack when the error
    has a non-empty one; [String(error)] is evaluated first and may throw. *)
Definition logError (error : Unknown) (context : string) : M unit :=
  errorMessage ←
    match error with
    | Known (ErrorObject message _) => mret message
    | Known (Primitive s) => mret s
    | Unprintable raised => throw raised
    end;
  let errorStack :=
    match error with Known (ErrorObject _ stack) => stack | _ => None end in
  _ ← perform (ConsoleError ["[" +:+ context +:+ "] Error:"; errorMessage]);
  if JsString.truthy errorStack then
    perform (ConsoleError ["[" +:+ context +:+ "] Stack:"; JsString.value errorStack])
  else mret tt.

(** ** JavaScript values *)

(** The values [JSON.parse] returns and [JSON.stringify] takes, and
    [undefined]. A number is a binary floating-point value; an object lists
    its own properties in order. *)
#[warnings="-register-all"]
Inductive jsval :=
| JUndefined
| JNull
| JBool (b : bool)
| JNumber (x : spec_float)
| JString (s : string)
| JArray (elements : list jsval)
| JObject (properties : list (string * jsval)).

Module JsValue.

(** [ToBoolean]. *)
Definition truthy (v : jsval) : bool :=
  match v with
  | JUndefined | JNull => false
  | JBool b => b
  | JNumber (S754_zero _) | JNumber S754_nan => false
  | JNumber _ => true
  | JString s => negb (bool_decide (s = EmptyString))
  | JArray _ | JObject _ => true
  end.

Definition typeof (v : jsval) : string :=
  match v with
  | JUndefined => "undefined"
  | JNull | JArray _ | JObject _ => "object"
  | JBool _ => "boolean"
  | JNumber _ => "number"
  | JString _ => "string"
  end.

(** The first property named [key]. *)
Fixpoint lookup (key : string) (properties : list (string * jsval)) : jsval :=
  match properties with
  | [] => JUndefined
  | (k, v) :: rest => if bool_decide (k = key) then v else lookup key rest
  end.

(** [v.key] for a key that no prototype defines ([prompt], [context],
    [query], and the fields of the video-search payload): an own property of an object, [undefined] on any other
    value; [None] on [null] and [undefined], which have no properties. *)
Definition member (v : jsval) (key : string) : option jsval :=
  match v with
  | JUndefined | JNull => None
  | JObject properties => Some (lookup key properties)
  | _ => Some JUndefined
  end.

(** Reading [v.key]: a [TypeError] on [null] and [undefined]. *)
Definition get (typeError : string → Thrown) (v : jsval) (key : string) : M jsval :=
  match member v key with
  | Some x => mret x
  | None => throw (typeError key)
  end.

(** [v?.key]: undefined when [v] is null or undefined. *)
Definition optional (v : jsval) (key : string) : jsval :=
  match member v key with Some x => x | None => JUndefined end.

(** [a || b]. *)
Definition or (a b : jsval) : jsval := if truthy a then a else b.

(** The object has an own property named [key]. *)
Definition hasOwn (key : string) (properties : list (string * jsval)) : bool :=
  existsb (λ p, bool_decide (p.1 = key)) properties.

(** [String(v)], the conversion a template literal makes. An array joins
    the conversions of its elements with commas, null and undefined
    elements giving the empty string. An object gives [[object Object]]
    through [Object.prototype.toString]; with an own property [toString],
    which is no function in a value of JSON, the conversion throws a
    [TypeError]. *)
Fixpoint toString (numberToString : spec_float → string) (notPrimitive : Thrown)
    (v : jsval) : Completion string :=
  match v with
  | JUndefined => Normal "undefined"
  | JNull => Normal "null"
  | JBool b => Normal (if b then "true" else "false")
  | JNumber x => Normal (numberToString x)
  | JString s => Normal s
  | JArray elements =>
      match
        mapC (λ element,
                match element with
                | JUndefined | JNull => Normal EmptyString
                | _ => toString numberToString notPrimitive element
                end) elements
      with
      | Throw e => Throw e
      | Normal parts => Normal (JsString.join ","%char parts)
      end
  | JObject properties =>
      if hasOwn "toString" properties then Throw notPrimitive
      else Normal "[object Object]"
  end.

(** [v.map(f)]: [Array.prototype.map] on an array, a [TypeError] on every
    other value, none of which has a function [map]. *)
Definition map (typeError notAFunction : string → Thrown) (f : jsval → M jsval)
    (v : jsval) : M (list jsval) :=
  match v with
  | JArray elements => mapM f elements
  | JUndefined | JNull => throw (typeError "map")
  | _ => throw (notAFunction "map")
  end.

(** The string a value of type string is; read only where
    [typeof v === 'string'] has been checked. *)
Definition asString (v : jsval) : string :=
  match v with JString s => s | _ => EmptyString end.

(** An object literal whose values are all strings. *)
Definition ofStrings (properties : list (string * string)) : jsval :=
  JObject (prod_map id JString <$> properties).

End JsValue.

(** ** The platform *)

Record URL := {
  href : string;
  searchParams : list (string * string)
}.

(** [searchParams.set(name, value)]: the first pair named [name] gets the
    value and the later ones go; a new pair is appended otherwise. *)
Fixpoint searchParams_set (name value : string) (params : list (string * string))
  : list (string * string) :=
  match params with
  | [] => [(name, value)]
  | (k, v) :: rest =>
      if bool_decide (k = name)
      then (k, value) :: filter (λ p, negb (bool_decide (p.1 = name))) rest
      else (k, v) :: searchParams_set name value rest
  end.

Definition URL_set (name value : string) (u : URL) : URL :=
  {| href := href u; searchParams := searchParams_set name value (searchParams u) |}.

(** What [fetch] resolves to: the fields the handler reads. [json] is
    the parsed body, any value of JSON: the cast to [YouTubeApiResponse]
    in the source checks nothing. *)
Record FetchResponse := {
  ok : bool;
  status : N;
  text : Completion string;
  json : Completion jsval
}.

(** What [generateContent] resolves to: [result.response.text()]. *)
Record GenerateContentResult := {
  response_text : Completion string
}.

(** The built-ins and the two upstream services, which are not code of this
    repository. *)
Record Platform := {
  (** [JSON.parse(text)]: the value, or the [SyntaxError] thrown. *)
  JSON_parse : string → Completion jsval;
  (** [JSON.stringify(value)]. *)
  JSON_stringify : jsval → string;
  (** The [TypeError] thrown on reading the property [key] of [null]. *)
  typeError : string → Thrown;
  (** The [TypeError] thrown on calling [v.key] where it is no function. *)
  notAFunction : string → Thrown;
  (** The [TypeError] thrown on converting an object that has no callable
      [toString] and [valueOf] to a string. *)
  notPrimitive : Thrown;
  (** [String(x)] for a number. *)
  Number_toString : spec_float → string;
  (** [url.toString()]. *)
  URL_toString : URL → string;
  (** [await fetch(url)]: the response, or the rejection. *)
  fetch : string → Completion FetchResponse;
  (** [await new GoogleGenerativeAI(apiKey).getGenerativeModel({ model })
      .generateContent(prompt)]. *)
  generateContent : string → string → string → Completion GenerateContentResult
}.

(** [String(v)] on the platform. *)
Definition ToString (P : Platform) (v : jsval) : Completion string :=
  JsValue.toString (Number_toString P) (notPrimitive P) v.

Module HandlerEvent.
Record t := {
  httpMethod : string;
  headers : gmap string string;
  body : option string
}.
End HandlerEvent.

Module HandlerResponse.
Record t := {
  statusCode : N;
  headers : gmap string string;
  body : string
}.
End HandlerResponse.

Definition corsHeaders : gmap string string :=
  <["Access-Control-Allow-Origin" := "*"]>
  (<["Access-Control-Allow-Headers" := "Content-Type, Authorization"]>
  (<["Access-Control-Allow-Methods" := "POST, OPTIONS"]> ∅)).

(** [{ ...corsHeaders, 'Content-Type': 'application/json' }]. *)
Definition jsonHeaders : gmap string string :=
  <["Content-Type" := "application/json"]> corsHeaders.

(** ** What the two handlers share *)

(** [!v || typeof v !== 'string' || v.trim().length === 0], the test both
    handlers make on the required field. *)
Definition missingOrInvalid (v : jsval) : bool :=
  negb (JsValue.truthy v)
  || negb (bool_decide (JsValue.typeof v = "string"))
  || (String.length (JsString.trim (JsValue.asString v)) =? 0).

(** An upstream request: the effect, and the completion the service gives. *)
Definition upstream {A} (e : Effect) (c : Completion A) : M A := (c, [e]).

(** [JSON.stringify({ error, message })]. *)
Definition errorBody (P : Platform) (error message : string) : string :=
  JSON_stringify P (JsValue.ofStrings [("error", error); ("message", message)]).

Definition response (statusCode : N) (headers : gmap string string) (body : string)
  : HandlerResponse.t :=
  {| HandlerResponse.statusCode := statusCode;
     HandlerResponse.headers := headers;
     HandlerResponse.body := body |}.

(** [return { statusCode, headers, body }]. *)
Definition respond (statusCode : N) (headers : gmap string string) (body : string)
  : M HandlerResponse.t :=
  mret (response statusCode headers body).

(** [event.headers.authorization || event.headers.Authorization]. *)
Definition authHeader (event : HandlerEvent.t) : option string :=
  JsString.or (HandlerEvent.headers event !! "authorization")
              (HandlerEvent.headers event !! "Authorization").

(** The license check of a request. *)
Definition licenseCheck (env : gmap string string) (event : HandlerEvent.t)
  : M LicenseCheckResult :=
  validateLicense env (extractToken (authHeader event)).

(** The request passes the license guard. *)
Definition licensed (env : gmap string string) (event : HandlerEvent.t) : Prop :=
  returns (λ r, valid r = true) (licenseCheck env event).

(** What every response satisfies: the headers are the CORS headers, with
    or without the content type, and a 401 comes from a failed license
    check only. *)
Definition wellFormed (env : gmap string string) (event : HandlerEvent.t)
    (resp : HandlerResponse.t) : Prop :=
  (HandlerResponse.headers resp = corsHeaders
   ∨ HandlerResponse.headers resp = jsonHeaders)
  ∧ (HandlerResponse.statusCode resp = 401%N →
     HandlerEvent.httpMethod event = "POST"
     ∧ returns (λ r, valid r = false) (licenseCheck env event)).

(** The status code a handler answers with. *)
Definition statusOf (m : M HandlerResponse.t) : option N :=
  match m.1 with
  | Normal resp => Some (HandlerResponse.statusCode resp)
  | Throw _ => None
  end.

(** ** youtubeSearch *)

Module youtubeSearch.

(** The arrow function mapped over the items: the four properties of a
    result, evaluated in the order of the object literal. Reading
    [item.snippet] throws on an item that is null. *)
Definition toResult (P : Platform) (item : jsval) : M jsval :=
  title ←
    (snippet ← JsValue.get (typeError P) item "snippet";
     mret (JsValue.or (JsValue.optional snippet "title") (JString "")));
  url ←
    (id ← JsValue.get (typeError P) item "id";
     videoId ← liftC (ToString P (JsValue.or (JsValue.optional id "videoId")
                                               (JString "")));
     mret ("https://www.youtube.com/watch?v=" +:+ videoId));
  channel ←
    (snippet ← JsValue.get (typeError P) item "snippet";
     mret (JsValue.or (JsValue.optional snippet "channelTitle") (JString "")));
  defaultUrl ←
    (snippet ← JsValue.get (typeError P) item "snippet";
     mret (JsValue.optional
             (JsValue.optional (JsValue.optional snippet "thumbnails") "default")
             "url"));
  mediumUrl ←
    (snippet ← JsValue.get (typeError P) item "snippet";
     mret (JsValue.optional
             (JsValue.optional (JsValue.optional snippet "thumbnails") "medium")
             "url"));
  highUrl ←
    (snippet ← JsValue.get (typeError P) item "snippet";
     mret (JsValue.optional
             (JsValue.optional (JsValue.optional snippet "thumbnails") "high")
             "url"));
  mret (JObject [("title", title);
                 ("url", JString url);
                 ("channel", channel);
                 ("thumbnails",
                   JObject [("default", defaultUrl);
                            ("medium", mediumUrl);
                            ("high", highUrl)])]).

(** [(data.items || []).map((item) => ...)]. *)
Definition results (P : Platform) (data : jsval) : M (list jsval) :=
  items ← JsValue.get (typeError P) data "items";
  JsValue.map (typeError P) (notAFunction P) (toResult P)
    (JsValue.or items (JArray [])).

(** [{ results }]. *)
Definition apiResponse (results : list jsval) : jsval :=
  JObject [("results", JArray results)].

Definition searchUrl (query apiKey : string) : URL :=
  URL_set "key" apiKey
    (URL_set "maxResults" "10"
      (URL_set "type" "video"
        (URL_set "q" query
          (URL_set "part" "snippet"
            {| href := "https://www.googleapis.com/youtube/v3/search";
               searchParams := [] |})))).

Definition handler (P : Platform) (env : gmap string string) (event : HandlerEvent.t)
  : M HandlerResponse.t :=
  if bool_decide (HandlerEvent.httpMethod event = "OPTIONS") then
    respond 200 corsHeaders ""
  else if negb (bool_decide (HandlerEvent.httpMethod event = "POST")) then
    respond 405 corsHeaders
      (errorBody P "Method Not Allowed" "Only POST requests are allowed")
  else
    try_catch
      (let token := extractToken (authHeader event) in
       licenseCheck ← validateLicense env token;
       if negb (valid licenseCheck) then
         respond 401 corsHeaders
           (errorBody P "Unauthorized"
              (JsString.orLit (reason licenseCheck) "Invalid license"))
       else
         match JSON_parse P (JsString.orLit (HandlerEvent.body event) "{}") with
         | Throw parseError =>
             respond 400 corsHeaders
               (errorBody P "Bad Request" "Invalid JSON in request body")
         | Normal body =>
             query ← JsValue.get (typeError P) body "query";
             if missingOrInvalid query then
               respond 400 corsHeaders
                 (errorBody P "Bad Request"
                    ("Missing or invalid " +:+ JsString.dquote +:+ "query"
                       +:+ JsString.dquote +:+ " field"))
             else
               let apiKey := env !! "YOUTUBE_API_KEY" in
               if negb (JsString.truthy apiKey) then
                 _ ← logError
                       (Known (Primitive
                                 "YOUTUBE_API_KEY not set in environment variables"))
                       "youtubeSearch";
                 respond 500 corsHeaders
                   (errorBody P "Internal Server Error" "Server configuration error")
               else
                 let target :=
                   URL_toString P
                     (searchUrl (JsValue.asString query) (JsString.value apiKey)) in
                 response ← upstream (Fetch target) (fetch P target);
                 if negb (ok response) then
                   errorText ← liftC (text response);
                   _ ← logError
                         (Known (Primitive
                                   ("YouTube API error: " +:+ pretty (status response)
                                      +:+ " " +:+ errorText)))
                         "youtubeSearch";
                   respond 500 corsHeaders
                     (errorBody P "Internal Server Error" "Failed to search YouTube")
                 else
                   data ← liftC (json response);
                   results ← results P data;
                   respond 200 jsonHeaders (JSON_stringify P (apiResponse results))
         end)
      (λ error,
         _ ← logError (Known error) "youtubeSearch";
         respond 500 corsHeaders
           (errorBody P "Internal Server Error"
              "An error occurred processing your request")).

End youtubeSearch.

(** ** aiCommand *)

Module aiCommand.

(** [{ result: text }]. *)
Definition apiResponse (text : string) : jsval :=
  JObject [("result", JString text)].

(** The prompt sent upstream: the context, when [body.context] is truthy,
    ahead of the user's prompt. *)
Definition fullPrompt (P : Platform) (prompt : string) (context : jsval) : string :=
  if JsValue.truthy context then
    "Context: " +:+ JSON_stringify P context +:+ JsString.lf +:+ JsString.lf
      +:+ "User Request: " +:+ prompt
  else prompt.

Definition handler (P : Platform) (env : gmap string string) (event : HandlerEvent.t)
  : M HandlerResponse.t :=
  if bool_decide (HandlerEvent.httpMethod event = "OPTIONS") then
    respond 200 corsHeaders ""
  else if negb (bool_decide (HandlerEvent.httpMethod event = "POST")) then
    respond 405 corsHeaders
      (errorBody P "Method Not Allowed" "Only POST requests are allowed")
  else
    try_catch
      (let token := extractToken (authHeader event) in
       licenseCheck ← validateLicense env token;
       if negb (valid licenseCheck) then
         respond 401 corsHeaders
           (errorBody P "Unauthorized"
              (JsString.orLit (reason licenseCheck) "Invalid license"))
       else
         match JSON_parse P (JsString.orLit (HandlerEvent.body event) "{}") with
         | Throw parseError =>
             respond 400 corsHeaders
               (errorBody P "Bad Request" "Invalid JSON in request body")
         | Normal body =>
             prompt ← JsValue.get (typeError P) body "prompt";
             if missingOrInvalid prompt then
               respond 400 corsHeaders
                 (errorBody P "Bad Request"
                    ("Missing or invalid " +:+ JsString.dquote +:+ "prompt"
                       +:+ JsString.dquote +:+ " field"))
             else
               let apiKey := env !! "GEMINI_API_KEY" in
               if negb (JsString.truthy apiKey) then
                 _ ← logError
                       (Known (Primitive
                                 "GEMINI_API_KEY not set in environment variables"))
                       "aiCommand";
                 respond 500 corsHeaders
                   (errorBody P "Internal Server Error" "Server configuration error")
               else
                 context ← JsValue.get (typeError P) body "context";
                 let fullPrompt := fullPrompt P (JsValue.asString prompt) context in
                 result ← upstream
                            (GenerateContent (JsString.value apiKey) "gemini-pro" fullPrompt)
                            (generateContent P (JsString.value apiKey) "gemini-pro" fullPrompt);
                 text ← liftC (response_text result);
                 respond 200 jsonHeaders (JSON_stringify P (apiResponse text))
         end)
      (λ error,
         _ ← logError (Known error) "aiCommand";
         respond 500 corsHeaders
           (errorBody P "Internal Server Error"
              "An error occurred processing your request")).

End aiCommand.

(** ** The specification's words

    The conditions and values the specification names, written out for
    comparison with what the handlers compute. *)

Module Spec.

(** A required field that is absent, not a string, or a string that is
    empty or holds white space only. *)
Definition absentOrBlank (v : jsval) : Prop :=
  v = JUndefined
  ∨ (∀ s, v ≠ JString s)
  ∨ (∃ s, v = JString s ∧ JsString.all JsString.isWhiteSpace s = true).


(** The quotation mark, code unit 34. *)
Definition quotationMark : string := String "034"%char EmptyString.

(** The messages [Missing or invalid "prompt" field] and [Missing or
    invalid "query" field]. *)
Definition invalidPrompt : string :=
  "Missing or invalid " +:+ quotationMark +:+ "prompt" +:+ quotationMark
    +:+ " field".

Definition invalidQuery : string :=
  "Missing or invalid " +:+ quotationMark +:+ "query" +:+ quotationMark
    +:+ " field".

(** *** The whitelist *)

(** The code units of a string. *)
Fixpoint units (s : string) : list ascii :=
  match s with
  | EmptyString => []
  | String c rest => c :: units rest
  end.

(** White space below code unit 256: TAB, LF, VT, FF, CR, SPACE and
    NO-BREAK SPACE. *)
Definition whiteSpace (c : ascii) : bool :=
  existsb (Nat.eqb (nat_of_ascii c)) [9; 10; 11; 12; 13; 32; 160].

(** A string of white space only. *)
Definition blank (s : string) : bool := forallb whiteSpace (units s).

(** A string without the code unit [c]. *)
Definition without (c : ascii) (s : string) : bool :=
  forallb (λ d, negb (Ascii.eqb d c)) (units s).

Definition first (s : string) : option ascii := head (units s).

Definition last (s : string) : option ascii := list.last (units s).

(** A string with no white space at either end. *)
Definition bare (s : string) : bool :=
  match first s, last s with
  | Some a, Some b => negb (whiteSpace a) && negb (whiteSpace b)
  | _, _ => true
  end.

(** [p] is one of the pieces of [tokens] between its commas: it holds no
    comma, a comma or the start of [tokens] is before it, and a comma or
    the end of [tokens] after it. *)
Definition piece (tokens p : string) : Prop :=
  ∃ before after,
    tokens = before +:+ p +:+ after
    ∧ without ","%char p = true
    ∧ (last before = None ∨ last before = Some ","%char)
    ∧ (first after = None ∨ first after = Some ","%char).

(** [entry] is [p] without the white space at its two ends. *)
Definition trimmed (p entry : string) : Prop :=
  ∃ left right,
    p = left +:+ entry +:+ right
    ∧ blank left = true ∧ blank right = true ∧ bare entry = true.

(** [token] is a trimmed entry of [tokens] split on commas. *)
Definition listed (tokens token : string) : Prop :=
  ∃ p, piece tokens p ∧ trimmed p token.

(** *** The payload of the video search *)

(** The property [key] among the properties of an object, undefined when
    there is none. *)
Fixpoint binding (key : string) (properties : list (string * jsval)) : jsval :=
  match properties with
  | [] => JUndefined
  | (k, v) :: rest => if String.eqb k key then v else binding key rest
  end.

(** The property [key] of a value, undefined when the value is no object
    or has no such property. *)
Definition property (key : string) (v : jsval) : jsval :=
  match v with
  | JObject properties => binding key properties
  | _ => JUndefined
  end.

(** A value that counts as absent where a default is given: undefined,
    null, false, zero, NaN and the empty string. *)
Definition falsy (v : jsval) : bool :=
  match v with
  | JUndefined | JNull | JBool false | JString EmptyString
  | JNumber (S754_zero _) | JNumber S754_nan => true
  | _ => false
  end.

(** The value, the empty string when it is absent. *)
Definition orEmpty (v : jsval) : jsval :=
  if falsy v then JString EmptyString else v.

Definition nullish (v : jsval) : bool :=
  match v with JUndefined | JNull => true | _ => false end.

(** The video id of an item, the empty string when absent. *)
Definition videoId (item : jsval) : jsval :=
  orEmpty (property "videoId" (property "id" item)).

(** A field of the snippet of an item, the empty string when absent. *)
Definition snippetField (field : string) (item : jsval) : jsval :=
  orEmpty (property field (property "snippet" item)).

(** The url of the thumbnail of one resolution, undefined when the
    snippet, its thumbnails, that resolution or its url is absent. *)
Definition thumbnailUrl (resolution : string) (item : jsval) : jsval :=
  property "url"
    (property resolution (property "thumbnails" (property "snippet" item))).

(** The items of a payload: those of the array [items], none when [items]
    is absent; a payload that is null, or whose [items] is neither absent
    nor an array, has no items to read. *)
Definition items (data : jsval) : option (list jsval) :=
  if nullish data then None
  else if falsy (property "items" data) then Some []
  else match property "items" data with
       | JArray elements => Some elements
       | _ => None
       end.

(** A value that has a string form: an object has none when it has a
    property [toString] of its own, an array when one of its elements has
    none. *)
Fixpoint printable (v : jsval) : bool :=
  match v with
  | JArray elements => forallb printable elements
  | JObject properties =>
      negb (existsb (λ p, String.eqb p.1 "toString") properties)
  | _ => true
  end.

(** A payload the handler can transform: it has items to read, none of
    them is null, and the video id of each has a string form. *)
Definition mappable (data : jsval) : bool :=
  match items data with
  | Some elements =>
      forallb (λ item, negb (nullish item) && printable (videoId item)) elements
  | None => false
  end.

(** The three CORS headers, and nothing else. *)
Definition cors : gmap string string :=
  <["Access-Control-Allow-Origin" := "*"]>
  (<["Access-Control-Allow-Headers" := "Content-Type, Authorization"]>
  (<["Access-Control-Allow-Methods" := "POST, OPTIONS"]> ∅)).

(** The three CORS headers are on a response. *)
Definition carriesCors (resp : HandlerResponse.t) : Prop :=
  HandlerResponse.headers resp !! "Access-Control-Allow-Origin" = Some "*"
  ∧ HandlerResponse.headers resp !! "Access-Control-Allow-Headers"
    = Some "Content-Type, Authorization"
  ∧ HandlerResponse.headers resp !! "Access-Control-Allow-Methods"
    = Some "POST, OPTIONS".

End Spec.

(** ** A sample deployment

    Stand-ins for the platform, in the manner of the mocks of a test suite:
    they are used to run the handlers on concrete requests. *)

Module Sample.

Definition backslash : string := String "092"%char EmptyString.

Definition hexDigit (n : nat) : string :=
  String (nth n (Spec.units "0123456789abcdef") "0"%char) EmptyString.

(** The escape [JSON.stringify] writes for a code unit of a string: the
    double quote, the backslash and the control characters are escaped,
    every other code unit is kept. *)
Definition escape (c : ascii) : string :=
  let n := nat_of_ascii c in
  if n =? 34 then backslash +:+ JsString.dquote
  else if n =? 92 then backslash +:+ backslash
  else if n =? 8 then backslash +:+ "b"
  else if n =? 9 then backslash +:+ "t"
  else if n =? 10 then backslash +:+ "n"
  else if n =? 12 then backslash +:+ "f"
  else if n =? 13 then backslash +:+ "r"
  else if n <? 32 then backslash +:+ "u00" +:+ hexDigit (n / 16) +:+ hexDigit (n mod 16)
  else String c EmptyString.

(** A string as JSON text. *)
Definition quote (s : string) : string :=
  JsString.dquote
    +:+ (fix escaped (s : string) : string :=
           match s with
           | EmptyString => EmptyString
           | String c rest => escape c +:+ escaped rest
           end) s
    +:+ JsString.dquote.

(** [String(x)] for the numbers of the examples: zero, the integers below
    10^21, which are written in decimal, NaN and the infinities. *)
Definition numberToString (x : spec_float) : string :=
  match x with
  | S754_zero _ => "0"
  | S754_nan => "NaN"
  | S754_infinity false => "Infinity"
  | S754_infinity true => "-Infinity"
  | S754_finite sign m e =>
      (if sign then "-" else "")
        +:+ pretty (match e with
                    | Z0 => Npos m
                    | Zpos k => (Npos m * 2 ^ Npos k)%N
                    | Zneg k => (Npos m / 2 ^ Npos k)%N
                    end)
  end.

(** [JSON.stringify]: an undefined property is left out, an undefined
    element prints as [null], and so does a number that is not finite. *)
Fixpoint stringify (v : jsval) : string :=
  match v with
  | JUndefined | JNull | JNumber S754_nan | JNumber (S754_infinity _) => "null"
  | JNumber x => numberToString x
  | JBool true => "true"
  | JBool false => "false"
  | JString s => quote s
  | JArray elements =>
      "[" +:+ JsString.join ","%char (map stringify elements) +:+ "]"
  | JObject properties =>
      "{" +:+ JsString.join ","%char
                ((fix members (ps : list (string * jsval)) : list string :=
                    match ps with
                    | [] => []
                    | (_, JUndefined) :: rest => members rest
                    | (k, x) :: rest =>
                        (quote k +:+ ":" +:+ stringify x) :: members rest
                    end) properties)
          +:+ "}"
  end.

Definition queryBody : string :=
  "{" +:+ JsString.dquote +:+ "query" +:+ JsString.dquote +:+ ":"
      +:+ JsString.dquote +:+ "cats" +:+ JsString.dquote +:+ "}".

Definition promptBody : string :=
  "{" +:+ JsString.dquote +:+ "prompt" +:+ JsString.dquote +:+ ":"
      +:+ JsString.dquote +:+ "cut here" +:+ JsString.dquote +:+ "}".

Definition contextBody : string :=
  "{" +:+ JsString.dquote +:+ "prompt" +:+ JsString.dquote +:+ ":"
      +:+ JsString.dquote +:+ "cut here" +:+ JsString.dquote +:+ ","
      +:+ JsString.dquote +:+ "context" +:+ JsString.dquote +:+ ":{"
      +:+ JsString.dquote +:+ "clip" +:+ JsString.dquote +:+ ":"
      +:+ JsString.dquote +:+ "A" +:+ JsString.dquote +:+ "}}".

(** [JSON.parse] on the request bodies of the examples; a syntax error on
    the text that is not JSON. *)
Definition parse (s : string) : Completion jsval :=
  if bool_decide (s = "null") then Normal JNull
  else if bool_decide (s = "{}") then Normal (JObject [])
  else if bool_decide (s = queryBody) then
    Normal (JObject [("query", JString "cats")])
  else if bool_decide (s = promptBody) then
    Normal (JObject [("prompt", JString "cut here")])
  else if bool_decide (s = contextBody) then
    Normal (JObject [("prompt", JString "cut here");
                     ("context", JObject [("clip", JString "A")])])
  else Throw (ErrorObject "Unexpected token in JSON" None).

(** The serialised URL, for parameters that need no escape. *)
Definition urlToString (u : URL) : string :=
  href u +:+ "?" +:+
  JsString.join "&"%char (map (λ kv, kv.1 +:+ "=" +:+ kv.2) (searchParams u)).

Definition thumbnail (u : string) : jsval := JObject [("url", JString u)].

(** A payload with two items: one complete, one with only the medium
    thumbnail and no channel. *)
Definition twoItems : jsval :=
  JObject [
    ("kind", JString "youtube#searchListResponse");
    ("items", JArray [
       JObject [
         ("id", JObject [("kind", JString "youtube#video");
                         ("videoId", JString "abc123")]);
         ("snippet", JObject [
            ("title", JString "First");
            ("channelTitle", JString "Channel One");
            ("thumbnails", JObject [("default", thumbnail "d1");
                                    ("medium", thumbnail "m1");
                                    ("high", thumbnail "h1")])])];
       JObject [
         ("id", JObject [("kind", JString "youtube#video");
                         ("videoId", JString "xyz789")]);
         ("snippet", JObject [
            ("title", JString "Second");
            ("thumbnails", JObject [("medium", thumbnail "m2")])])]])].

Definition readError (key : string) : Thrown :=
  ErrorObject ("Cannot read properties of null (reading '" +:+ key +:+ "')") None.

Definition callError (key : string) : Thrown :=
  ErrorObject (key +:+ " is not a function") None.

Definition conversionError : Thrown :=
  ErrorObject "Cannot convert object to primitive value" None.

(** A platform whose video search answers 200 with the JSON [data]. *)
Definition answering (data : jsval) : Platform :=
  {| JSON_parse := parse;
     JSON_stringify := stringify;
     typeError := readError;
     notAFunction := callError;
     notPrimitive := conversionError;
     Number_toString := numberToString;
     URL_toString := urlToString;
     fetch := λ _,
       Normal {| ok := true; status := 200; text := Normal "";
                 json := Normal data |};
     generateContent := λ _ _ prompt,
       Normal {| response_text := Normal ("echo: " +:+ prompt) |} |}.

Definition platform : Platform := answering twoItems.

(** A production configuration with two licensed tokens. *)
Definition env : gmap string string :=
  <["LICENSE_TOKENS" := "alpha, beta"]>
  (<["YOUTUBE_API_KEY" := "yt-key"]>
  (<["GEMINI_API_KEY" := "gm-key"]> ∅)).

(** A development configuration without [LICENSE_TOKENS]. *)
Definition devEnv : gmap string string :=
  <["NODE_ENV" := "development"]> ∅.

(** A development configuration whose [LICENSE_TOKENS] is the empty
    string. *)
Definition devEnvEmptyTokens : gmap string string :=
  <["LICENSE_TOKENS" := ""]> devEnv.

Definition request (method : string) (authorization : option string)
    (body : option string) : HandlerEvent.t :=
  {| HandlerEvent.httpMethod := method;
     HandlerEvent.headers :=
       match authorization with
       | Some a => <["authorization" := a]> ∅
       | None => ∅
       end;
     HandlerEvent.body := body |}.

End Sample.

(** ** utils/errors: createErrorResponse *)

Module errors.

Record ErrorResponse := {
  statusCode : N;
  body : string
}.

(** [createErrorResponse(message, statusCode = 500, error = 'Internal
    Server Error')]: a default is taken where the argument is left out. *)
Definition createErrorResponse (P : Platform) (message : string)
    (statusCode : option N) (error : option string) : ErrorResponse :=
  {| statusCode := from_option id 500%N statusCode;
     body := JSON_stringify P
               (JsValue.ofStrings
                  [("error", from_option id "Internal Server Error" error);
                   ("message", message)]) |}.

End errors.

(** ** The responses and the paths of a request

    The responses are written out here as the object literals of the
    source have them, for comparison with what the handlers compute. *)

(** How often the code unit [c] occurs in [s]. *)
Fixpoint occurrences (c : ascii) (s : string) : nat :=
  match s with
  | EmptyString => 0
  | String d rest => (if bool_decide (d = c) then 1 else 0) + occurrences c rest
  end.

(** The responses the handlers build, by status. *)
Definition preflight : HandlerResponse.t :=
  {| HandlerResponse.statusCode := 200;
     HandlerResponse.headers := Spec.cors;
     HandlerResponse.body := "" |}.

(** An error response: the status, the three CORS headers and the JSON
    text of [{ error, message }]. *)
Definition errorResponse (P : Platform) (statusCode : N) (error message : string)
  : HandlerResponse.t :=
  {| HandlerResponse.statusCode := statusCode;
     HandlerResponse.headers := Spec.cors;
     HandlerResponse.body :=
       JSON_stringify P
         (JObject [("error", JString error); ("message", JString message)]) |}.

Definition methodNotAllowed (P : Platform) : HandlerResponse.t :=
  errorResponse P 405 "Method Not Allowed" "Only POST requests are allowed".

Definition unauthorized (P : Platform) (message : string) : HandlerResponse.t :=
  errorResponse P 401 "Unauthorized" message.

Definition badRequest (P : Platform) (message : string) : HandlerResponse.t :=
  errorResponse P 400 "Bad Request" message.

Definition serverError (P : Platform) (message : string) : HandlerResponse.t :=
  errorResponse P 500 "Internal Server Error" message.

(** The 200 of a POST request: the CORS headers, the content type and the
    JSON text of the payload. *)
Definition success (P : Platform) (payload : jsval) : HandlerResponse.t :=
  {| HandlerResponse.statusCode := 200;
     HandlerResponse.headers := <["Content-Type" := "application/json"]> Spec.cors;
     HandlerResponse.body := JSON_stringify P payload |}.

(** The message of the catch block at the handler boundary. *)
Definition genericMessage : string := "An error occurred processing your request".

(** What [logError(error, context)] writes. *)
Definition logged (error : Thrown) (context : string) : list Effect :=
  (logError (Known error) context).2.

(** [event.body || '{}'], the text handed to [JSON.parse]. *)
Definition bodyText (event : HandlerEvent.t) : string :=
  JsString.orLit (HandlerEvent.body event) "{}".

(** A POST request whose license check passed, having performed [t]. *)
Definition passesGuard (env : gmap string string) (event : HandlerEvent.t)
    (t : list Effect) : Prop :=
  HandlerEvent.httpMethod event = "POST"
  ∧ ∃ r, licenseCheck env event = (Normal r, t) ∧ valid r = true.

(** The url youtubeSearch fetches for the field [query] of the body. *)
Definition searchTarget (P : Platform) (env : gmap string string) (query : jsval)
  : string :=
  URL_toString P
    (youtubeSearch.searchUrl (JsValue.asString query)
       (JsString.value (env !! "YOUTUBE_API_KEY"))).

(** The paths of a youtubeSearch request: the response each one ends in
    and the effects performed on the way. *)
Inductive youtubeSearchPath (P : Platform) (env : gmap string string)
    (event : HandlerEvent.t) : HandlerResponse.t → list Effect → Prop :=
| ysPreflight :
    HandlerEvent.httpMethod event = "OPTIONS" →
    youtubeSearchPath P env event preflight []
| ysMethodNotAllowed :
    HandlerEvent.httpMethod event ≠ "OPTIONS" →
    HandlerEvent.httpMethod event ≠ "POST" →
    youtubeSearchPath P env event (methodNotAllowed P) []
| ysUnauthorized r t :
    HandlerEvent.httpMethod event = "POST" →
    licenseCheck env event = (Normal r, t) →
    valid r = false →
    youtubeSearchPath P env event
      (unauthorized P (JsString.orLit (reason r) "Invalid license")) t
| ysInvalidJson t e :
    passesGuard env event t →
    JSON_parse P (bodyText event) = Throw e →
    youtubeSearchPath P env event (badRequest P "Invalid JSON in request body") t
| ysNoProperties t body :
    passesGuard env event t →
    JSON_parse P (bodyText event) = Normal body →
    JsValue.member body "query" = None →
    youtubeSearchPath P env event (serverError P genericMessage)
      (t ++ logged (typeError P "query") "youtubeSearch")
| ysInvalidQuery t body query :
    passesGuard env event t →
    JSON_parse P (bodyText event) = Normal body →
    JsValue.member body "query" = Some query →
    missingOrInvalid query = true →
    youtubeSearchPath P env event (badRequest P Spec.invalidQuery) t
| ysNoKey t body query :
    passesGuard env event t →
    JSON_parse P (bodyText event) = Normal body →
    JsValue.member body "query" = Some query →
    missingOrInvalid query = false →
    JsString.truthy (env !! "YOUTUBE_API_KEY") = false →
    youtubeSearchPath P env event (serverError P "Server configuration error")
      (t ++ logged (Primitive "YOUTUBE_API_KEY not set in environment variables")
              "youtubeSearch")
| ysFetchRejected t body query e :
    passesGuard env event t →
    JSON_parse P (bodyText event) = Normal body →
    JsValue.member body "query" = Some query →
    missingOrInvalid query = false →
    JsString.truthy (env !! "YOUTUBE_API_KEY") = true →
    fetch P (searchTarget P env query) = Throw e →
    youtubeSearchPath P env event (serverError P genericMessage)
      (t ++ Fetch (searchTarget P env query) :: logged e "youtubeSearch")
| ysUpstreamFailed t body query fetched errorText :
    passesGuard env event t →
    JSON_parse P (bodyText event) = Normal body →
    JsValue.member body "query" = Some query →
    missingOrInvalid query = false →
    JsString.truthy (env !! "YOUTUBE_API_KEY") = true →
    fetch P (searchTarget P env query) = Normal fetched →
    ok fetched = false →
    text fetched = Normal errorText →
    youtubeSearchPath P env event (serverError P "Failed to search YouTube")
      (t ++ Fetch (searchTarget P env query)
         :: logged (Primitive ("YouTube API error: " +:+ pretty (status fetched)
                                 +:+ " " +:+ errorText)) "youtubeSearch")
| ysTextRejected t body query fetched e :
    passesGuard env event t →
    JSON_parse P (bodyText event) = Normal body →
    JsValue.member body "query" = Some query →
    missingOrInvalid query = false →
    JsString.truthy (env !! "YOUTUBE_API_KEY") = true →
    fetch P (searchTarget P env query) = Normal fetched →
    ok fetched = false →
    text fetched = Throw e →
    youtubeSearchPath P env event (serverError P genericMessage)
      (t ++ Fetch (searchTarget P env query) :: logged e "youtubeSearch")
| ysJsonRejected t body query fetched e :
    passesGuard env event t →
    JSON_parse P (bodyText event) = Normal body →
    JsValue.member body "query" = Some query →
    missingOrInvalid query = false →
    JsString.truthy (env !! "YOUTUBE_API_KEY") = true →
    fetch P (searchTarget P env query) = Normal fetched →
    ok fetched = true →
    json fetched = Throw e →
    youtubeSearchPath P env event (serverError P genericMessage)
      (t ++ Fetch (searchTarget P env query) :: logged e "youtubeSearch")
| ysMappingThrew t body query fetched data e :
    passesGuard env event t →
    JSON_parse P (bodyText event) = Normal body →
    JsValue.member body "query" = Some query →
    missingOrInvalid query = false →
    JsString.truthy (env !! "YOUTUBE_API_KEY") = true →
    fetch P (searchTarget P env query) = Normal fetched →
    ok fetched = true →
    json fetched = Normal data →
    youtubeSearch.results P data = (Throw e, []) →
    youtubeSearchPath P env event (serverError P genericMessage)
      (t ++ Fetch (searchTarget P env query) :: logged e "youtubeSearch")
| ysSuccess t body query fetched data results :
    passesGuard env event t →
    JSON_parse P (bodyText event) = Normal body →
    JsValue.member body "query" = Some query →
    missingOrInvalid query = false →
    JsString.truthy (env !! "YOUTUBE_API_KEY") = true →
    fetch P (searchTarget P env query) = Normal fetched →
    ok fetched = true →
    json fetched = Normal data →
    youtubeSearch.results P data = (Normal results, []) →
    youtubeSearchPath P env event
      (success P (youtubeSearch.apiResponse results))
      (t ++ [Fetch (searchTarget P env query)]).

(** The call aiCommand makes for the fields [prompt] and [context] of the
    body. *)
Definition generateCall (P : Platform) (env : gmap string string)
    (prompt context : jsval) : Effect :=
  GenerateContent (JsString.value (env !! "GEMINI_API_KEY")) "gemini-pro"
    (aiCommand.fullPrompt P (JsValue.asString prompt) context).

(** What the generative-text service answers to that call. *)
Definition generateAnswer (P : Platform) (env : gmap string string)
    (prompt context : jsval) : Completion GenerateContentResult :=
  generateContent P (JsString.value (env !! "GEMINI_API_KEY")) "gemini-pro"
    (aiCommand.fullPrompt P (JsValue.asString prompt) context).

(** The paths of an aiCommand request. *)
Inductive aiCommandPath (P : Platform) (env : gmap string string)
    (event : HandlerEvent.t) : HandlerResponse.t → list Effect → Prop :=
| acPreflight :
    HandlerEvent.httpMethod event = "OPTIONS" →
    aiCommandPath P env event preflight []
| acMethodNotAllowed :
    HandlerEvent.httpMethod event ≠ "OPTIONS" →
    HandlerEvent.httpMethod event ≠ "POST" →
    aiCommandPath P env event (methodNotAllowed P) []
| acUnauthorized r t :
    HandlerEvent.httpMethod event = "POST" →
    licenseCheck env event = (Normal r, t) →
    valid r = false →
    aiCommandPath P env event
      (unauthorized P (JsString.orLit (reason r) "Invalid license")) t
| acInvalidJson t e :
    passesGuard env event t →
    JSON_parse P (bodyText event) = Throw e →
    aiCommandPath P env event (badRequest P "Invalid JSON in request body") t
| acNoProperties t body :
    passesGuard env event t →
    JSON_parse P (bodyText event) = Normal body →
    JsValue.member body "prompt" = None →
    aiCommandPath P env event (serverError P genericMessage)
      (t ++ logged (typeError P "prompt") "aiCommand")
| acInvalidPrompt t body prompt :
    passesGuard env event t →
    JSON_parse P (bodyText event) = Normal body →
    JsValue.member body "prompt" = Some prompt →
    missingOrInvalid prompt = true →
    aiCommandPath P env event (badRequest P Spec.invalidPrompt) t
| acNoKey t body prompt :
    passesGuard env event t →
    JSON_parse P (bodyText event) = Normal body →
    JsValue.member body "prompt" = Some prompt →
    missingOrInvalid prompt = false →
    JsString.truthy (env !! "GEMINI_API_KEY") = false →
    aiCommandPath P env event (serverError P "Server configuration error")
      (t ++ logged (Primitive "GEMINI_API_KEY not set in environment variables")
              "aiCommand")
| acGenerateRejected t body prompt context e :
    passesGuard env event t →
    JSON_parse P (bodyText event) = Normal body →
    JsValue.member body "prompt" = Some prompt →
    missingOrInvalid prompt = false →
    JsString.truthy (env !! "GEMINI_API_KEY") = true →
    JsValue.member body "context" = Some context →
    generateAnswer P env prompt context = Throw e →
    aiCommandPath P env event (serverError P genericMessage)
      (t ++ generateCall P env prompt context :: logged e "aiCommand")
| acTextRejected t body prompt context result e :
    passesGuard env event t →
    JSON_parse P (bodyText event) = Normal body →
    JsValue.member body "prompt" = Some prompt →
    missingOrInvalid prompt = false →
    JsString.truthy (env !! "GEMINI_API_KEY") = true →
    JsValue.member body "context" = Some context →
    generateAnswer P env prompt context = Normal result →
    response_text result = Throw e →
    aiCommandPath P env event (serverError P genericMessage)
      (t ++ generateCall P env prompt context :: logged e "aiCommand")
| acSuccess t body prompt context result text :
    passesGuard env event t →
    JSON_parse P (bodyText event) = Normal body →
    JsValue.member body "prompt" = Some prompt →
    missingOrInvalid prompt = false →
    JsString.truthy (env !! "GEMINI_API_KEY") = true →
    JsValue.member body "context" = Some context →
    generateAnswer P env prompt context = Normal result →
    response_text result = Normal text →
    aiCommandPath P env event (success P (aiCommand.apiResponse text))
      (t ++ [generateCall P env prompt context]).

(** Two configurations that agree on the license variables and on the key
    named [key]. *)
Definition sameConfiguration (key : string) (env env' : gmap string string) : Prop :=
  env !! "LICENSE_TOKENS" = env' !! "LICENSE_TOKENS"
  ∧ env !! "NODE_ENV" = env' !! "NODE_ENV"
  ∧ env !! key = env' !! key.

(** ** Sample deployments in trouble

    Stand-ins for an upstream service that is down, an upstream service
    that refuses, and a configuration without keys. *)

Module Outage.

(** The video search answers 403 with a text. *)
Definition refused : FetchResponse :=
  {| ok := false; status := 403; text := Normal "quotaExceeded";
     json := Throw (ErrorObject "Unexpected token" None) |}.

(** A network error, with a stack. *)
Definition networkError : Thrown :=
  ErrorObject "fetch failed" (Some "TypeError: fetch failed at node:internal").

Definition refusing : Platform :=
  {| JSON_parse := Sample.parse;
     JSON_stringify := Sample.stringify;
     typeError := Sample.readError;
     notAFunction := Sample.callError;
     notPrimitive := Sample.conversionError;
     Number_toString := Sample.numberToString;
     URL_toString := Sample.urlToString;
     fetch := λ _, Normal refused;
     generateContent := λ _ _ _,
       Normal {| response_text := Throw (ErrorObject "blocked by safety" None) |} |}.

Definition unreachable : Platform :=
  {| JSON_parse := Sample.parse;
     JSON_stringify := Sample.stringify;
     typeError := Sample.readError;
     notAFunction := Sample.callError;
     notPrimitive := Sample.conversionError;
     Number_toString := Sample.numberToString;
     URL_toString := Sample.urlToString;
     fetch := λ _, Throw networkError;
     generateContent := λ _ _ _, Throw networkError |}.

(** The video search answers 200 with the JSON text [null]. *)
Definition nullPayload : Platform := Sample.answering JNull.

(** The video search answers 200 with an item that is null. *)
Definition nullItem : Platform :=
  Sample.answering (JObject [("items", JArray [JNull])]).

(** A configuration with licensed tokens and no key. *)
Definition noKeys : gmap string string :=
  <["LICENSE_TOKENS" := "alpha, beta"]> ∅.

(** A production configuration without [LICENSE_TOKENS]. *)
Definition noTokens : gmap string string :=
  <["NODE_ENV" := "production"]>
  (<["YOUTUBE_API_KEY" := "yt-key"]>
  (<["GEMINI_API_KEY" := "gm-key"]> ∅)).

End Outage.

(** * Properties *)

(** ** The model on concrete inputs *)

Example split_header : JsString.split " "%char "Bearer abc" = ["Bearer"; "abc"].
Proof. reflexivity. Qed.

Example split_empty : JsString.split ","%char "" = [""].
Proof. reflexivity. Qed.

Example split_keeps_empty_pieces :
  JsString.split " "%char " a  b " = [""; "a"; ""; "b"; ""].
Proof. reflexivity. Qed.

Example trim_keeps_inner_space : JsString.trim "  a b  " = "a b".
Proof. reflexivity. Qed.

Example whitelist_is_trimmed : whitelist Sample.env = ["alpha"; "beta"].
Proof. reflexivity. Qed.

Example extractToken_bearer : extractToken (Some "Bearer abc") = Some "abc".
Proof. reflexivity. Qed.

Example extractToken_empty_second_part : extractToken (Some "Bearer ") = Some "".
Proof. reflexivity. Qed.

Example extractToken_lower_case_scheme : extractToken (Some "bearer abc") = None.
Proof. reflexivity. Qed.

Example extractToken_two_spaces : extractToken (Some "Bearer  abc") = None.
Proof. reflexivity. Qed.

Example searchUrl_parameters :
  searchParams (youtubeSearch.searchUrl "cats" "k")
  = [("part", "snippet"); ("q", "cats"); ("type", "video"); ("maxResults", "10");
     ("key", "k")].
Proof. reflexivity. Qed.

Example youtubeSearch_run :
  statusOf (youtubeSearch.handler Sample.platform Sample.env
              (Sample.request "POST" (Some "Bearer beta") (Some Sample.queryBody)))
    = Some 200%N
  ∧ upstreamCalls (youtubeSearch.handler Sample.platform Sample.env
                     (Sample.request "POST" (Some "Bearer beta") (Some Sample.queryBody)))
    = [Fetch ("https://www.googleapis.com/youtube/v3/search"
                +:+ "?part=snippet&q=cats&type=video&maxResults=10&key=yt-key")].
Proof. split; reflexivity. Qed.

Example youtubeSearch_wrong_token :
  statusOf (youtubeSearch.handler Sample.platform Sample.env
              (Sample.request "POST" (Some "Bearer gamma") (Some Sample.queryBody)))
    = Some 401%N.
Proof. reflexivity. Qed.

Example aiCommand_malformed_body_run :
  statusOf (aiCommand.handler Sample.platform Sample.env
              (Sample.request "POST" (Some "Bearer alpha") (Some "{not json")))
    = Some 400%N.
Proof. reflexivity. Qed.

Example youtubeSearch_numeric_video_id :
  (youtubeSearch.handler
     (Sample.answering
        (JObject [("items",
                   JArray [JObject [("id", JObject [("videoId",
                                                     JNumber (S754_finite false 5 0))])]])]))
     Sample.env
     (Sample.request "POST" (Some "Bearer beta") (Some Sample.queryBody))).1
  = Normal (success Sample.platform
              (JObject [("results",
                         JArray [JObject [
                           ("title", JString "");
                           ("url", JString "https://www.youtube.com/watch?v=5");
                           ("channel", JString "");
                           ("thumbnails", JObject [("default", JUndefined);
                                                   ("medium", JUndefined);
                                                   ("high", JUndefined)])]])])).
Proof. reflexivity. Qed.

Example youtubeSearch_items_not_an_array :
  youtubeSearch.handler (Sample.answering (JObject [("items", JString "none")]))
    Sample.env (Sample.request "POST" (Some "Bearer beta") (Some Sample.queryBody))
  = (Normal (serverError Sample.platform genericMessage),
     [Fetch ("https://www.googleapis.com/youtube/v3/search"
               +:+ "?part=snippet&q=cats&type=video&maxResults=10&key=yt-key");
      ConsoleError ["[youtubeSearch] Error:"; "map is not a function"]]).
Proof. reflexivity. Qed.

Example ToString_array :
  ToString Sample.platform
    (JArray [JString "a"; JNull; JArray [JBool true; JUndefined]; JObject []])
  = Normal "a,,true,,[object Object]".
Proof. reflexivity. Qed.

Example ToString_own_toString :
  ToString Sample.platform (JObject [("toString", JString "x")])
  = Throw Sample.conversionError.
Proof. reflexivity. Qed.

Example stringify_escapes :
  Sample.stringify (JString Spec.invalidQuery)
  = Spec.quotationMark +:+ "Missing or invalid " +:+ Sample.backslash
      +:+ Spec.quotationMark +:+ "query" +:+ Sample.backslash +:+ Spec.quotationMark
      +:+ " field" +:+ Spec.quotationMark.
Proof. reflexivity. Qed.

Example logError_unprintable :
  logError (Unprintable Sample.conversionError) "youtubeSearch"
  = (Throw Sample.conversionError, []).
Proof. reflexivity. Qed.

Example aiCommand_preflight_run :
  aiCommand.handler Sample.platform Sample.env (Sample.request "OPTIONS" None None)
  = (Normal (response 200 corsHeaders ""), []).
Proof. reflexivity. Qed.

(** ** Splitting, joining and trimming *)

Section StringFacts.

Import JsString.

Lemma split_not_nil sep s : split sep s ≠ [].
Proof.
  destruct s as [|c rest]; simpl; [done|].
  case_bool_decide; [done|]. by destruct (split sep rest).
Qed.

Lemma split_length_pos sep s : 0 < length (split sep s).
Proof.
  pose proof (split_not_nil sep s). destruct (split sep s); simpl; [done | lia].
Qed.

Lemma join_cons sep p q qs :
  join sep (p :: q :: qs) = p +:+ String sep (join sep (q :: qs)).
Proof. done. Qed.

(** Joining the pieces with the separator gives the string back. *)
Lemma join_split sep s : join sep (split sep s) = s.
Proof.
  induction s as [|c rest IH]; simpl; [done|].
  pose proof (split_not_nil sep rest) as Hne.
  case_bool_decide as Hc.
  - subst c. destruct (split sep rest) as [|p ps] eqn:E; [done|].
    rewrite join_cons. by rewrite IH.
  - destruct (split sep rest) as [|p ps] eqn:E; [done|].
    destruct ps as [|q qs].
    + simpl in *. by rewrite IH.
    + rewrite join_cons in *. by rewrite <- IH.
Qed.

(** No piece contains the separator. *)
Lemma split_no_sep sep s piece : piece ∈ split sep s → mem sep piece = false.
Proof.
  revert piece. induction s as [|c rest IH]; simpl; intros piece Hin.
  - apply list_elem_of_singleton in Hin. by subst.
  - case_bool_decide as Hc.
    + apply elem_of_cons in Hin as [->|Hin]; [done | by apply IH].
    + destruct (split sep rest) as [|p ps] eqn:E.
      * apply list_elem_of_singleton in Hin. subst. simpl.
        by rewrite bool_decide_eq_false_2.
      * apply elem_of_cons in Hin as [->|Hin].
        -- simpl. rewrite bool_decide_eq_false_2 by done. simpl.
           apply IH. by left.
        -- apply IH. by right.
Qed.

Lemma split_app_no_sep sep p s :
  mem sep p = false →
  split sep (p +:+ String sep s) = p :: split sep s.
Proof.
  induction p as [|c p IH]; simpl; intros Hp.
  - by rewrite bool_decide_eq_true_2.
  - apply orb_false_iff in Hp as [Hc Hp].
    rewrite Hc. by rewrite IH.
Qed.

Lemma split_no_sep_single sep p : mem sep p = false → split sep p = [p].
Proof.
  induction p as [|c p IH]; simpl; intros Hp; [done|].
  apply orb_false_iff in Hp as [Hc Hp]. rewrite Hc. by rewrite IH.
Qed.

(** Splitting a join of separator-free pieces gives the pieces back. *)
Lemma split_join sep parts :
  parts ≠ [] →
  Forall (λ p, mem sep p = false) parts →
  split sep (join sep parts) = parts.
Proof.
  induction parts as [|p ps IH]; [done|]. intros _ Hall.
  apply Forall_cons in Hall as [Hp Hps].
  destruct ps as [|q qs].
  - simpl. by apply split_no_sep_single.
  - rewrite join_cons, split_app_no_sep by done. f_equal. by apply IH.
Qed.

Lemma trimEnd_empty s : trimEnd s = EmptyString ↔ all isWhiteSpace s = true.
Proof.
  induction s as [|c rest IH]; simpl; [done|].
  destruct (trimEnd rest) eqn:E.
  - destruct (isWhiteSpace c); simpl; [tauto|]. split; [done|done].
  - split; [done|]. intros H. apply andb_true_iff in H as [_ H].
    apply IH in H. done.
Qed.

Lemma trimStart_empty s : trimStart s = EmptyString ↔ all isWhiteSpace s = true.
Proof.
  induction s as [|c rest IH]; simpl; [done|].
  destruct (isWhiteSpace c); simpl; [done|]. split; done.
Qed.

Lemma trimStart_all s :
  all isWhiteSpace (trimStart s) = true → all isWhiteSpace s = true.
Proof.
  induction s as [|c rest IH]; simpl; [done|].
  destruct (isWhiteSpace c) eqn:E; simpl; [done|]. by rewrite E.
Qed.

(** A string trims to the empty string exactly when it holds white space
    only. *)
Lemma trim_empty s : trim s = EmptyString ↔ all isWhiteSpace s = true.
Proof.
  unfold trim. rewrite trimEnd_empty. split.
  - apply trimStart_all.
  - intros H. apply trimStart_empty in H. by rewrite H.
Qed.

Lemma length_zero_empty s : (String.length s =? 0) = true ↔ s = EmptyString.
Proof. destruct s; simpl; split; done. Qed.

Lemma truthy_Some s : truthy (Some s) = true ↔ s ≠ EmptyString.
Proof.
  unfold truthy. case_bool_decide; simpl; split; try done.
Qed.

End StringFacts.

(** ** The license guard *)

Section LicenseFacts.

Lemma includes_elem_of l token : includes l (Some token) = true ↔ token ∈ l.
Proof.
  unfold includes. rewrite existsb_exists. split.
  - intros (entry & Hin & Heq). apply bool_decide_eq_true in Heq.
    injection Heq as ->. by apply list_elem_of_In.
  - intros Hin. exists token. split; [by apply list_elem_of_In|].
    by apply bool_decide_eq_true.
Qed.

Lemma includes_None l : includes l None = false.
Proof.
  unfold includes. induction l as [|entry l IH]; [done|].
  cbn [existsb]. rewrite IH. by rewrite bool_decide_eq_false_2.
Qed.

(** The parsed whitelist is empty exactly when the variable is unset. *)
Lemma whitelist_nil env : whitelist env = [] ↔ env !! "LICENSE_TOKENS" = None.
Proof.
  unfold whitelist. destruct (env !! "LICENSE_TOKENS") as [tokens|]; [|done].
  split; [|done]. intros H. apply fmap_nil_inv in H.
  by apply split_not_nil in H.
Qed.

Lemma whitelist_length_zero env :
  (length (whitelist env) =? 0) = true ↔ env !! "LICENSE_TOKENS" = None.
Proof.
  rewrite <- whitelist_nil, Nat.eqb_eq. apply length_zero_iff_nil.
Qed.

Lemma elem_of_whitelist env token :
  token ∈ whitelist env ↔
  ∃ tokens entry, env !! "LICENSE_TOKENS" = Some tokens
                  ∧ entry ∈ JsString.split ","%char tokens
                  ∧ token = JsString.trim entry.
Proof.
  unfold whitelist. destruct (env !! "LICENSE_TOKENS") as [tokens|].
  - rewrite list_elem_of_fmap. split.
    + intros (entry & -> & Hin). by exists tokens, entry.
    + intros (? & entry & [= <-] & Hin & ->). by exists entry.
  - split; [by intros ?%elem_of_nil | by intros (? & ? & ? & _)].
Qed.

Lemma validateLicense_missing env token :
  JsString.truthy token = false → validateLicense env token = (Normal missingToken, []).
Proof. intros H. unfold validateLicense. by rewrite H. Qed.

(** The three outcomes for a token that is present. *)
Lemma validateLicense_present env token :
  JsString.truthy token = true →
  validateLicense env token =
    if (length (whitelist env) =? 0) && developmentMode env then
      (Normal validToken,
       [ConsoleWarn ["No LICENSE_TOKENS set - allowing all requests in development"]])
    else if includes (whitelist env) token then (Normal validToken, [])
    else (Normal invalidToken, []).
Proof.
  intros H. unfold validateLicense. rewrite H. simpl.
  destruct ((length (whitelist env) =? 0) && developmentMode env); [done|].
  by destruct (includes (whitelist env) token).
Qed.

(** Outside the development bypass, membership in the whitelist decides. *)
Lemma validateLicense_membership env token :
  token ≠ EmptyString →
  whitelist env ≠ [] ∨ developmentMode env = false →
  validateLicense env (Some token) =
    if includes (whitelist env) (Some token) then (Normal validToken, [])
    else (Normal invalidToken, []).
Proof.
  intros Htoken Hmode. rewrite validateLicense_present by by apply truthy_Some.
  destruct Hmode as [Hnonempty | ->]; [|by rewrite andb_false_r].
  destruct (length (whitelist env) =? 0) eqn:Hlen; [|done].
  apply Nat.eqb_eq, length_zero_iff_nil in Hlen. done.
Qed.

(** The guard never throws and calls no upstream service. *)
Lemma validateLicense_normal env token :
  ∃ r t, validateLicense env token = (Normal r, t) ∧ filter isUpstream t = [].
Proof.
  destruct (JsString.truthy token) eqn:E.
  - rewrite validateLicense_present by done.
    destruct (_ && _); [by eexists _, _|].
    destruct (includes _ _); by eexists _, _.
  - rewrite validateLicense_missing by done. by eexists _, _.
Qed.

Lemma split_Bearer token :
  JsString.split " "%char ("Bearer " +:+ token)
  = "Bearer" :: JsString.split " "%char token.
Proof. exact (split_app_no_sep " "%char "Bearer" token eq_refl). Qed.

(** The token [extractToken] finds in a header is the rest of the header
    after [Bearer ], when that rest holds no space. *)
Lemma extractToken_Bearer header token :
  extractToken (Some header) = Some token ↔
  header = "Bearer " +:+ token ∧ JsString.mem " "%char token = false.
Proof.
  unfold extractToken.
  destruct (JsString.truthy (Some header)) eqn:Ht; simpl.
  - pose proof (join_split " "%char header) as Hjoin.
    pose proof (split_no_sep " "%char header) as Hsep.
    destruct (JsString.split " "%char header) as [|p0 [|p1 [|p2 ps]]] eqn:E;
      simpl; try (split; [done|]).
    + intros [-> _]. by rewrite split_Bearer in E.
    + intros [-> Hm]. rewrite split_Bearer in E.
      injection E as <- E. by rewrite split_no_sep_single in E.
    + case_bool_decide as Hb; simpl.
      * injection Hb as ->. split.
        -- intros [= ->]. split; [by rewrite <- Hjoin|]. apply Hsep. set_solver.
        -- intros [-> Hm]. rewrite split_Bearer in E.
           injection E as E. rewrite split_no_sep_single in E by done. congruence.
      * split; [done|]. intros [-> Hm].
        rewrite split_Bearer in E. congruence.
    + intros [-> Hm]. rewrite split_Bearer in E.
      injection E as <- E. by rewrite split_no_sep_single in E.
  - unfold JsString.truthy in Ht.
    apply negb_false_iff, bool_decide_eq_true in Ht. subst header.
    split; [done|]. by intros [? _].
Qed.

End LicenseFacts.


(** ** Reasoning about computations *)

Section MonadFacts.

Context {A B : Type}.

Lemma produces_ret (Q : A → Prop) a : Q a → produces Q (mret a).
Proof. intros H ? ? [= <- _]. done. Qed.

Lemma produces_pair (Q : A → Prop) a t : Q a → produces Q (Normal a, t).
Proof. intros H ? ? [= <- _]. done. Qed.

Lemma produces_throw (Q : A → Prop) e t : produces Q (Throw e, t).
Proof. intros ? ? [=]. Qed.

Lemma produces_liftC (Q : A → Prop) c :
  (∀ a, c = Normal a → Q a) → produces Q (liftC c).
Proof. intros H a t [= -> _]. by apply H. Qed.

Lemma produces_upstream (Q : A → Prop) e c :
  (∀ a, c = Normal a → Q a) → produces Q (upstream e c).
Proof. intros H a t [= -> _]. by apply H. Qed.

Lemma bind_normal (f : A → M B) (m : M A) b t :
  m ≫= f = (Normal b, t) →
  ∃ a t1 t2, m = (Normal a, t1) ∧ f a = (Normal b, t2) ∧ t = t1 ++ t2.
Proof.
  unfold mbind, M_mbind, M_bind. destruct m as [[a|e] t1]; [|done].
  destruct (f a) as [r t2] eqn:E. intros [= -> <-]. by exists a, t1, t2.
Qed.

Lemma produces_bind (Q : B → Prop) (f : A → M B) (m : M A) :
  (∀ a t, m = (Normal a, t) → produces Q (f a)) → produces Q (m ≫= f).
Proof.
  intros H b t (a & t1 & t2 & Hm & Hf & _)%bind_normal. by eapply H.
Qed.

(** A [try] whose [catch] block returns: the whole statement returns. *)
Lemma returns_try_catch (Q : A → Prop) (m : M A) (h : Thrown → M A) :
  produces Q m → (∀ e, returns Q (h e)) → returns Q (try_catch m h).
Proof.
  intros Hm Hh. unfold try_catch. destruct m as [[a|e] t].
  - exists a, t. split; [done|]. by eapply Hm.
  - destruct (Hh e) as (a & t' & -> & HQ). by exists a, (t ++ t').
Qed.

End MonadFacts.

(** A value that [String()] converts is logged: [logError] returns, having
    called no upstream service. *)
Lemma logError_normal error context :
  ∃ t, logError (Known error) context = (Normal tt, t) ∧ filter isUpstream t = [].
Proof.
  unfold logError, perform, mbind, mret, M_mbind, M_mret, M_bind, M_ret.
  destruct error as [message stack|s]; simpl;
    [destruct (JsString.truthy stack)|]; by eexists.
Qed.

(** Case analysis along the branches of a computation. *)
Ltac branches :=
  repeat first
    [ apply produces_ret
    | apply produces_pair
    | apply produces_throw
    | apply produces_bind; intros ? ? ?
    | apply produces_upstream; intros ? ?
    | apply produces_liftC; intros ? ?
    | match goal with
      | |- produces _ (if ?b then _ else _) => destruct b eqn:?
      | |- produces _ (match ?x with _ => _ end) => destruct x eqn:?
      end ].

(** ** The gates of the handlers *)

Section GateFacts.

Context (P : Platform) (env : gmap string string) (event : HandlerEvent.t).

Lemma youtubeSearch_outcome :
  returns (wellFormed env event) (youtubeSearch.handler P env event).
Proof.
  unfold youtubeSearch.handler.
  case_bool_decide as Hoptions;
    [eexists _, _; split; [done|split; [by left|done]]|].
  case_bool_decide as Hpost; cbn [negb];
    [|eexists _, _; split; [done|split; [by left|done]]].
  apply returns_try_catch.
  - branches; unfold respond; branches;
      (split; [first [left; reflexivity | right; reflexivity]|try done]).
    intros _. split; [done|]. eexists _, _. split; [eassumption|].
    by apply negb_true_iff.
  - intros e. destruct (logError_normal e "youtubeSearch") as (t & Ht & _).
    unfold mbind, M_mbind, M_bind. rewrite Ht. simpl.
    eexists _, _; split; [done|split; [by left|done]].
Qed.

Lemma aiCommand_outcome :
  returns (wellFormed env event) (aiCommand.handler P env event).
Proof.
  unfold aiCommand.handler.
  case_bool_decide as Hoptions;
    [eexists _, _; split; [done|split; [by left|done]]|].
  case_bool_decide as Hpost; cbn [negb];
    [|eexists _, _; split; [done|split; [by left|done]]].
  apply returns_try_catch.
  - branches; unfold respond; branches;
      (split; [first [left; reflexivity | right; reflexivity]|try done]).
    intros _. split; [done|]. eexists _, _. split; [eassumption|].
    by apply negb_true_iff.
  - intros e. destruct (logError_normal e "aiCommand") as (t & Ht & _).
    unfold mbind, M_mbind, M_bind. rewrite Ht. simpl.
    eexists _, _; split; [done|split; [by left|done]].
Qed.

End GateFacts.

(** ** Past the license guard *)

Ltac unfold_M :=
  unfold respond, upstream, liftC, perform, throw,
    mbind, mret, M_mbind, M_mret, M_bind, M_ret, try_catch in *.

Lemma validateLicense_quiet env token r t :
  validateLicense env token = (Normal r, t) → filter isUpstream t = [].
Proof.
  destruct (validateLicense_normal env token) as (r' & t' & -> & Ht).
  by intros [= _ <-].
Qed.

(** The test of the handlers on the required field is the condition of the
    specification. *)
Lemma missingOrInvalid_spec v :
  missingOrInvalid v = true ↔ Spec.absentOrBlank v.
Proof.
  unfold missingOrInvalid, Spec.absentOrBlank. split.
  - intros Hbad. destruct v as [| |b|x|s|xs|ps];
      try (right; left; by intros s').
    right; right. exists s. split; [done|].
    apply trim_empty. simpl in Hbad.
    case_bool_decide as Hs; [by subst|]. simpl in Hbad.
    by apply length_zero_empty.
  - intros [-> | [Hty | (s & -> & Hs)]]; [done| |].
    + destruct v as [| |b|x|s|xs|ps]; try (exfalso; by eapply Hty);
        vm_compute; by repeat case_match.
    + apply trim_empty in Hs. simpl. rewrite Hs. by rewrite orb_true_r.
Qed.

(** Run a handler on a POST request up to the end of a passed license
    check. *)
Ltac past_license Hpost Hr Hv :=
  unfold licenseCheck in Hr;
  rewrite Hpost; simpl bool_decide; cbv iota; cbn [negb];
  unfold mbind at 1, M_mbind at 1, M_bind at 1; rewrite Hr, Hv; cbn [negb].

(** ** The transformation of the payload *)

(** Induction on a value, with the property in hand for the elements of an
    array and the values of the properties of an object. *)
Lemma jsval_induction (Q : jsval → Prop) :
  Q JUndefined → Q JNull → (∀ b, Q (JBool b)) → (∀ x, Q (JNumber x)) →
  (∀ s, Q (JString s)) →
  (∀ elements, Forall Q elements → Q (JArray elements)) →
  (∀ properties, Forall (λ p, Q p.2) properties → Q (JObject properties)) →
  ∀ v, Q v.
Proof.
  intros Hundefined Hnull Hbool Hnumber Hstring Harray Hobject.
  fix IH 1. intros [| |b|x|s|elements|properties].
  - exact Hundefined.
  - exact Hnull.
  - apply Hbool.
  - apply Hnumber.
  - apply Hstring.
  - apply Harray. revert elements. fix IHl 1. intros [|v l].
    + constructor.
    + constructor; [apply IH | apply IHl].
  - apply Hobject. revert properties. fix IHl 1. intros [|[k v] l].
    + constructor.
    + constructor; [apply IH | apply IHl].
Qed.

Section PayloadFacts.

Context (P : Platform).

Lemma lookup_binding key properties :
  JsValue.lookup key properties = Spec.binding key properties.
Proof.
  induction properties as [|[k v] rest IH]; [done|]. simpl. rewrite IH.
  destruct (String.eqb_spec k key) as [->|Hk].
  - by rewrite bool_decide_eq_true_2.
  - by rewrite bool_decide_eq_false_2.
Qed.

Lemma member_property v key :
  JsValue.member v key
  = if Spec.nullish v then None else Some (Spec.property key v).
Proof. destruct v; simpl; try done. by rewrite lookup_binding. Qed.

Lemma optional_property v key : JsValue.optional v key = Spec.property key v.
Proof.
  unfold JsValue.optional. rewrite member_property. by destruct v.
Qed.

Lemma truthy_falsy v : JsValue.truthy v = negb (Spec.falsy v).
Proof. destruct v as [| |[]|[]|[]| |]; done. Qed.

Lemma or_orEmpty v : JsValue.or v (JString "") = Spec.orEmpty v.
Proof.
  unfold JsValue.or, Spec.orEmpty. rewrite truthy_falsy. by destruct (Spec.falsy v).
Qed.

Lemma hasOwn_exists key properties :
  JsValue.hasOwn key properties = existsb (λ p, String.eqb p.1 key) properties.
Proof.
  unfold JsValue.hasOwn. induction properties as [|[k v] rest IH]; [done|].
  simpl. rewrite IH. f_equal.
  destruct (String.eqb_spec k key) as [->|Hk].
  - by rewrite bool_decide_eq_true_2.
  - by rewrite bool_decide_eq_false_2.
Qed.

(** The conversion to a string returns on the values that have a string
    form, and throws the [TypeError] on the others. *)
Lemma toString_printable v :
  if Spec.printable v then ∃ s, ToString P v = Normal s
  else ToString P v = Throw (notPrimitive P).
Proof.
  unfold ToString. induction v as [| |b|x|s|elements IH|properties _]
    using jsval_induction; simpl; try by eexists.
  - assert (if forallb Spec.printable elements
            then ∃ parts,
                   mapC (λ element,
                           match element with
                           | JUndefined | JNull => Normal EmptyString
                           | _ => JsValue.toString (Number_toString P)
                                    (notPrimitive P) element
                           end) elements = Normal parts
            else mapC (λ element,
                         match element with
                         | JUndefined | JNull => Normal EmptyString
                         | _ => JsValue.toString (Number_toString P)
                                  (notPrimitive P) element
                         end) elements = Throw (notPrimitive P)) as Hparts.
    { induction IH as [|v l Hv _ IHl]; simpl; [by eexists|].
      destruct (Spec.printable v) eqn:Hp; simpl.
      - destruct Hv as [s Hs].
        assert (match v with
                | JUndefined | JNull => Normal EmptyString
                | _ => JsValue.toString (Number_toString P) (notPrimitive P) v
                end = Normal (match v with JUndefined | JNull => EmptyString | _ => s end))
          as -> by (by destruct v).
        destruct (forallb Spec.printable l).
        + destruct IHl as [parts ->]. by eexists.
        + by rewrite IHl.
      - assert (match v with
                | JUndefined | JNull => Normal EmptyString
                | _ => JsValue.toString (Number_toString P) (notPrimitive P) v
                end = Throw (notPrimitive P)) as -> by (by destruct v).
        done. }
    destruct (forallb Spec.printable elements).
    + destruct Hparts as [parts ->]. by eexists.
    + by rewrite Hparts.
  - rewrite hasOwn_exists.
    destruct (existsb _ properties); simpl; [done | by eexists].
Qed.

Lemma ToString_string s : ToString P (JString s) = Normal s.
Proof. done. Qed.

(** What the arrow function makes of an item. *)
Lemma toResult_run item :
  youtubeSearch.toResult P item =
    if Spec.nullish item then (Throw (typeError P "snippet"), [])
    else match ToString P (Spec.videoId item) with
         | Throw e => (Throw e, [])
         | Normal videoId =>
             (Normal
                (JObject [("title", Spec.snippetField "title" item);
                          ("url", JString ("https://www.youtube.com/watch?v=" +:+ videoId));
                          ("channel", Spec.snippetField "channelTitle" item);
                          ("thumbnails",
                            JObject [("default", Spec.thumbnailUrl "default" item);
                                     ("medium", Spec.thumbnailUrl "medium" item);
                                     ("high", Spec.thumbnailUrl "high" item)])]),
              [])
         end.
Proof.
  unfold youtubeSearch.toResult, JsValue.get. rewrite !member_property.
  destruct (Spec.nullish item); [done|].
  unfold_M. cbv beta iota.
  rewrite !optional_property, !or_orEmpty.
  fold (Spec.videoId item).
  destruct (ToString P (Spec.videoId item)); done.
Qed.

Lemma toResult_quiet item : (youtubeSearch.toResult P item).2 = [].
Proof.
  rewrite toResult_run. destruct (Spec.nullish item); [done|].
  by destruct (ToString P (Spec.videoId item)).
Qed.

Lemma mapM_quiet {A B} (f : A → M B) l :
  (∀ x, (f x).2 = []) → (mapM f l).2 = [].
Proof.
  intros Hf. induction l as [|x rest IH]; [done|]. simpl.
  unfold_M. specialize (Hf x). destruct (f x) as [[y|e] t]; simpl in *; subst; [|done].
  destruct (mapM f rest) as [[ys|e] t]; simpl in *; subst; done.
Qed.

(** Mapping returns exactly when every call returns. *)
Lemma mapM_normal {A B} (f : A → M B) l rs :
  (∀ x, (f x).2 = []) →
  mapM f l = (Normal rs, []) ↔ Forall2 (λ x r, f x = (Normal r, [])) l rs.
Proof.
  intros Hf. revert rs. induction l as [|x rest IH]; intros rs; simpl.
  - unfold_M. split.
    + intros [= <-]. constructor.
    + intros H. by inversion H.
  - unfold_M. pose proof (Hf x) as Hx. pose proof (mapM_quiet f rest Hf) as Hrest.
    destruct (f x) as [[y|e] t] eqn:Ex; simpl in Hx; subst t.
    + destruct (mapM f rest) as [[ys|e] t] eqn:Erest; simpl in Hrest; subst t.
      * split.
        -- intros [= <-]. constructor; [done|]. by apply IH.
        -- intros H. inversion H as [|? r ? rs' Hr Hrs]; subst.
           rewrite Ex in Hr. injection Hr as ->.
           apply IH in Hrs. by injection Hrs as ->.
      * split; [done|]. intros H. inversion H as [|? r ? rs' Hr Hrs]; subst.
        apply IH in Hrs. done.
    + split; [done|]. intros H. inversion H as [|? r ? rs' Hr Hrs]; subst.
      rewrite Ex in Hr. done.
Qed.

(** The items the handler maps over are those the payload has to read. *)
Lemma results_items data :
  youtubeSearch.results P data =
    match Spec.items data with
    | Some elements => mapM (youtubeSearch.toResult P) elements
    | None =>
        if Spec.nullish data then (Throw (typeError P "items"), [])
        else (Throw (notAFunction P "map"), [])
    end.
Proof.
  unfold youtubeSearch.results, JsValue.get, Spec.items.
  rewrite member_property. destruct (Spec.nullish data); [done|].
  unfold_M. unfold JsValue.or. rewrite truthy_falsy.
  destruct (Spec.falsy (Spec.property "items" data)) eqn:Hfalsy; simpl.
  - done.
  - destruct (Spec.property "items" data) as [| |b|x|s|l|ps]; try done.
    simpl. by destruct (mapM _ l) as [[?|?] ?].
Qed.

Lemma results_quiet data : (youtubeSearch.results P data).2 = [].
Proof.
  rewrite results_items. destruct (Spec.items data) as [elements|].
  - apply mapM_quiet, toResult_quiet.
  - by destruct (Spec.nullish data).
Qed.

(** The transformation returns exactly on the payloads that can be
    transformed. *)
Lemma results_mappable data :
  (∃ results, youtubeSearch.results P data = (Normal results, []))
  ↔ Spec.mappable data = true.
Proof.
  rewrite results_items. unfold Spec.mappable.
  destruct (Spec.items data) as [elements|]; cycle 1.
  { split; [|done]. intros [? H]. by destruct (Spec.nullish data). }
  induction elements as [|item rest IH]; simpl.
  - split; [done|]. intros _. by exists [].
  - unfold_M. rewrite toResult_run.
    pose proof (toString_printable (Spec.videoId item)) as Hid.
    destruct (Spec.nullish item); simpl; [split; [by intros [? ?]|done]|].
    destruct (Spec.printable (Spec.videoId item)); simpl.
    + destruct Hid as [s ->].
      pose proof (mapM_quiet (youtubeSearch.toResult P) rest toResult_quiet) as Hq.
      destruct (mapM (youtubeSearch.toResult P) rest) as [[rs|e] t] eqn:E;
        simpl in *; subst.
      * split; [intros _; apply IH; by eexists | intros _; by eexists].
      * split; [by intros [? ?]|]. intros H. apply IH in H as [? H]. done.
    + rewrite Hid. split; [by intros [? ?]|done].
Qed.

End PayloadFacts.

Section BodyFacts.

Context (P : Platform) (env : gmap string string) (event : HandlerEvent.t).
Context (r : LicenseCheckResult) (t : list Effect).
Context (Hpost : HandlerEvent.httpMethod event = "POST").
Context (Hr : licenseCheck env event = (Normal r, t)).
Context (Hv : valid r = true).

Lemma youtubeSearch_bad_query body query :
  JSON_parse P (JsString.orLit (HandlerEvent.body event) "{}") = Normal body →
  JsValue.member body "query" = Some query →
  missingOrInvalid query = true →
  youtubeSearch.handler P env event =
    (Normal (response 400 corsHeaders (errorBody P "Bad Request" Spec.invalidQuery)),
     t).
Proof.
  intros Hparse Hmember Hbad. unfold youtubeSearch.handler.
  past_license Hpost Hr Hv.
  rewrite Hparse. unfold JsValue.get. rewrite Hmember.
  unfold_M. rewrite Hbad. simpl. by rewrite ?app_nil_r.
Qed.

Lemma youtubeSearch_null_body :
  JSON_parse P (JsString.orLit (HandlerEvent.body event) "{}") = Normal JNull →
  ∃ t', youtubeSearch.handler P env event =
    (Normal (response 500 corsHeaders
               (errorBody P "Internal Server Error"
                  "An error occurred processing your request")), t ++ t')
    ∧ filter isUpstream t' = [].
Proof.
  intros Hparse. unfold youtubeSearch.handler.
  past_license Hpost Hr Hv.
  rewrite Hparse. unfold JsValue.get. simpl JsValue.member. cbv iota.
  destruct (logError_normal (typeError P "query") "youtubeSearch") as (t' & Hlog & Ht').
  unfold_M. rewrite Hlog. exists t'. by rewrite ?app_nil_r.
Qed.

Lemma youtubeSearch_invalid_json e :
  JSON_parse P (JsString.orLit (HandlerEvent.body event) "{}") = Throw e →
  youtubeSearch.handler P env event =
    (Normal (response 400 corsHeaders
               (errorBody P "Bad Request" "Invalid JSON in request body")), t).
Proof.
  intros Hparse. unfold youtubeSearch.handler.
  past_license Hpost Hr Hv.
  rewrite Hparse. unfold_M. by rewrite ?app_nil_r.
Qed.

Lemma youtubeSearch_no_key body query :
  JSON_parse P (JsString.orLit (HandlerEvent.body event) "{}") = Normal body →
  JsValue.member body "query" = Some query →
  missingOrInvalid query = false →
  JsString.truthy (env !! "YOUTUBE_API_KEY") = false →
  ∃ t', youtubeSearch.handler P env event =
    (Normal (response 500 corsHeaders
               (errorBody P "Internal Server Error" "Server configuration error")),
     t ++ t')
    ∧ filter isUpstream t' = [].
Proof.
  intros Hparse Hmember Hgood Hkey. unfold youtubeSearch.handler.
  past_license Hpost Hr Hv.
  rewrite Hparse. unfold JsValue.get. rewrite Hmember.
  unfold logError. unfold_M. rewrite Hgood, Hkey. simpl.
  eexists. split; [reflexivity|done].
Qed.

Lemma youtubeSearch_success body query fetched data results :
  JSON_parse P (JsString.orLit (HandlerEvent.body event) "{}") = Normal body →
  JsValue.member body "query" = Some query →
  missingOrInvalid query = false →
  JsString.truthy (env !! "YOUTUBE_API_KEY") = true →
  let target := URL_toString P
                  (youtubeSearch.searchUrl (JsValue.asString query)
                     (JsString.value (env !! "YOUTUBE_API_KEY"))) in
  fetch P target = Normal fetched →
  ok fetched = true →
  json fetched = Normal data →
  youtubeSearch.results P data = (Normal results, []) →
  youtubeSearch.handler P env event =
    (Normal (response 200 jsonHeaders
               (JSON_stringify P (youtubeSearch.apiResponse results))),
     t ++ [Fetch target]).
Proof.
  intros Hparse Hmember Hgood Hkey target Hfetch Hok Hjson Hresults.
  unfold youtubeSearch.handler.
  past_license Hpost Hr Hv.
  rewrite Hparse. unfold JsValue.get at 1. rewrite Hmember.
  unfold_M. rewrite Hgood, Hkey. cbn [negb]. fold target.
  rewrite Hfetch, Hok. cbn [negb]. rewrite Hjson, Hresults. by rewrite ?app_nil_r.
Qed.

Lemma youtubeSearch_mapping_threw body query fetched data e :
  JSON_parse P (JsString.orLit (HandlerEvent.body event) "{}") = Normal body →
  JsValue.member body "query" = Some query →
  missingOrInvalid query = false →
  JsString.truthy (env !! "YOUTUBE_API_KEY") = true →
  let target := URL_toString P
                  (youtubeSearch.searchUrl (JsValue.asString query)
                     (JsString.value (env !! "YOUTUBE_API_KEY"))) in
  fetch P target = Normal fetched →
  ok fetched = true →
  json fetched = Normal data →
  youtubeSearch.results P data = (Throw e, []) →
  ∃ t', youtubeSearch.handler P env event =
    (Normal (response 500 corsHeaders
               (errorBody P "Internal Server Error"
                  "An error occurred processing your request")),
     t ++ Fetch target :: t')
    ∧ filter isUpstream t' = [].
Proof.
  intros Hparse Hmember Hgood Hkey target Hfetch Hok Hjson Hresults.
  unfold youtubeSearch.handler.
  past_license Hpost Hr Hv.
  rewrite Hparse. unfold JsValue.get at 1. rewrite Hmember.
  destruct (logError_normal e "youtubeSearch") as (t' & Hlog & Ht').
  unfold_M. rewrite Hgood, Hkey. cbn [negb]. fold target.
  rewrite Hfetch, Hok. cbn [negb]. rewrite Hjson, Hresults, Hlog.
  exists t'. split; [|done]. by rewrite ?app_nil_r, <- ?app_assoc.
Qed.

Lemma aiCommand_bad_prompt body prompt :
  JSON_parse P (JsString.orLit (HandlerEvent.body event) "{}") = Normal body →
  JsValue.member body "prompt" = Some prompt →
  missingOrInvalid prompt = true →
  aiCommand.handler P env event =
    (Normal (response 400 corsHeaders (errorBody P "Bad Request" Spec.invalidPrompt)),
     t).
Proof.
  intros Hparse Hmember Hbad. unfold aiCommand.handler.
  past_license Hpost Hr Hv.
  rewrite Hparse. unfold JsValue.get. rewrite Hmember.
  unfold_M. rewrite Hbad. simpl. by rewrite ?app_nil_r.
Qed.

Lemma aiCommand_null_body :
  JSON_parse P (JsString.orLit (HandlerEvent.body event) "{}") = Normal JNull →
  ∃ t', aiCommand.handler P env event =
    (Normal (response 500 corsHeaders
               (errorBody P "Internal Server Error"
                  "An error occurred processing your request")), t ++ t')
    ∧ filter isUpstream t' = [].
Proof.
  intros Hparse. unfold aiCommand.handler.
  past_license Hpost Hr Hv.
  rewrite Hparse. unfold JsValue.get. simpl JsValue.member. cbv iota.
  destruct (logError_normal (typeError P "prompt") "aiCommand") as (t' & Hlog & Ht').
  unfold_M. rewrite Hlog. exists t'. by rewrite ?app_nil_r.
Qed.

Lemma aiCommand_invalid_json e :
  JSON_parse P (JsString.orLit (HandlerEvent.body event) "{}") = Throw e →
  aiCommand.handler P env event =
    (Normal (response 400 corsHeaders
               (errorBody P "Bad Request" "Invalid JSON in request body")), t).
Proof.
  intros Hparse. unfold aiCommand.handler.
  past_license Hpost Hr Hv.
  rewrite Hparse. unfold_M. by rewrite ?app_nil_r.
Qed.

Lemma aiCommand_no_key body prompt :
  JSON_parse P (JsString.orLit (HandlerEvent.body event) "{}") = Normal body →
  JsValue.member body "prompt" = Some prompt →
  missingOrInvalid prompt = false →
  JsString.truthy (env !! "GEMINI_API_KEY") = false →
  ∃ t', aiCommand.handler P env event =
    (Normal (response 500 corsHeaders
               (errorBody P "Internal Server Error" "Server configuration error")),
     t ++ t')
    ∧ filter isUpstream t' = [].
Proof.
  intros Hparse Hmember Hgood Hkey. unfold aiCommand.handler.
  past_license Hpost Hr Hv.
  rewrite Hparse. unfold JsValue.get. rewrite Hmember.
  unfold logError. unfold_M. rewrite Hgood, Hkey. simpl.
  eexists. split; [reflexivity|done].
Qed.


End BodyFacts.

(** ** The method gate and the license gate *)

Section GateEquations.

Context (P : Platform) (env : gmap string string) (event : HandlerEvent.t).

Lemma youtubeSearch_method_gate :
  HandlerEvent.httpMethod event ≠ "POST" →
  HandlerEvent.httpMethod event ≠ "OPTIONS" →
  youtubeSearch.handler P env event =
    (Normal (response 405 corsHeaders
               (errorBody P "Method Not Allowed" "Only POST requests are allowed")), []).
Proof.
  intros Hpost Hoptions. unfold youtubeSearch.handler.
  by rewrite (bool_decide_eq_false_2 _ Hoptions), (bool_decide_eq_false_2 _ Hpost).
Qed.

Lemma aiCommand_method_gate :
  HandlerEvent.httpMethod event ≠ "POST" →
  HandlerEvent.httpMethod event ≠ "OPTIONS" →
  aiCommand.handler P env event =
    (Normal (response 405 corsHeaders
               (errorBody P "Method Not Allowed" "Only POST requests are allowed")), []).
Proof.
  intros Hpost Hoptions. unfold aiCommand.handler.
  by rewrite (bool_decide_eq_false_2 _ Hoptions), (bool_decide_eq_false_2 _ Hpost).
Qed.

Lemma youtubeSearch_preflight :
  HandlerEvent.httpMethod event = "OPTIONS" →
  youtubeSearch.handler P env event = (Normal (response 200 corsHeaders ""), []).
Proof. intros H. unfold youtubeSearch.handler. by rewrite H. Qed.

Lemma aiCommand_preflight :
  HandlerEvent.httpMethod event = "OPTIONS" →
  aiCommand.handler P env event = (Normal (response 200 corsHeaders ""), []).
Proof. intros H. unfold aiCommand.handler. by rewrite H. Qed.

(** A failed license check is answered 401 with the reason of the check. *)
Lemma youtubeSearch_unlicensed r t :
  HandlerEvent.httpMethod event = "POST" →
  licenseCheck env event = (Normal r, t) →
  valid r = false →
  youtubeSearch.handler P env event =
    (Normal (response 401 corsHeaders
               (errorBody P "Unauthorized"
                  (JsString.orLit (reason r) "Invalid license"))), t).
Proof.
  intros Hpost Hr Hv. unfold youtubeSearch.handler.
  past_license Hpost Hr Hv. unfold_M. by rewrite app_nil_r.
Qed.

Lemma aiCommand_unlicensed r t :
  HandlerEvent.httpMethod event = "POST" →
  licenseCheck env event = (Normal r, t) →
  valid r = false →
  aiCommand.handler P env event =
    (Normal (response 401 corsHeaders
               (errorBody P "Unauthorized"
                  (JsString.orLit (reason r) "Invalid license"))), t).
Proof.
  intros Hpost Hr Hv. unfold aiCommand.handler.
  past_license Hpost Hr Hv. unfold_M. by rewrite app_nil_r.
Qed.

(** A request that passes the license check is not answered 401. *)
Lemma licensed_not_401 resp :
  licensed env event →
  wellFormed env event resp →
  HandlerResponse.statusCode resp ≠ 401%N.
Proof.
  intros (r & t & Hr & Hv) [_ H401] Hstatus.
  destruct (H401 Hstatus) as (_ & r' & t' & Hr' & Hv'). congruence.
Qed.

Lemma youtubeSearch_past_guard :
  licensed env event →
  returns (λ resp, HandlerResponse.statusCode resp ≠ 401%N)
          (youtubeSearch.handler P env event).
Proof.
  intros Hlic. destruct (youtubeSearch_outcome P env event) as (resp & t & H & Hwf).
  exists resp, t. split; [done|]. by apply licensed_not_401.
Qed.

Lemma aiCommand_past_guard :
  licensed env event →
  returns (λ resp, HandlerResponse.statusCode resp ≠ 401%N)
          (aiCommand.handler P env event).
Proof.
  intros Hlic. destruct (aiCommand_outcome P env event) as (resp & t & H & Hwf).
  exists resp, t. split; [done|]. by apply licensed_not_401.
Qed.

End GateEquations.

Lemma missingOrInvalid_string query :
  JsString.trim query ≠ EmptyString →
  missingOrInvalid (JString query) = false.
Proof.
  intros Htrim. unfold missingOrInvalid. simpl.
  assert (query ≠ EmptyString) as Hq by (by intros ->).
  rewrite (bool_decide_eq_false_2 _ Hq). simpl.
  destruct (JsString.trim query); done.
Qed.

Lemma truthy_value (env : gmap string string) (key value : string) :
  env !! key = Some value → value ≠ EmptyString →
  JsString.truthy (env !! key) = true ∧ JsString.value (env !! key) = value.
Proof.
  intros -> Hv. split; [|done]. by apply truthy_Some.
Qed.

(** [o || ''] is the string [o] is, the empty string when it is
    undefined. *)
Lemma orLit_empty o : JsString.orLit o EmptyString = JsString.value o.
Proof.
  destruct o as [s|]; [|done]. unfold JsString.orLit. by case_bool_decide; subst.
Qed.

(** ** Trimming and splitting, continued *)

Section TrimFacts.

Import JsString.

Lemma trimEnd_cons_kept c s :
  isWhiteSpace c = false → trimEnd (String c s) = String c (trimEnd s).
Proof. intros Hc. simpl. rewrite Hc. by destruct (trimEnd s). Qed.

Lemma trimEnd_idempotent s : trimEnd (trimEnd s) = trimEnd s.
Proof.
  induction s as [|c rest IH]; [done|]. simpl.
  destruct (trimEnd rest) as [|d kept] eqn:E.
  - destruct (isWhiteSpace c) eqn:Hc; [done|]. simpl. by rewrite Hc.
  - change (trimEnd (String c (String d kept)) = String c (String d kept)).
    simpl. simpl in IH. by rewrite IH.
Qed.

Lemma trimStart_head s :
  trimStart s = EmptyString
  ∨ ∃ c rest, trimStart s = String c rest ∧ isWhiteSpace c = false.
Proof.
  induction s as [|c rest IH]; [by left|]. simpl.
  destruct (isWhiteSpace c) eqn:Hc; [done|]. right. by exists c, rest.
Qed.

(** Trimming twice is trimming once. *)
Lemma trim_idempotent s : trim (trim s) = trim s.
Proof.
  unfold trim. destruct (trimStart_head s) as [-> | (c & rest & -> & Hc)]; [done|].
  rewrite trimEnd_cons_kept by done. simpl trimStart. rewrite Hc.
  rewrite <- trimEnd_cons_kept by done. apply trimEnd_idempotent.
Qed.

Lemma mem_trimStart c s : mem c (trimStart s) = true → mem c s = true.
Proof.
  induction s as [|d rest IH]; [done|]. simpl.
  destruct (isWhiteSpace d); [|done]. intros H%IH. by rewrite H, orb_true_r.
Qed.

Lemma mem_trimEnd c s : mem c (trimEnd s) = true → mem c s = true.
Proof.
  induction s as [|d rest IH]; [done|]. simpl.
  destruct (trimEnd rest) as [|e kept] eqn:E.
  - destruct (isWhiteSpace d); [done|]. simpl. rewrite orb_false_r. by intros ->.
  - simpl. intros [->| H]%orb_true_iff; [done|].
    rewrite IH; [by rewrite orb_true_r|done].
Qed.

(** Trimming brings no code unit in. *)
Lemma mem_trim c s : mem c s = false → mem c (trim s) = false.
Proof.
  intros Hs. destruct (mem c (trim s)) eqn:E; [|done].
  apply mem_trimEnd, mem_trimStart in E. congruence.
Qed.

(** One piece more than there are separators. *)
Lemma length_split sep s : length (split sep s) = S (occurrences sep s).
Proof.
  induction s as [|c rest IH]; [done|]. simpl.
  case_bool_decide; simpl; [by rewrite IH|].
  pose proof (split_not_nil sep rest).
  destruct (split sep rest); [done|]. simpl in *. done.
Qed.

End TrimFacts.

Lemma split_app sep a b :
  JsString.split sep (a +:+ String sep b)
  = JsString.split sep a ++ JsString.split sep b.
Proof.
  induction a as [|c a IH]; simpl.
  - by rewrite bool_decide_eq_true_2.
  - case_bool_decide; [by rewrite IH|]. rewrite IH.
    pose proof (split_not_nil sep a). by destruct (JsString.split sep a).
Qed.

(** ** The whitelist in the specification's words *)

Section WhitelistFacts.

Import JsString.

Lemma isWhiteSpace_whiteSpace c : isWhiteSpace c = Spec.whiteSpace c.
Proof. by destruct c as [[] [] [] [] [] [] [] []]. Qed.

Lemma all_blank s : all isWhiteSpace s = Spec.blank s.
Proof.
  unfold Spec.blank. induction s as [|c rest IH]; [done|]. simpl.
  by rewrite IH, isWhiteSpace_whiteSpace.
Qed.

Lemma mem_without c s : mem c s = negb (Spec.without c s).
Proof.
  unfold Spec.without. induction s as [|d rest IH]; [done|]. simpl. rewrite IH.
  destruct (Ascii.eqb_spec d c) as [->|Hd].
  - by rewrite bool_decide_eq_true_2.
  - rewrite bool_decide_eq_false_2 by done. simpl. by destruct (forallb _ _).
Qed.

Lemma units_app a b : Spec.units (a +:+ b) = Spec.units a ++ Spec.units b.
Proof. induction a as [|c a IH]; [done|]. simpl. by rewrite IH. Qed.

Lemma units_nil s : Spec.units s = [] ↔ s = EmptyString.
Proof. by destruct s. Qed.

Lemma append_cons c (a b : string) : String c a +:+ b = String c (a +:+ b).
Proof. reflexivity. Qed.

Lemma append_assoc (a b c : string) : (a +:+ b) +:+ c = a +:+ (b +:+ c).
Proof. induction a as [|x a IH]; [done|]. by rewrite !append_cons, IH. Qed.

Lemma append_empty_r (a : string) : a +:+ EmptyString = a.
Proof. induction a as [|x a IH]; [done|]. by rewrite append_cons, IH. Qed.

Lemma last_None s : Spec.last s = None ↔ s = EmptyString.
Proof. unfold Spec.last. rewrite last_None. apply units_nil. Qed.

Lemma last_Some s c :
  Spec.last s = Some c ↔ ∃ init, s = init +:+ String c EmptyString.
Proof.
  unfold Spec.last. split.
  - revert c. induction s as [|d rest IH]; intros c; [done|].
    simpl. destruct (Spec.units rest) as [|e l] eqn:E.
    + apply units_nil in E as ->. intros [= ->]. by exists EmptyString.
    + rewrite last_cons_cons. intros H. destruct (IH c H) as [init ->].
      by exists (String d init).
  - intros [init ->]. rewrite units_app. simpl. by rewrite last_snoc.
Qed.

Lemma first_Some s c : Spec.first s = Some c ↔ ∃ rest, s = String c rest.
Proof.
  destruct s as [|d rest]; simpl.
  - split; [done | by intros [? ?]].
  - unfold Spec.first. simpl. split.
    + intros [= ->]. by exists rest.
    + by intros [? [= -> _]].
Qed.

Lemma first_None s : Spec.first s = None ↔ s = EmptyString.
Proof. by destruct s. Qed.

(** *** Trimming *)

Lemma trimStart_split s : ∃ l, s = l +:+ trimStart s ∧ Spec.blank l = true.
Proof.
  induction s as [|c rest (l & Hl & Hblank)]; [by exists EmptyString|].
  simpl. destruct (isWhiteSpace c) eqn:Hc.
  - exists (String c l). split; [by rewrite append_cons, <- Hl|].
    unfold Spec.blank in *. simpl. by rewrite <- isWhiteSpace_whiteSpace, Hc.
  - by exists EmptyString.
Qed.

Lemma trimEnd_split s : ∃ r, s = trimEnd s +:+ r ∧ Spec.blank r = true.
Proof.
  induction s as [|c rest (r & Hr & Hblank)]; [by exists EmptyString|].
  simpl. destruct (trimEnd rest) as [|d kept] eqn:E.
  - change (rest = r) in Hr. subst r. destruct (isWhiteSpace c) eqn:Hc.
    + exists (String c rest). split; [done|].
      unfold Spec.blank in *. simpl. by rewrite <- isWhiteSpace_whiteSpace, Hc.
    + by exists rest.
  - exists r. split; [|done]. by rewrite append_cons, <- Hr.
Qed.

Lemma trimEnd_last s c :
  Spec.last (trimEnd s) = Some c → Spec.whiteSpace c = false.
Proof.
  induction s as [|d rest IH]; [done|]. simpl.
  destruct (trimEnd rest) as [|e kept] eqn:E.
  - destruct (isWhiteSpace d) eqn:Hd; [done|].
    unfold Spec.last. simpl. intros [= <-]. by rewrite <- isWhiteSpace_whiteSpace.
  - unfold Spec.last in *. simpl in *. destruct (Spec.units kept); apply IH.
Qed.

Lemma trimStart_app_blank l s : Spec.blank l = true → trimStart (l +:+ s) = trimStart s.
Proof.
  unfold Spec.blank. induction l as [|c l IH]; [done|]. simpl.
  intros [Hc Hl]%andb_true_iff. rewrite isWhiteSpace_whiteSpace, Hc. by apply IH.
Qed.

Lemma trimEnd_app_blank s r : Spec.blank r = true → trimEnd (s +:+ r) = trimEnd s.
Proof.
  intros Hr. induction s as [|c s IH]; simpl.
  - apply trimEnd_empty. by rewrite all_blank.
  - by rewrite IH.
Qed.

Lemma trimEnd_fixed s :
  (∀ c, Spec.last s = Some c → Spec.whiteSpace c = false) → trimEnd s = s.
Proof.
  induction s as [|d rest IH]; [done|]. intros Hlast. simpl.
  destruct rest as [|e rest'].
  - simpl. rewrite isWhiteSpace_whiteSpace, (Hlast d); done.
  - rewrite IH; [done|]. intros c Hc. apply Hlast.
    unfold Spec.last in *. simpl in *. done.
Qed.

(** [s.trim()] is [s] without the white space at its two ends. *)
Lemma trim_trimmed p entry : trim p = entry ↔ Spec.trimmed p entry.
Proof.
  unfold Spec.trimmed. split.
  - intros <-. destruct (trimStart_split p) as (l & Hl & Hblank).
    destruct (trimEnd_split (trimStart p)) as (r & Hr & Hblank').
    exists l, r. split; [|split; [done|split; [done|]]].
    { unfold trim. by rewrite <- Hr. }
    unfold Spec.bare, trim.
    destruct (Spec.first (trimEnd (trimStart p))) as [a|] eqn:Hfirst; [|done].
    destruct (Spec.last (trimEnd (trimStart p))) as [b|] eqn:Hlast; [|done].
    rewrite (trimEnd_last _ _ Hlast), andb_true_r.
    destruct (trimStart_head p) as [Hempty | (c & rest & Hstart & Hc)].
    + by rewrite Hempty in Hfirst.
    + rewrite Hstart, trimEnd_cons_kept in Hfirst by done.
      injection Hfirst as <-. by rewrite <- isWhiteSpace_whiteSpace, Hc.
  - intros (l & r & -> & Hl & Hr & Hbare). unfold trim.
    rewrite trimStart_app_blank by done.
    destruct entry as [|c rest].
    + change (trimEnd (trimStart r) = EmptyString).
      assert (trimStart r = EmptyString) as ->; [|done].
      apply trimStart_empty. by rewrite all_blank.
    + unfold Spec.bare in Hbare. simpl Spec.first in Hbare.
      destruct (Spec.last (String c rest)) as [b|] eqn:Hlast; cycle 1.
      { by apply last_None in Hlast. }
      apply andb_true_iff in Hbare as [Hc%negb_true_iff Hb%negb_true_iff].
      rewrite append_cons. simpl trimStart. rewrite isWhiteSpace_whiteSpace, Hc.
      rewrite <- append_cons.
      rewrite trimEnd_app_blank by done. apply trimEnd_fixed.
      intros ? Hlast'. congruence.
Qed.

(** *** Splitting *)

Lemma join_app_cons sep l1 p l2 :
  ∃ before after,
    join sep (l1 ++ p :: l2) = before +:+ p +:+ after
    ∧ (Spec.last before = None ∨ Spec.last before = Some sep)
    ∧ (Spec.first after = None ∨ Spec.first after = Some sep).
Proof.
  induction l1 as [|q l1 (before & after & Hjoin & Hbefore & Hafter)]; simpl.
  - exists EmptyString. destruct l2 as [|q l2].
    + exists EmptyString. split; [by rewrite append_empty_r|]. by split; left.
    + exists (String sep (join sep (q :: l2))). split; [done|]. split; [by left|by right].
  - exists (q +:+ String sep before), after. split; [|split; [|done]].
    + destruct (l1 ++ p :: l2) eqn:E; [by destruct l1|]. rewrite Hjoin.
      rewrite !append_assoc. done.
    + right. apply last_Some. destruct Hbefore as [Hnone | Hsome].
      * apply last_None in Hnone as ->. by exists q.
      * apply last_Some in Hsome as [init ->]. exists (q +:+ String sep init).
        rewrite !append_assoc. done.
Qed.

(** The pieces [s.split(',')] gives are the stretches of [s] between its
    commas. *)
Lemma split_piece tokens p :
  p ∈ split ","%char tokens ↔ Spec.piece tokens p.
Proof.
  unfold Spec.piece. split.
  - intros Hin. pose proof (split_no_sep _ _ _ Hin) as Hfree.
    apply list_elem_of_split in Hin as (l1 & l2 & Hsplit).
    destruct (join_app_cons ","%char l1 p l2) as (before & after & Hjoin & Hb & Ha).
    rewrite <- Hsplit, join_split in Hjoin.
    exists before, after. split; [done|]. split; [|done].
    rewrite mem_without in Hfree. by apply negb_false_iff.
  - intros (before & after & -> & Hfree & Hbefore & Hafter).
    assert (mem ","%char p = false) as Hmem by (by rewrite mem_without, Hfree).
    assert (p ∈ split ","%char (p +:+ after)) as Hhere.
    { destruct Hafter as [Hnone | Hsome].
      - apply first_None in Hnone as ->. rewrite append_empty_r.
        rewrite split_no_sep_single by done. by left.
      - apply first_Some in Hsome as [rest ->].
        rewrite split_app_no_sep by done. by left. }
    destruct Hbefore as [Hnone | Hsome].
    + by apply last_None in Hnone as ->.
    + apply last_Some in Hsome as [init ->].
      rewrite append_assoc.
      change (p ∈ split ","%char (init +:+ String ","%char (p +:+ after))).
      rewrite split_app. apply elem_of_app. by right.
Qed.

End WhitelistFacts.

(** The entries of the parsed whitelist are the trimmed pieces of
    LICENSE_TOKENS. *)
Lemma whitelist_listed env token :
  token ∈ whitelist env ↔
  ∃ tokens, env !! "LICENSE_TOKENS" = Some tokens ∧ Spec.listed tokens token.
Proof.
  rewrite elem_of_whitelist. unfold Spec.listed. split.
  - intros (tokens & entry & Hset & Hin & ->). exists tokens. split; [done|].
    exists entry. split; [by apply split_piece | by apply trim_trimmed].
  - intros (tokens & Hset & p & Hpiece & Htrim). exists tokens, p.
    split; [done|]. split; [by apply split_piece|]. symmetry. by apply trim_trimmed.
Qed.

(** * The claims *)

(** ** License guard *)

(** C1, as stated, fails: with no LICENSE_TOKENS and NODE_ENV set to
    development, a call with no token does not return valid, and both
    handlers answer the request 401; the guard on the missing token runs
    before the whitelist is read. *)
Lemma C1_no_token_is_rejected_in_development :
  whitelist Sample.devEnv = []
  ∧ developmentMode Sample.devEnv = true
  ∧ validateLicense Sample.devEnv None = (Normal missingToken, [])
  ∧ (validateLicense Sample.devEnv None).1 ≠ Normal validToken
  ∧ statusOf (youtubeSearch.handler Sample.platform Sample.devEnv
                (Sample.request "POST" None (Some Sample.queryBody))) = Some 401%N
  ∧ statusOf (aiCommand.handler Sample.platform Sample.devEnv
                (Sample.request "POST" None (Some Sample.promptBody))) = Some 401%N.
Proof. repeat split; try done. Qed.

(** C1, amended: when the parsed whitelist is empty and NODE_ENV is
    development, validateLicense returns valid for every token that is
    present (a non-empty string), and a POST request that carries such a
    token is not answered 401 by either handler; with no token (null or the
    empty string) validateLicense returns the missing-token result and both
    handlers answer 401. *)
Theorem C1_development_bypass (env : gmap string string) (token : option string) :
  whitelist env = [] →
  developmentMode env = true →
  (JsString.truthy token = true →
     (validateLicense env token).1 = Normal validToken
     ∧ ∀ P event,
         HandlerEvent.httpMethod event = "POST" →
         extractToken (authHeader event) = token →
         returns (λ resp, HandlerResponse.statusCode resp ≠ 401%N)
                 (youtubeSearch.handler P env event)
         ∧ returns (λ resp, HandlerResponse.statusCode resp ≠ 401%N)
                   (aiCommand.handler P env event))
  ∧ (JsString.truthy token = false →
     validateLicense env token = (Normal missingToken, [])
     ∧ ∀ P event,
         HandlerEvent.httpMethod event = "POST" →
         extractToken (authHeader event) = token →
         youtubeSearch.handler P env event =
           (Normal (response 401 corsHeaders
                      (errorBody P "Unauthorized" "Missing authorization token")), [])
         ∧ aiCommand.handler P env event =
           (Normal (response 401 corsHeaders
                      (errorBody P "Unauthorized" "Missing authorization token")), [])).
Proof.
  intros Hempty Hdev. split; intros Htoken.
  - assert (validateLicense env token =
              (Normal validToken,
               [ConsoleWarn
                  ["No LICENSE_TOKENS set - allowing all requests in development"]]))
      as Hcheck.
    { rewrite validateLicense_present by done. by rewrite Hempty, Hdev. }
    split; [by rewrite Hcheck|]. intros P event Hpost <-.
    assert (licensed env event) as Hlic by (eexists _, _; split; [exact Hcheck|done]).
    split; [by apply youtubeSearch_past_guard | by apply aiCommand_past_guard].
  - pose proof (validateLicense_missing env token Htoken) as Hcheck.
    split; [done|]. intros P event Hpost <-.
    split.
    + by rewrite (youtubeSearch_unlicensed P env event _ _ Hpost Hcheck).
    + by rewrite (aiCommand_unlicensed P env event _ _ Hpost Hcheck).
Qed.

Lemma C1_development_bypass_witness :
  whitelist Sample.devEnv = []
  ∧ developmentMode Sample.devEnv = true
  ∧ JsString.truthy (Some "anything") = true
  ∧ (validateLicense Sample.devEnv (Some "anything")).1 = Normal validToken.
Proof.
  split; [reflexivity|]. split; [reflexivity|]. split; [reflexivity|].
  apply (C1_development_bypass Sample.devEnv (Some "anything")); reflexivity.
Defined.

(** C2: for a present token, a non-empty parsed whitelist and a process not
    in development mode, LICENSE_TOKENS is set and validateLicense returns
    { valid: true } exactly when the token is an entry of LICENSE_TOKENS
    split on commas, the white space at the two ends of the entry taken
    off: the token equals a stretch of LICENSE_TOKENS between two commas
    (or the ends) without the white space around it. A token that is no
    such entry gets { valid: false, reason: 'Invalid license token' }, and
    a POST request carrying one that is, is not answered 401 by either
    handler. *)
Theorem C2_whitelist_membership (env : gmap string string) (token : string) :
  token ≠ EmptyString →
  whitelist env ≠ [] →
  developmentMode env = false →
  ∃ tokens,
    env !! "LICENSE_TOKENS" = Some tokens
    ∧ (validateLicense env (Some token)
         = (Normal {| valid := true; reason := None |}, [])
       ↔ Spec.listed tokens token)
    ∧ (token ∈ whitelist env ↔ Spec.listed tokens token)
    ∧ (¬ Spec.listed tokens token →
         validateLicense env (Some token)
         = (Normal {| valid := false; reason := Some "Invalid license token" |}, []))
    ∧ (Spec.listed tokens token →
         ∀ P event,
           HandlerEvent.httpMethod event = "POST" →
           extractToken (authHeader event) = Some token →
           returns (λ resp, HandlerResponse.statusCode resp ≠ 401%N)
                   (youtubeSearch.handler P env event)
           ∧ returns (λ resp, HandlerResponse.statusCode resp ≠ 401%N)
                     (aiCommand.handler P env event)).
Proof.
  intros Htoken Hnonempty Hdev.
  destruct (env !! "LICENSE_TOKENS") as [tokens|] eqn:Hset; cycle 1.
  { by apply whitelist_nil in Hset. }
  pose proof (validateLicense_membership env token Htoken (or_intror Hdev)) as Hcheck.
  pose proof (includes_elem_of (whitelist env) token) as Hin.
  assert (token ∈ whitelist env ↔ Spec.listed tokens token) as Hlisted.
  { rewrite whitelist_listed. split.
    - intros (tokens' & Hset' & H). congruence.
    - intros H. by exists tokens. }
  exists tokens. split; [done|]. split; [|split; [done|split]].
  - rewrite Hcheck, <- Hlisted, <- Hin. by destruct (includes _ _).
  - intros Hnot. rewrite Hcheck. rewrite <- Hlisted, <- Hin in Hnot.
    by destruct (includes _ _).
  - intros Hmember%Hlisted%Hin P event Hpost Hheader.
    assert (licensed env event) as Hlic.
    { unfold licensed, licenseCheck. rewrite Hheader, Hcheck, Hmember.
      by exists validToken, []. }
    split; [by apply youtubeSearch_past_guard | by apply aiCommand_past_guard].
Qed.

Lemma C2_whitelist_membership_witness :
  Sample.env !! "LICENSE_TOKENS" = Some "alpha, beta"
  ∧ Spec.listed "alpha, beta" "beta"
  ∧ validateLicense Sample.env (Some "beta")
    = (Normal {| valid := true; reason := None |}, []).
Proof.
  assert (Spec.listed "alpha, beta" "beta") as Hlisted.
  { exists " beta". split.
    - exists "alpha,", "". split; [reflexivity|]. split; [reflexivity|].
      split; [right; reflexivity | left; reflexivity].
    - exists " ", "". split; [reflexivity|]. split; [reflexivity|].
      split; reflexivity. }
  split; [reflexivity|]. split; [exact Hlisted|].
  destruct (C2_whitelist_membership Sample.env "beta")
    as (tokens & Hset & Hvalid & _); [discriminate | discriminate | reflexivity |].
  injection Hset as <-. apply Hvalid. exact Hlisted.
Defined.

(** C3: extractToken returns a token exactly when the header, split on
    single spaces, has exactly two parts of which the first is 'Bearer',
    and the token is then the second part; for an absent header and for
    every other shape it returns null. *)
Theorem C3_extractToken_shape (authHeader : option string) :
  (∀ token,
     extractToken authHeader = Some token ↔
     ∃ header, authHeader = Some header
               ∧ JsString.split " "%char header = ["Bearer"; token])
  ∧ (extractToken authHeader = None ↔
     authHeader = None
     ∨ ∃ header, authHeader = Some header
                 ∧ (length (JsString.split " "%char header) ≠ 2
                    ∨ JsString.split " "%char header !! 0 ≠ Some "Bearer")).
Proof.
  destruct authHeader as [header|]; cycle 1.
  { split; [|by split; [left|]]. intros token. split; [done | by intros (? & ? & _)]. }
  assert (∀ token,
            extractToken (Some header) = Some token ↔
            JsString.split " "%char header = ["Bearer"; token]) as Hsome.
  { intros token. rewrite extractToken_Bearer. split.
    - intros [-> Hm]. rewrite split_Bearer. by rewrite split_no_sep_single.
    - intros Hsplit. pose proof (join_split " "%char header) as Hjoin.
      rewrite Hsplit in Hjoin. split; [done|].
      apply (split_no_sep " "%char header). rewrite Hsplit. set_solver. }
  split.
  - intros token. rewrite Hsome. split.
    + intros H. by exists header.
    + by intros (? & [= <-] & H).
  - split.
    + intros Hnone. right. exists header. split; [done|].
      destruct (JsString.split " "%char header) as [|p0 [|p1 [|p2 ps]]] eqn:E;
        simpl; try (left; lia).
      right. intros [= ->]. specialize (Hsome p1). rewrite Hnone in Hsome.
      destruct Hsome as [_ Hsome]. by specialize (Hsome eq_refl).
    + intros [?|(? & [= <-] & Hshape)]; [done|].
      destruct (extractToken (Some header)) as [token|] eqn:E; [|done].
      destruct (Hsome token) as [Hsplit _]. rewrite (Hsplit eq_refl) in Hshape.
      by destruct Hshape.
Qed.

(** C9: with LICENSE_TOKENS set to the empty string the parsed whitelist is
    the one-element list of the empty string, so in any mode, development
    too, every present token is rejected with reason 'Invalid license
    token'; the parsed whitelist is empty only when LICENSE_TOKENS is unset,
    and only then is a token outside the whitelist accepted. *)
Theorem C9_empty_LICENSE_TOKENS (env : gmap string string) :
  (env !! "LICENSE_TOKENS" = Some EmptyString →
     whitelist env = [EmptyString]
     ∧ ∀ token, JsString.truthy token = true →
                validateLicense env token = (Normal invalidToken, []))
  ∧ (whitelist env = [] ↔ env !! "LICENSE_TOKENS" = None)
  ∧ (∀ token r t,
       validateLicense env token = (Normal r, t) →
       valid r = true →
       includes (whitelist env) token = false →
       env !! "LICENSE_TOKENS" = None ∧ env !! "NODE_ENV" = Some "development").
Proof.
  split; [|split].
  - intros Hset.
    assert (whitelist env = [EmptyString]) as Hlist by (unfold whitelist; by rewrite Hset).
    split; [done|]. intros token Htoken.
    rewrite validateLicense_present, Hlist by done. simpl.
    destruct token as [tok|]; [|done]. apply truthy_Some in Htoken.
    unfold includes. simpl. rewrite bool_decide_eq_false_2; [done|]. by intros [= <-].
  - apply whitelist_nil.
  - intros token r t Hcheck Hvalid Hout.
    destruct (JsString.truthy token) eqn:Htoken.
    + rewrite validateLicense_present, Hout in Hcheck by done.
      destruct (length (whitelist env) =? 0) eqn:Hlen; simpl in Hcheck.
      * destruct (developmentMode env) eqn:Hdev.
        -- split; [by apply whitelist_length_zero|]. by apply bool_decide_eq_true in Hdev.
        -- injection Hcheck as <- _. done.
      * injection Hcheck as <- _. done.
    + rewrite validateLicense_missing in Hcheck by done. injection Hcheck as <- _. done.
Qed.

Lemma C9_empty_LICENSE_TOKENS_witness :
  Sample.devEnvEmptyTokens !! "LICENSE_TOKENS" = Some EmptyString
  ∧ developmentMode Sample.devEnvEmptyTokens = true
  ∧ whitelist Sample.devEnvEmptyTokens = [EmptyString]
  ∧ validateLicense Sample.devEnvEmptyTokens (Some "alpha") = (Normal invalidToken, []).
Proof.
  split; [reflexivity|]. split; [reflexivity|].
  destruct (C9_empty_LICENSE_TOKENS Sample.devEnvEmptyTokens) as [Hset _].
  destruct (Hset eq_refl) as [Hlist Hreject].
  split; [exact Hlist|]. apply Hreject. reflexivity.
Defined.

(** ** Method gate and CORS headers *)

(** C6: a request whose method is neither POST nor OPTIONS is answered 405
    by both handlers, whatever its headers and body: nothing else is read,
    and no effect is performed. *)
Theorem C6_method_not_allowed (P : Platform) (env : gmap string string)
    (event : HandlerEvent.t) :
  HandlerEvent.httpMethod event ≠ "POST" →
  HandlerEvent.httpMethod event ≠ "OPTIONS" →
  youtubeSearch.handler P env event =
    (Normal (response 405 corsHeaders
               (errorBody P "Method Not Allowed" "Only POST requests are allowed")), [])
  ∧ aiCommand.handler P env event =
    (Normal (response 405 corsHeaders
               (errorBody P "Method Not Allowed" "Only POST requests are allowed")), [])
  ∧ statusOf (youtubeSearch.handler P env event) = Some 405%N
  ∧ statusOf (aiCommand.handler P env event) = Some 405%N.
Proof.
  intros Hpost Hoptions. unfold statusOf.
  rewrite youtubeSearch_method_gate, aiCommand_method_gate by done. done.
Qed.

Lemma C6_method_not_allowed_witness :
  statusOf (youtubeSearch.handler Sample.platform Sample.env
              (Sample.request "GET" None (Some "not json"))) = Some 405%N
  ∧ statusOf (aiCommand.handler Sample.platform Sample.env
                (Sample.request "DELETE" (Some "Bearer wrong") None)) = Some 405%N.
Proof.
  split.
  - apply (C6_method_not_allowed Sample.platform Sample.env
             (Sample.request "GET" None (Some "not json"))); done.
  - apply (C6_method_not_allowed Sample.platform Sample.env
             (Sample.request "DELETE" (Some "Bearer wrong") None)); done.
Defined.

Lemma corsHeaders_carried headers :
  headers = corsHeaders ∨ headers = jsonHeaders →
  headers !! "Access-Control-Allow-Origin" = Some "*"
  ∧ headers !! "Access-Control-Allow-Headers" = Some "Content-Type, Authorization"
  ∧ headers !! "Access-Control-Allow-Methods" = Some "POST, OPTIONS".
Proof. by intros [-> | ->]. Qed.

(** C8: every response of either handler, whatever the request and the
    configuration, carries the three CORS headers; both handlers always
    return a response. *)
Theorem C8_cors_headers_on_every_response (P : Platform) (env : gmap string string)
    (event : HandlerEvent.t) :
  returns Spec.carriesCors (youtubeSearch.handler P env event)
  ∧ returns Spec.carriesCors (aiCommand.handler P env event).
Proof.
  split.
  - destruct (youtubeSearch_outcome P env event) as (resp & t & H & Hheaders & _).
    exists resp, t. split; [done|]. by apply corsHeaders_carried.
  - destruct (aiCommand_outcome P env event) as (resp & t & H & Hheaders & _).
    exists resp, t. split; [done|]. by apply corsHeaders_carried.
Qed.

(** ** Body validator *)

(** C7, as stated, fails: a body that is the text null is JSON and parses
    to null, the required field of null is absent, and a licensed POST
    request with that body is answered 500 by both handlers, not 400. *)
Lemma C7_null_body_is_not_answered_400 :
  JSON_parse Sample.platform "null" = Normal JNull
  ∧ Spec.absentOrBlank (Spec.property "query" JNull)
  ∧ Spec.absentOrBlank (Spec.property "prompt" JNull)
  ∧ statusOf (youtubeSearch.handler Sample.platform Sample.env
                (Sample.request "POST" (Some "Bearer beta") (Some "null")))
    = Some 500%N
  ∧ statusOf (youtubeSearch.handler Sample.platform Sample.env
                (Sample.request "POST" (Some "Bearer beta") (Some "null")))
    ≠ Some 400%N
  ∧ statusOf (aiCommand.handler Sample.platform Sample.env
                (Sample.request "POST" (Some "Bearer beta") (Some "null")))
    = Some 500%N
  ∧ statusOf (aiCommand.handler Sample.platform Sample.env
                (Sample.request "POST" (Some "Bearer beta") (Some "null")))
    ≠ Some 400%N.
Proof.
  split; [reflexivity|]. split; [by left|]. split; [by left|].
  split; [reflexivity|]. split; [discriminate|].
  split; [reflexivity | discriminate].
Qed.

(** C7, amended: on a licensed POST request whose body parses to a value
    other than null and whose required field is absent, not a string, or an
    empty or white-space-only string, aiCommand answers 400 with the body
    { error: 'Bad Request', message: 'Missing or invalid "prompt" field' },
    youtubeSearch answers 400 with the message 'Missing or invalid "query"
    field', and neither calls its upstream service; when the body parses to
    null, both answer 500 with 'An error occurred processing your request',
    again without an upstream call. *)
Theorem C7_missing_or_invalid_field (P : Platform) (env : gmap string string)
    (event : HandlerEvent.t) (body : jsval) :
  HandlerEvent.httpMethod event = "POST" →
  licensed env event →
  JSON_parse P (JsString.orLit (HandlerEvent.body event) "{}") = Normal body →
  (Spec.nullish body = false →
   (Spec.absentOrBlank (Spec.property "prompt" body) →
      (aiCommand.handler P env event).1 =
        Normal {| HandlerResponse.statusCode := 400;
                  HandlerResponse.headers := Spec.cors;
                  HandlerResponse.body :=
                    JSON_stringify P
                      (JObject [("error", JString "Bad Request");
                                ("message", JString Spec.invalidPrompt)]) |}
      ∧ upstreamCalls (aiCommand.handler P env event) = [])
   ∧ (Spec.absentOrBlank (Spec.property "query" body) →
      (youtubeSearch.handler P env event).1 =
        Normal {| HandlerResponse.statusCode := 400;
                  HandlerResponse.headers := Spec.cors;
                  HandlerResponse.body :=
                    JSON_stringify P
                      (JObject [("error", JString "Bad Request");
                                ("message", JString Spec.invalidQuery)]) |}
      ∧ upstreamCalls (youtubeSearch.handler P env event) = []))
  ∧ (body = JNull →
     (aiCommand.handler P env event).1 =
       Normal {| HandlerResponse.statusCode := 500;
                 HandlerResponse.headers := Spec.cors;
                 HandlerResponse.body :=
                   JSON_stringify P
                     (JObject [("error", JString "Internal Server Error");
                               ("message",
                                 JString "An error occurred processing your request")]) |}
     ∧ upstreamCalls (aiCommand.handler P env event) = []
     ∧ (youtubeSearch.handler P env event).1 =
       Normal {| HandlerResponse.statusCode := 500;
                 HandlerResponse.headers := Spec.cors;
                 HandlerResponse.body :=
                   JSON_stringify P
                     (JObject [("error", JString "Internal Server Error");
                               ("message",
                                 JString "An error occurred processing your request")]) |}
     ∧ upstreamCalls (youtubeSearch.handler P env event) = []).
Proof.
  intros Hpost (r & t & Hr & Hv) Hparse.
  pose proof (validateLicense_quiet _ _ _ _ Hr) as Hquiet.
  split.
  - intros Hbody.
    assert (∀ key, JsValue.member body key = Some (Spec.property key body)) as Hmember.
    { intros key. by rewrite member_property, Hbody. }
    split.
    + intros Hbad%missingOrInvalid_spec. unfold upstreamCalls.
      by rewrite (aiCommand_bad_prompt P env event r t Hpost Hr Hv body _
                    Hparse (Hmember _) Hbad).
    + intros Hbad%missingOrInvalid_spec. unfold upstreamCalls.
      by rewrite (youtubeSearch_bad_query P env event r t Hpost Hr Hv body _
                    Hparse (Hmember _) Hbad).
  - intros ->. unfold upstreamCalls.
    destruct (aiCommand_null_body P env event r t Hpost Hr Hv Hparse) as (t1 & -> & Ht1).
    destruct (youtubeSearch_null_body P env event r t Hpost Hr Hv Hparse) as (t2 & -> & Ht2).
    cbn [fst snd]. rewrite !filter_app. fold (filter isUpstream t).
    by rewrite Hquiet, Ht1, Ht2.
Qed.

Lemma Sample_licensed body :
  licensed Sample.env (Sample.request "POST" (Some "Bearer beta") body).
Proof. by exists validToken, []. Qed.

Lemma C7_missing_or_invalid_field_witness :
  (aiCommand.handler Sample.platform Sample.env
     (Sample.request "POST" (Some "Bearer beta") (Some "{}"))).1 =
    Normal {| HandlerResponse.statusCode := 400;
              HandlerResponse.headers := Spec.cors;
              HandlerResponse.body :=
                Sample.stringify
                  (JObject [("error", JString "Bad Request");
                            ("message", JString Spec.invalidPrompt)]) |}
  ∧ (youtubeSearch.handler Sample.platform Sample.env
       (Sample.request "POST" (Some "Bearer beta") (Some "{}"))).1 =
    Normal {| HandlerResponse.statusCode := 400;
              HandlerResponse.headers := Spec.cors;
              HandlerResponse.body :=
                Sample.stringify
                  (JObject [("error", JString "Bad Request");
                            ("message", JString Spec.invalidQuery)]) |}.
Proof.
  destruct (C7_missing_or_invalid_field Sample.platform Sample.env
              (Sample.request "POST" (Some "Bearer beta") (Some "{}")) (JObject [])
              eq_refl (Sample_licensed _) eq_refl) as [Hobject _].
  destruct (Hobject eq_refl) as [Hprompt Hquery].
  split.
  - apply Hprompt. by left.
  - apply Hquery. by left.
Defined.

(** C10: on a licensed POST request whose body is the text null, which
    parses to null, both handlers answer 500 with the body { error:
    'Internal Server Error', message: 'An error occurred processing your
    request' }, not 400: reading the required field throws and the outer
    catch answers. A request without a body is parsed as the empty object
    and is answered 400 with the message of the missing field, 'Missing or
    invalid "query" field' or 'Missing or invalid "prompt" field'; that is
    not the response to a body that is not JSON wherever JSON.stringify
    tells the two messages apart. *)
Theorem C10_null_body_and_absent_body (P : Platform) (env : gmap string string)
    (event : HandlerEvent.t) :
  HandlerEvent.httpMethod event = "POST" →
  licensed env event →
  (HandlerEvent.body event = Some "null" →
   JSON_parse P "null" = Normal JNull →
     (youtubeSearch.handler P env event).1 =
       Normal {| HandlerResponse.statusCode := 500;
                 HandlerResponse.headers := Spec.cors;
                 HandlerResponse.body :=
                   JSON_stringify P
                     (JObject [("error", JString "Internal Server Error");
                               ("message",
                                 JString "An error occurred processing your request")]) |}
     ∧ (aiCommand.handler P env event).1 =
       Normal {| HandlerResponse.statusCode := 500;
                 HandlerResponse.headers := Spec.cors;
                 HandlerResponse.body :=
                   JSON_stringify P
                     (JObject [("error", JString "Internal Server Error");
                               ("message",
                                 JString "An error occurred processing your request")]) |}
     ∧ statusOf (youtubeSearch.handler P env event) ≠ Some 400%N
     ∧ statusOf (aiCommand.handler P env event) ≠ Some 400%N)
  ∧ (HandlerEvent.body event = None →
     JSON_parse P "{}" = Normal (JObject []) →
     (youtubeSearch.handler P env event).1 =
       Normal {| HandlerResponse.statusCode := 400;
                 HandlerResponse.headers := Spec.cors;
                 HandlerResponse.body :=
                   JSON_stringify P
                     (JObject [("error", JString "Bad Request");
                               ("message", JString Spec.invalidQuery)]) |}
     ∧ (aiCommand.handler P env event).1 =
       Normal {| HandlerResponse.statusCode := 400;
                 HandlerResponse.headers := Spec.cors;
                 HandlerResponse.body :=
                   JSON_stringify P
                     (JObject [("error", JString "Bad Request");
                               ("message", JString Spec.invalidPrompt)]) |}
     ∧ (JSON_stringify P
          (JObject [("error", JString "Bad Request");
                    ("message", JString Spec.invalidQuery)])
        ≠ JSON_stringify P
            (JObject [("error", JString "Bad Request");
                      ("message", JString "Invalid JSON in request body")]) →
        (youtubeSearch.handler P env event).1 ≠
          Normal {| HandlerResponse.statusCode := 400;
                    HandlerResponse.headers := Spec.cors;
                    HandlerResponse.body :=
                      JSON_stringify P
                        (JObject [("error", JString "Bad Request");
                                  ("message",
                                    JString "Invalid JSON in request body")]) |})
     ∧ (JSON_stringify P
          (JObject [("error", JString "Bad Request");
                    ("message", JString Spec.invalidPrompt)])
        ≠ JSON_stringify P
            (JObject [("error", JString "Bad Request");
                      ("message", JString "Invalid JSON in request body")]) →
        (aiCommand.handler P env event).1 ≠
          Normal {| HandlerResponse.statusCode := 400;
                    HandlerResponse.headers := Spec.cors;
                    HandlerResponse.body :=
                      JSON_stringify P
                        (JObject [("error", JString "Bad Request");
                                  ("message",
                                    JString "Invalid JSON in request body")]) |})).
Proof.
  intros Hpost (r & t & Hr & Hv). split.
  - intros Hbody Hparse.
    assert (JSON_parse P (JsString.orLit (HandlerEvent.body event) "{}") = Normal JNull)
      as Hnull by (by rewrite Hbody).
    unfold statusOf.
    destruct (youtubeSearch_null_body P env event r t Hpost Hr Hv Hnull) as (? & -> & _).
    destruct (aiCommand_null_body P env event r t Hpost Hr Hv Hnull) as (? & -> & _).
    done.
  - intros Hbody Hparse.
    assert (JSON_parse P (JsString.orLit (HandlerEvent.body event) "{}")
            = Normal (JObject [])) as Hempty by (by rewrite Hbody).
    rewrite (youtubeSearch_bad_query P env event r t Hpost Hr Hv _ _ Hempty eq_refl eq_refl).
    rewrite (aiCommand_bad_prompt P env event r t Hpost Hr Hv _ _ Hempty eq_refl eq_refl).
    split; [done|]. split; [done|].
    split; intros Hdiffer [= Hsame]; by apply Hdiffer.
Qed.

Lemma C10_null_body_and_absent_body_witness :
  (youtubeSearch.handler Sample.platform Sample.env
     (Sample.request "POST" (Some "Bearer beta") (Some "null"))).1 =
    Normal {| HandlerResponse.statusCode := 500;
              HandlerResponse.headers := Spec.cors;
              HandlerResponse.body :=
                Sample.stringify
                  (JObject [("error", JString "Internal Server Error");
                            ("message",
                              JString "An error occurred processing your request")]) |}
  ∧ (youtubeSearch.handler Sample.platform Sample.env
       (Sample.request "POST" (Some "Bearer beta") None)).1 =
    Normal {| HandlerResponse.statusCode := 400;
              HandlerResponse.headers := Spec.cors;
              HandlerResponse.body :=
                Sample.stringify
                  (JObject [("error", JString "Bad Request");
                            ("message", JString Spec.invalidQuery)]) |}
  ∧ (youtubeSearch.handler Sample.platform Sample.env
       (Sample.request "POST" (Some "Bearer beta") None)).1 ≠
    Normal {| HandlerResponse.statusCode := 400;
              HandlerResponse.headers := Spec.cors;
              HandlerResponse.body :=
                Sample.stringify
                  (JObject [("error", JString "Bad Request");
                            ("message", JString "Invalid JSON in request body")]) |}.
Proof.
  destruct (C10_null_body_and_absent_body Sample.platform Sample.env
              (Sample.request "POST" (Some "Bearer beta") (Some "null"))
              eq_refl (Sample_licensed _)) as [Hnull _].
  destruct (Hnull eq_refl eq_refl) as (Hyt & _).
  destruct (C10_null_body_and_absent_body Sample.platform Sample.env
              (Sample.request "POST" (Some "Bearer beta") None)
              eq_refl (Sample_licensed _)) as [_ Habsent].
  destruct (Habsent eq_refl eq_refl) as (Hyt' & _ & Hdiffer & _).
  split; [exact Hyt|]. split; [exact Hyt'|].
  apply Hdiffer. discriminate.
Defined.

(** ** Response shaping *)

(** C4, as stated, fails: the payload of the video search is whatever JSON
    the service sent. For the payload null, and for a payload whose items
    hold a null, the transformation throws and youtubeSearch answers 500
    with 'An error occurred processing your request': no result is
    returned. *)
Lemma C4_null_payload_gives_no_results :
  fetch Outage.nullPayload
    (searchTarget Outage.nullPayload Sample.env (JString "cats"))
  = Normal {| ok := true; status := 200; text := Normal ""; json := Normal JNull |}
  ∧ youtubeSearch.handler Outage.nullPayload Sample.env
      (Sample.request "POST" (Some "Bearer beta") (Some Sample.queryBody))
    = (Normal {| HandlerResponse.statusCode := 500;
                 HandlerResponse.headers := Spec.cors;
                 HandlerResponse.body :=
                   Sample.stringify
                     (JObject [("error", JString "Internal Server Error");
                               ("message",
                                 JString "An error occurred processing your request")]) |},
       [Fetch (searchTarget Outage.nullPayload Sample.env (JString "cats"));
        ConsoleError ["[youtubeSearch] Error:";
                      "Cannot read properties of null (reading 'items')"]])
  ∧ statusOf (youtubeSearch.handler Outage.nullItem Sample.env
                (Sample.request "POST" (Some "Bearer beta") (Some Sample.queryBody)))
    = Some 500%N.
Proof. split; [reflexivity|]. split; reflexivity. Qed.

(** C4, amended: for every upstream payload that can be transformed (it is
    not null, its items are absent or an array, no item is null, and the
    video id of every item has a string form), youtubeSearch answers 200
    with the body { results } holding exactly one result per item, in
    order. The result of an item is { title, url, channel, thumbnails }:
    url is 'https://www.youtube.com/watch?v=' followed by the video id as a
    string, which is the video id itself when it is a string and the empty
    string when it is absent; title and channel are title and channelTitle
    of the snippet, the empty string when absent; thumbnails.default,
    .medium and .high are the urls of the three resolutions of the
    snippet's thumbnails, each undefined when absent. For every other
    payload the transformation throws and youtubeSearch answers 500 with
    'An error occurred processing your request'. *)
Theorem C4_one_result_per_item (P : Platform) (env : gmap string string)
    (event : HandlerEvent.t) (body : jsval) (query apiKey : string)
    (fetched : FetchResponse) (data : jsval) :
  HandlerEvent.httpMethod event = "POST" →
  licensed env event →
  JSON_parse P (JsString.orLit (HandlerEvent.body event) "{}") = Normal body →
  JsValue.member body "query" = Some (JString query) →
  JsString.trim query ≠ EmptyString →
  env !! "YOUTUBE_API_KEY" = Some apiKey →
  apiKey ≠ EmptyString →
  fetch P (URL_toString P (youtubeSearch.searchUrl query apiKey)) = Normal fetched →
  ok fetched = true →
  json fetched = Normal data →
  (Spec.mappable data = true →
   ∃ items results,
     Spec.items data = Some items
     ∧ (youtubeSearch.handler P env event).1 =
         Normal {| HandlerResponse.statusCode := 200;
                   HandlerResponse.headers :=
                     <["Content-Type" := "application/json"]> Spec.cors;
                   HandlerResponse.body :=
                     JSON_stringify P (JObject [("results", JArray results)]) |}
     ∧ length results = length items
     ∧ ∀ i item,
         items !! i = Some item →
         ∃ videoId,
           ToString P (Spec.videoId item) = Normal videoId
           ∧ (∀ s, Spec.videoId item = JString s → videoId = s)
           ∧ results !! i =
               Some (JObject [
                 ("title", Spec.snippetField "title" item);
                 ("url", JString ("https://www.youtube.com/watch?v=" +:+ videoId));
                 ("channel", Spec.snippetField "channelTitle" item);
                 ("thumbnails",
                   JObject [("default", Spec.thumbnailUrl "default" item);
                            ("medium", Spec.thumbnailUrl "medium" item);
                            ("high", Spec.thumbnailUrl "high" item)])]))
  ∧ (Spec.mappable data = false →
     (youtubeSearch.handler P env event).1 =
       Normal {| HandlerResponse.statusCode := 500;
                 HandlerResponse.headers := Spec.cors;
                 HandlerResponse.body :=
                   JSON_stringify P
                     (JObject [("error", JString "Internal Server Error");
                               ("message",
                                 JString "An error occurred processing your request")]) |}).
Proof.
  intros Hpost (r & t & Hr & Hv) Hparse Hmember Hquery Hkey HapiKey Hfetch Hok Hjson.
  destruct (truthy_value env _ _ Hkey HapiKey) as [Htruthy Hvalue].
  pose proof (missingOrInvalid_string _ Hquery) as Hgood.
  assert (fetch P (URL_toString P
                     (youtubeSearch.searchUrl (JsValue.asString (JString query))
                        (JsString.value (env !! "YOUTUBE_API_KEY")))) = Normal fetched)
    as Hfetch' by (by rewrite Hvalue).
  split.
  - intros Hmappable.
    assert (∃ items, Spec.items data = Some items) as [items Hitems].
    { unfold Spec.mappable in Hmappable. destruct (Spec.items data); [by eexists|done]. }
    apply results_mappable with (P := P) in Hmappable as [results Hresults].
    exists items, results. split; [done|]. split.
    { by rewrite (youtubeSearch_success P env event r t Hpost Hr Hv body (JString query)
                    fetched data results). }
    rewrite results_items, Hitems in Hresults.
    apply mapM_normal in Hresults; [|apply toResult_quiet].
    split; [symmetry; by eapply Forall2_length|].
    intros i item Hitem.
    destruct (Forall2_lookup_l _ _ _ _ _ Hresults Hitem) as (result & Hresult & Hrun).
    rewrite toResult_run in Hrun.
    destruct (Spec.nullish item); [done|].
    destruct (ToString P (Spec.videoId item)) as [videoId|e] eqn:Hid; [|done].
    injection Hrun as <-. exists videoId. split; [done|]. split; [|done].
    intros s Hs. rewrite Hs in Hid. by injection Hid as <-.
  - intros Hnot.
    pose proof (results_quiet P data) as Hquiet.
    destruct (youtubeSearch.results P data) as [[results|e] t'] eqn:Hresults;
      simpl in Hquiet; subst t'.
    + assert (Spec.mappable data = true) by (apply (results_mappable P); by eexists).
      congruence.
    + destruct (youtubeSearch_mapping_threw P env event r t Hpost Hr Hv body
                  (JString query) fetched data e Hparse Hmember Hgood Htruthy
                  Hfetch' Hok Hjson Hresults) as (t' & -> & _).
      done.
Qed.

Lemma C4_one_result_per_item_witness :
  Spec.items Sample.twoItems
  = Some [JObject [
            ("id", JObject [("kind", JString "youtube#video");
                            ("videoId", JString "abc123")]);
            ("snippet", JObject [
               ("title", JString "First");
               ("channelTitle", JString "Channel One");
               ("thumbnails", JObject [("default", JObject [("url", JString "d1")]);
                                       ("medium", JObject [("url", JString "m1")]);
                                       ("high", JObject [("url", JString "h1")])])])];
          JObject [
            ("id", JObject [("kind", JString "youtube#video");
                            ("videoId", JString "xyz789")]);
            ("snippet", JObject [
               ("title", JString "Second");
               ("thumbnails", JObject [("medium", JObject [("url", JString "m2")])])])]]
  ∧ (youtubeSearch.handler Sample.platform Sample.env
       (Sample.request "POST" (Some "Bearer beta") (Some Sample.queryBody))).1 =
    Normal {| HandlerResponse.statusCode := 200;
              HandlerResponse.headers :=
                <["Content-Type" := "application/json"]> Spec.cors;
              HandlerResponse.body :=
                Sample.stringify
                  (JObject [("results", JArray [
                     JObject [("title", JString "First");
                              ("url", JString "https://www.youtube.com/watch?v=abc123");
                              ("channel", JString "Channel One");
                              ("thumbnails", JObject [("default", JString "d1");
                                                      ("medium", JString "m1");
                                                      ("high", JString "h1")])];
                     JObject [("title", JString "Second");
                              ("url", JString "https://www.youtube.com/watch?v=xyz789");
                              ("channel", JString "");
                              ("thumbnails", JObject [("default", JUndefined);
                                                      ("medium", JString "m2");
                                                      ("high", JUndefined)])]])]) |}.
Proof.
  split; [reflexivity|].
  destruct (C4_one_result_per_item Sample.platform Sample.env
              (Sample.request "POST" (Some "Bearer beta") (Some Sample.queryBody))
              (JObject [("query", JString "cats")]) "cats" "yt-key"
              {| ok := true; status := 200; text := Normal "";
                 json := Normal Sample.twoItems |}
              Sample.twoItems
              eq_refl (Sample_licensed _) eq_refl eq_refl ltac:(discriminate) eq_refl
              ltac:(discriminate) eq_refl eq_refl eq_refl)
    as [Hgood _].
  destruct (Hgood eq_refl) as (items & results & Hsome & Hresponse & Hlength & Hitems).
  injection Hsome as <-.
  destruct results as [|r0 [|r1 [|r2 rest]]]; try discriminate Hlength.
  destruct (Hitems 0 _ eq_refl) as (v0 & Hv0 & _ & Hr0).
  destruct (Hitems 1 _ eq_refl) as (v1 & Hv1 & _ & Hr1).
  injection Hv0 as <-. injection Hv1 as <-.
  injection Hr0 as ->. injection Hr1 as ->.
  exact Hresponse.
Defined.



(** * More of the handlers *)

(** ** Every request follows one path *)

Lemma logged_quiet error context : filter isUpstream (logged error context) = [].
Proof.
  unfold logged. destruct (logError_normal error context) as (t & -> & Ht). done.
Qed.

Lemma logError_logged error context :
  logError (Known error) context = (Normal tt, logged error context).
Proof.
  unfold logged. by destruct (logError_normal error context) as (t & -> & _).
Qed.

Section PathFacts.

Context (P : Platform) (env : gmap string string) (event : HandlerEvent.t).
Context (r : LicenseCheckResult) (t : list Effect).
Context (Hpost : HandlerEvent.httpMethod event = "POST").
Context (Hr : licenseCheck env event = (Normal r, t)).
Context (Hv : valid r = true).

Lemma youtubeSearch_no_properties body :
  JSON_parse P (bodyText event) = Normal body →
  JsValue.member body "query" = None →
  youtubeSearch.handler P env event =
    (Normal (serverError P genericMessage),
     t ++ logged (typeError P "query") "youtubeSearch").
Proof.
  intros Hparse Hmember. unfold youtubeSearch.handler, bodyText in *.
  past_license Hpost Hr Hv.
  rewrite Hparse. unfold JsValue.get. rewrite Hmember.
  unfold_M. rewrite logError_logged. by rewrite ?app_nil_r, <- ?app_assoc.
Qed.

Lemma aiCommand_no_properties body :
  JSON_parse P (bodyText event) = Normal body →
  JsValue.member body "prompt" = None →
  aiCommand.handler P env event =
    (Normal (serverError P genericMessage),
     t ++ logged (typeError P "prompt") "aiCommand").
Proof.
  intros Hparse Hmember. unfold aiCommand.handler, bodyText in *.
  past_license Hpost Hr Hv.
  rewrite Hparse. unfold JsValue.get. rewrite Hmember.
  unfold_M. rewrite logError_logged. by rewrite ?app_nil_r, <- ?app_assoc.
Qed.

(** What youtubeSearch does from the upstream request on. *)
Lemma youtubeSearch_upstream_run body query :
  JSON_parse P (bodyText event) = Normal body →
  JsValue.member body "query" = Some query →
  missingOrInvalid query = false →
  JsString.truthy (env !! "YOUTUBE_API_KEY") = true →
  youtubeSearch.handler P env event =
    match fetch P (searchTarget P env query) with
    | Throw e =>
        (Normal (serverError P genericMessage),
         t ++ Fetch (searchTarget P env query) :: logged e "youtubeSearch")
    | Normal fetched =>
        if ok fetched then
          match json fetched with
          | Normal data =>
              match (youtubeSearch.results P data).1 with
              | Normal results =>
                  (Normal (success P (youtubeSearch.apiResponse results)),
                   t ++ [Fetch (searchTarget P env query)])
              | Throw e =>
                  (Normal (serverError P genericMessage),
                   t ++ Fetch (searchTarget P env query) :: logged e "youtubeSearch")
              end
          | Throw e =>
              (Normal (serverError P genericMessage),
               t ++ Fetch (searchTarget P env query) :: logged e "youtubeSearch")
          end
        else
          match text fetched with
          | Normal errorText =>
              (Normal (serverError P "Failed to search YouTube"),
               t ++ Fetch (searchTarget P env query)
                 :: logged (Primitive ("YouTube API error: "
                                         +:+ pretty (status fetched)
                                         +:+ " " +:+ errorText)) "youtubeSearch")
          | Throw e =>
              (Normal (serverError P genericMessage),
               t ++ Fetch (searchTarget P env query) :: logged e "youtubeSearch")
          end
    end.
Proof.
  intros Hparse Hmember Hgood Hkey. unfold youtubeSearch.handler, bodyText in *.
  past_license Hpost Hr Hv.
  rewrite Hparse. unfold JsValue.get at 1. rewrite Hmember.
  unfold_M. rewrite Hgood, Hkey. cbn [negb]. fold (searchTarget P env query).
  destruct (fetch P (searchTarget P env query)) as [fetched|e].
  - destruct (ok fetched); cbn [negb].
    + destruct (json fetched) as [data|e].
      * pose proof (results_quiet P data) as Hquiet.
        destruct (youtubeSearch.results P data) as [[results|e] t'];
          simpl in Hquiet; subst t'; cbn [fst].
        -- by rewrite ?app_nil_r.
        -- rewrite logError_logged. by rewrite ?app_nil_r, <- ?app_assoc.
      * rewrite logError_logged. by rewrite ?app_nil_r, <- ?app_assoc.
    + destruct (text fetched) as [errorText|e].
      * rewrite logError_logged. by rewrite ?app_nil_r, <- ?app_assoc.
      * rewrite logError_logged. by rewrite ?app_nil_r, <- ?app_assoc.
  - rewrite logError_logged. by rewrite ?app_nil_r, <- ?app_assoc.
Qed.

(** What aiCommand does from the upstream request on. *)
Lemma aiCommand_upstream_run body prompt context :
  JSON_parse P (bodyText event) = Normal body →
  JsValue.member body "prompt" = Some prompt →
  missingOrInvalid prompt = false →
  JsString.truthy (env !! "GEMINI_API_KEY") = true →
  JsValue.member body "context" = Some context →
  aiCommand.handler P env event =
    match generateAnswer P env prompt context with
    | Throw e =>
        (Normal (serverError P genericMessage),
         t ++ generateCall P env prompt context :: logged e "aiCommand")
    | Normal result =>
        match response_text result with
        | Normal text =>
            (Normal (success P (aiCommand.apiResponse text)),
             t ++ [generateCall P env prompt context])
        | Throw e =>
            (Normal (serverError P genericMessage),
             t ++ generateCall P env prompt context :: logged e "aiCommand")
        end
    end.
Proof.
  intros Hparse Hmember Hgood Hkey Hcontext.
  unfold aiCommand.handler, bodyText, generateAnswer, generateCall in *.
  past_license Hpost Hr Hv.
  rewrite Hparse. unfold JsValue.get. rewrite Hmember, Hcontext.
  unfold_M. rewrite Hgood, Hkey. cbn [negb].
  destruct (generateContent P _ _ _) as [result|e].
  - destruct (response_text result) as [text|e].
    + by rewrite ?app_nil_r.
    + rewrite logError_logged. by rewrite ?app_nil_r, <- ?app_assoc.
  - rewrite logError_logged. by rewrite ?app_nil_r, <- ?app_assoc.
Qed.

Lemma youtubeSearch_no_key_run body query :
  JSON_parse P (bodyText event) = Normal body →
  JsValue.member body "query" = Some query →
  missingOrInvalid query = false →
  JsString.truthy (env !! "YOUTUBE_API_KEY") = false →
  youtubeSearch.handler P env event =
    (Normal (serverError P "Server configuration error"),
     t ++ logged (Primitive "YOUTUBE_API_KEY not set in environment variables")
             "youtubeSearch").
Proof.
  intros Hparse Hmember Hgood Hkey. unfold youtubeSearch.handler, bodyText in *.
  past_license Hpost Hr Hv.
  rewrite Hparse. unfold JsValue.get. rewrite Hmember.
  unfold_M. rewrite Hgood, Hkey. cbn [negb]. rewrite logError_logged.
  by rewrite ?app_nil_r.
Qed.

Lemma aiCommand_no_key_run body prompt :
  JSON_parse P (bodyText event) = Normal body →
  JsValue.member body "prompt" = Some prompt →
  missingOrInvalid prompt = false →
  JsString.truthy (env !! "GEMINI_API_KEY") = false →
  aiCommand.handler P env event =
    (Normal (serverError P "Server configuration error"),
     t ++ logged (Primitive "GEMINI_API_KEY not set in environment variables")
             "aiCommand").
Proof.
  intros Hparse Hmember Hgood Hkey. unfold aiCommand.handler, bodyText in *.
  past_license Hpost Hr Hv.
  rewrite Hparse. unfold JsValue.get. rewrite Hmember.
  unfold_M. rewrite Hgood, Hkey. cbn [negb]. rewrite logError_logged.
  by rewrite ?app_nil_r.
Qed.

End PathFacts.

Section PathTheorems.

Context (P : Platform) (env : gmap string string) (event : HandlerEvent.t).

(** The handler ends in a response, along one of the paths. *)
Lemma youtubeSearch_follows_path :
  ∃ resp trace,
    youtubeSearch.handler P env event = (Normal resp, trace)
    ∧ youtubeSearchPath P env event resp trace.
Proof.
  destruct (decide (HandlerEvent.httpMethod event = "OPTIONS")) as [Hoptions|Hoptions].
  { rewrite youtubeSearch_preflight by done. eexists _, _. split; [done|].
    by apply ysPreflight. }
  destruct (decide (HandlerEvent.httpMethod event = "POST")) as [Hpost|Hpost]; cycle 1.
  { rewrite youtubeSearch_method_gate by done. eexists _, _. split; [done|].
    by apply ysMethodNotAllowed. }
  destruct (validateLicense_normal env (extractToken (authHeader event)))
    as (r & t & Hr & _).
  fold (licenseCheck env event) in Hr.
  destruct (valid r) eqn:Hv; cycle 1.
  { rewrite (youtubeSearch_unlicensed P env event r t) by done.
    eexists _, _. split; [done|]. by apply ysUnauthorized. }
  assert (passesGuard env event t) as Hguard by (split; [done | by exists r]).
  destruct (JSON_parse P (bodyText event)) as [body|e] eqn:Hparse; cycle 1.
  { rewrite (youtubeSearch_invalid_json P env event r t Hpost Hr Hv e Hparse).
    eexists _, _. split; [done|]. by eapply ysInvalidJson. }
  destruct (JsValue.member body "query") as [query|] eqn:Hmember; cycle 1.
  { rewrite (youtubeSearch_no_properties P env event r t Hpost Hr Hv body) by done.
    eexists _, _. split; [done|]. by eapply ysNoProperties. }
  destruct (missingOrInvalid query) eqn:Hfield.
  { rewrite (youtubeSearch_bad_query P env event r t Hpost Hr Hv body query) by done.
    eexists _, _. split; [done|]. by eapply ysInvalidQuery. }
  destruct (JsString.truthy (env !! "YOUTUBE_API_KEY")) eqn:Hkey; cycle 1.
  { rewrite (youtubeSearch_no_key_run P env event r t Hpost Hr Hv body query) by done.
    eexists _, _. split; [done|]. by eapply ysNoKey. }
  rewrite (youtubeSearch_upstream_run P env event r t Hpost Hr Hv body query) by done.
  destruct (fetch P (searchTarget P env query)) as [fetched|e] eqn:Hfetch; cycle 1.
  { eexists _, _. split; [done|]. by eapply ysFetchRejected. }
  destruct (ok fetched) eqn:Hok.
  - destruct (json fetched) as [data|e] eqn:Hjson.
    + pose proof (results_quiet P data) as Hquiet.
      destruct (youtubeSearch.results P data) as [[results|e] t'] eqn:Hresults;
        simpl in Hquiet; subst t'; cbn [fst].
      * eexists _, _. split; [done|]. by eapply ysSuccess.
      * eexists _, _. split; [done|]. by eapply ysMappingThrew.
    + eexists _, _. split; [done|]. by eapply ysJsonRejected.
  - destruct (text fetched) as [errorText|e] eqn:Htext.
    + eexists _, _. split; [done|]. by eapply ysUpstreamFailed.
    + eexists _, _. split; [done|]. by eapply ysTextRejected.
Qed.

Lemma aiCommand_follows_path :
  ∃ resp trace,
    aiCommand.handler P env event = (Normal resp, trace)
    ∧ aiCommandPath P env event resp trace.
Proof.
  destruct (decide (HandlerEvent.httpMethod event = "OPTIONS")) as [Hoptions|Hoptions].
  { rewrite aiCommand_preflight by done. eexists _, _. split; [done|].
    by apply acPreflight. }
  destruct (decide (HandlerEvent.httpMethod event = "POST")) as [Hpost|Hpost]; cycle 1.
  { rewrite aiCommand_method_gate by done. eexists _, _. split; [done|].
    by apply acMethodNotAllowed. }
  destruct (validateLicense_normal env (extractToken (authHeader event)))
    as (r & t & Hr & _).
  fold (licenseCheck env event) in Hr.
  destruct (valid r) eqn:Hv; cycle 1.
  { rewrite (aiCommand_unlicensed P env event r t) by done.
    eexists _, _. split; [done|]. by apply acUnauthorized. }
  assert (passesGuard env event t) as Hguard by (split; [done | by exists r]).
  destruct (JSON_parse P (bodyText event)) as [body|e] eqn:Hparse; cycle 1.
  { rewrite (aiCommand_invalid_json P env event r t Hpost Hr Hv e Hparse).
    eexists _, _. split; [done|]. by eapply acInvalidJson. }
  destruct (JsValue.member body "prompt") as [prompt|] eqn:Hmember; cycle 1.
  { rewrite (aiCommand_no_properties P env event r t Hpost Hr Hv body) by done.
    eexists _, _. split; [done|]. by eapply acNoProperties. }
  destruct (missingOrInvalid prompt) eqn:Hfield.
  { rewrite (aiCommand_bad_prompt P env event r t Hpost Hr Hv body prompt) by done.
    eexists _, _. split; [done|]. by eapply acInvalidPrompt. }
  destruct (JsString.truthy (env !! "GEMINI_API_KEY")) eqn:Hkey; cycle 1.
  { rewrite (aiCommand_no_key_run P env event r t Hpost Hr Hv body prompt) by done.
    eexists _, _. split; [done|]. by eapply acNoKey. }
  assert (∃ context, JsValue.member body "context" = Some context) as [context Hcontext].
  { destruct body; try done; by eexists. }
  rewrite (aiCommand_upstream_run P env event r t Hpost Hr Hv body prompt context)
    by done.
  destruct (generateAnswer P env prompt context) as [result|e] eqn:Hanswer; cycle 1.
  { eexists _, _. split; [done|]. by eapply acGenerateRejected. }
  destruct (response_text result) as [text|e] eqn:Htext.
  - eexists _, _. split; [done|]. by eapply acSuccess.
  - eexists _, _. split; [done|]. by eapply acTextRejected.
Qed.

End PathTheorems.

(** ** More of the license guard *)

(** A failed check carries one of the two reasons and performs no effect. *)
Lemma validateLicense_invalid env token r t :
  validateLicense env token = (Normal r, t) →
  valid r = false →
  t = [] ∧ (r = missingToken ∨ r = invalidToken).
Proof.
  intros Hcheck Hvalid. destruct (JsString.truthy token) eqn:Htoken.
  - rewrite validateLicense_present in Hcheck by done.
    destruct (_ && _); [by injection Hcheck as <- <-|].
    destruct (includes _ _); injection Hcheck as <- <-; [done|]. split; [done|by right].
  - rewrite validateLicense_missing in Hcheck by done.
    injection Hcheck as <- <-. split; [done|by left].
Qed.

(** Every entry of the whitelist is trimmed and holds no comma. *)
Lemma whitelist_entry env entry :
  entry ∈ whitelist env →
  JsString.trim entry = entry ∧ JsString.mem ","%char entry = false.
Proof.
  unfold whitelist. destruct (env !! "LICENSE_TOKENS") as [tokens|];
    [|by intros ?%elem_of_nil].
  intros (raw & -> & Hraw)%list_elem_of_fmap. split.
  - apply trim_idempotent.
  - apply mem_trim. by eapply split_no_sep.
Qed.

(** X1: extractToken finds a token in a header exactly when the header is
    'Bearer ', then the token, and the token holds no space: what it
    returns is the header without its first seven code units, and a token
    with a space in it can never be presented. *)
Theorem X1_extractToken_bearer_round_trip (header token : string) :
  extractToken (Some header) = Some token ↔
  header = "Bearer " +:+ token ∧ JsString.mem " "%char token = false.
Proof. apply extractToken_Bearer. Qed.

(** X2: a POST request from which no token is extracted (no header, a
    header of another shape, or an empty second part) is answered 401 with
    'Missing authorization token' by both handlers, in every configuration
    and whatever its body, and nothing is logged or called. *)
Theorem X2_missing_token_unauthorized (P : Platform) (env : gmap string string)
    (event : HandlerEvent.t) :
  HandlerEvent.httpMethod event = "POST" →
  JsString.truthy (extractToken (authHeader event)) = false →
  youtubeSearch.handler P env event
    = (Normal (unauthorized P "Missing authorization token"), [])
  ∧ aiCommand.handler P env event
    = (Normal (unauthorized P "Missing authorization token"), []).
Proof.
  intros Hpost Htoken.
  pose proof (validateLicense_missing env _ Htoken) as Hcheck.
  split.
  - by rewrite (youtubeSearch_unlicensed P env event _ _ Hpost Hcheck).
  - by rewrite (aiCommand_unlicensed P env event _ _ Hpost Hcheck).
Qed.

Lemma X2_missing_token_unauthorized_witness :
  youtubeSearch.handler Sample.platform Sample.devEnv
    (Sample.request "POST" (Some "Basic dXNlcg==") (Some Sample.queryBody))
    = (Normal (unauthorized Sample.platform "Missing authorization token"), [])
  ∧ aiCommand.handler Sample.platform Sample.devEnv
      (Sample.request "POST" (Some "Basic dXNlcg==") (Some Sample.queryBody))
    = (Normal (unauthorized Sample.platform "Missing authorization token"), []).
Proof.
  apply (X2_missing_token_unauthorized Sample.platform Sample.devEnv
           (Sample.request "POST" (Some "Basic dXNlcg==") (Some Sample.queryBody)));
    reflexivity.
Defined.

(** X3: outside the development bypass, a POST request whose token is
    present and not in the whitelist is answered 401 with 'Invalid license
    token' by both handlers, whatever its body and the keys configured, and
    nothing is logged or called. *)
Theorem X3_unknown_token_unauthorized (P : Platform) (env : gmap string string)
    (event : HandlerEvent.t) (token : string) :
  HandlerEvent.httpMethod event = "POST" →
  extractToken (authHeader event) = Some token →
  token ≠ EmptyString →
  whitelist env ≠ [] ∨ developmentMode env = false →
  token ∉ whitelist env →
  youtubeSearch.handler P env event
    = (Normal (unauthorized P "Invalid license token"), [])
  ∧ aiCommand.handler P env event
    = (Normal (unauthorized P "Invalid license token"), []).
Proof.
  intros Hpost Hheader Htoken Hmode Hout.
  assert (licenseCheck env event = (Normal invalidToken, [])) as Hcheck.
  { unfold licenseCheck. rewrite Hheader, validateLicense_membership by done.
    destruct (includes _ _) eqn:Hin; [|done]. by apply includes_elem_of in Hin. }
  split.
  - by rewrite (youtubeSearch_unlicensed P env event _ _ Hpost Hcheck).
  - by rewrite (aiCommand_unlicensed P env event _ _ Hpost Hcheck).
Qed.

Lemma X3_unknown_token_unauthorized_witness :
  youtubeSearch.handler Sample.platform Sample.env
    (Sample.request "POST" (Some "Bearer gamma") (Some "{not json"))
    = (Normal (unauthorized Sample.platform "Invalid license token"), [])
  ∧ aiCommand.handler Sample.platform Sample.env
      (Sample.request "POST" (Some "Bearer gamma") (Some "{not json"))
    = (Normal (unauthorized Sample.platform "Invalid license token"), []).
Proof.
  apply (X3_unknown_token_unauthorized Sample.platform Sample.env
           (Sample.request "POST" (Some "Bearer gamma") (Some "{not json")) "gamma");
    [reflexivity | reflexivity | done | by left | ].
  intros Hin. apply includes_elem_of in Hin. discriminate Hin.
Defined.

(** X4: with LICENSE_TOKENS unset and NODE_ENV other than development the
    guard is closed: validateLicense accepts no token, and both handlers
    answer every POST request 401. *)
Theorem X4_closed_without_whitelist (P : Platform) (env : gmap string string) :
  env !! "LICENSE_TOKENS" = None →
  developmentMode env = false →
  (∀ token, returns (λ r, valid r = false) (validateLicense env token))
  ∧ ∀ event,
      HandlerEvent.httpMethod event = "POST" →
      statusOf (youtubeSearch.handler P env event) = Some 401%N
      ∧ statusOf (aiCommand.handler P env event) = Some 401%N.
Proof.
  intros Hunset Hmode.
  assert (∀ token, ∃ r, validateLicense env token = (Normal r, [])
                        ∧ valid r = false) as Hclosed.
  { intros token. destruct (JsString.truthy token) eqn:Htoken.
    - exists invalidToken. split; [|done].
      rewrite validateLicense_present, Hmode, andb_false_r by done.
      apply whitelist_nil in Hunset. rewrite Hunset.
      by destruct token.
    - exists missingToken. split; [|done]. by apply validateLicense_missing. }
  split.
  - intros token. destruct (Hclosed token) as (r & Hr & Hv). by exists r, [].
  - intros event Hpost.
    destruct (Hclosed (extractToken (authHeader event))) as (r & Hr & Hv).
    unfold statusOf.
    rewrite (youtubeSearch_unlicensed P env event _ _ Hpost Hr Hv).
    by rewrite (aiCommand_unlicensed P env event _ _ Hpost Hr Hv).
Qed.

Lemma X4_closed_without_whitelist_witness :
  Outage.noTokens !! "LICENSE_TOKENS" = None
  ∧ developmentMode Outage.noTokens = false
  ∧ statusOf (youtubeSearch.handler Sample.platform Outage.noTokens
                (Sample.request "POST" (Some "Bearer alpha") (Some Sample.queryBody)))
    = Some 401%N.
Proof.
  split; [reflexivity|]. split; [reflexivity|].
  apply (X4_closed_without_whitelist Sample.platform Outage.noTokens);
    reflexivity.
Defined.

(** X5: when LICENSE_TOKENS is set, the parsed whitelist has one entry more
    than the variable has commas, and every entry is trimmed (trimming it
    again changes nothing) and holds no comma; white space around the
    commas of the variable is ignored. *)
Theorem X5_whitelist_entries (env : gmap string string) (tokens : string) :
  env !! "LICENSE_TOKENS" = Some tokens →
  length (whitelist env) = S (occurrences ","%char tokens)
  ∧ ∀ entry, entry ∈ whitelist env →
             JsString.trim entry = entry ∧ JsString.mem ","%char entry = false.
Proof.
  intros Hset. split; [|apply whitelist_entry].
  unfold whitelist. rewrite Hset. by rewrite length_fmap, length_split.
Qed.

Lemma X5_whitelist_entries_witness :
  Sample.env !! "LICENSE_TOKENS" = Some "alpha, beta"
  ∧ length (whitelist Sample.env) = 2.
Proof.
  split; [reflexivity|].
  apply (X5_whitelist_entries Sample.env "alpha, beta"). reflexivity.
Defined.

(** X6: outside the development bypass, a POST request passes the license
    guard only with a header 'Bearer ' followed by a token that is not
    empty, holds no space and no comma, has no white space at its ends and
    is an entry of the whitelist. *)
Theorem X6_what_passes_the_guard (env : gmap string string) (event : HandlerEvent.t) :
  licensed env event →
  whitelist env ≠ [] ∨ developmentMode env = false →
  ∃ token,
    authHeader event = Some ("Bearer " +:+ token)
    ∧ token ≠ EmptyString
    ∧ JsString.mem " "%char token = false
    ∧ JsString.mem ","%char token = false
    ∧ JsString.trim token = token
    ∧ token ∈ whitelist env.
Proof.
  intros (r & t & Hr & Hv) Hmode. unfold licenseCheck in Hr.
  destruct (JsString.truthy (extractToken (authHeader event))) eqn:Htruthy; cycle 1.
  { rewrite validateLicense_missing in Hr by done. by injection Hr as <- _. }
  destruct (extractToken (authHeader event)) as [token|] eqn:Hextract; [|done].
  apply truthy_Some in Htruthy.
  rewrite validateLicense_membership in Hr by done.
  destruct (includes (whitelist env) (Some token)) eqn:Hin;
    [|by injection Hr as <- _].
  apply includes_elem_of in Hin.
  destruct (authHeader event) as [header|] eqn:Hheader; [|done].
  apply extractToken_Bearer in Hextract as [-> Hspace].
  destruct (whitelist_entry env token Hin) as [Htrim Hcomma].
  by exists token.
Qed.

Lemma X6_what_passes_the_guard_witness :
  ∃ token,
    authHeader (Sample.request "POST" (Some "Bearer beta") None)
      = Some ("Bearer " +:+ token)
    ∧ token ≠ EmptyString
    ∧ JsString.mem " "%char token = false
    ∧ JsString.mem ","%char token = false
    ∧ JsString.trim token = token
    ∧ token ∈ whitelist Sample.env.
Proof.
  apply (X6_what_passes_the_guard Sample.env
           (Sample.request "POST" (Some "Bearer beta") None)
           (Sample_licensed None)).
  by left.
Defined.

(** ** What the handlers read of the configuration *)

Lemma validateLicense_same_configuration env env' token :
  env !! "LICENSE_TOKENS" = env' !! "LICENSE_TOKENS" →
  env !! "NODE_ENV" = env' !! "NODE_ENV" →
  validateLicense env token = validateLicense env' token.
Proof.
  intros Htokens Hmode. unfold validateLicense, whitelist, developmentMode.
  by rewrite Htokens, Hmode.
Qed.

(** Once LICENSE_TOKENS is set, NODE_ENV is not looked at. *)
Lemma validateLicense_mode_irrelevant env env' token :
  env !! "LICENSE_TOKENS" = env' !! "LICENSE_TOKENS" →
  is_Some (env !! "LICENSE_TOKENS") →
  validateLicense env token = validateLicense env' token.
Proof.
  intros Htokens [tokens Hset].
  assert (whitelist env = whitelist env') as Hlist
    by (unfold whitelist; by rewrite <- Htokens).
  assert ((length (whitelist env) =? 0) = false) as Hlen.
  { apply Nat.eqb_neq. intros Hlen%length_zero_iff_nil%whitelist_nil. congruence. }
  unfold validateLicense. rewrite <- Hlist, Hlen. done.
Qed.

Lemma youtubeSearch_ext P env env' event :
  licenseCheck env event = licenseCheck env' event →
  env !! "YOUTUBE_API_KEY" = env' !! "YOUTUBE_API_KEY" →
  youtubeSearch.handler P env event = youtubeSearch.handler P env' event.
Proof.
  unfold licenseCheck. intros Hcheck Hkey. unfold youtubeSearch.handler.
  by rewrite Hcheck, Hkey.
Qed.

Lemma aiCommand_ext P env env' event :
  licenseCheck env event = licenseCheck env' event →
  env !! "GEMINI_API_KEY" = env' !! "GEMINI_API_KEY" →
  aiCommand.handler P env event = aiCommand.handler P env' event.
Proof.
  unfold licenseCheck. intros Hcheck Hkey. unfold aiCommand.handler.
  by rewrite Hcheck, Hkey.
Qed.

(** X7: of the configuration, youtubeSearch reads LICENSE_TOKENS, NODE_ENV
    and YOUTUBE_API_KEY only, and aiCommand reads LICENSE_TOKENS, NODE_ENV
    and GEMINI_API_KEY only: two configurations that agree on these give
    the same response and the same effects for every request. *)
Theorem X7_configuration_read (P : Platform) (env env' : gmap string string)
    (event : HandlerEvent.t) :
  (sameConfiguration "YOUTUBE_API_KEY" env env' →
     youtubeSearch.handler P env event = youtubeSearch.handler P env' event)
  ∧ (sameConfiguration "GEMINI_API_KEY" env env' →
     aiCommand.handler P env event = aiCommand.handler P env' event).
Proof.
  split; intros (Htokens & Hmode & Hkey).
  - apply youtubeSearch_ext; [|done]. by apply validateLicense_same_configuration.
  - apply aiCommand_ext; [|done]. by apply validateLicense_same_configuration.
Qed.

Lemma X7_configuration_read_witness :
  youtubeSearch.handler Sample.platform Sample.env
    (Sample.request "POST" (Some "Bearer beta") (Some Sample.queryBody))
  = youtubeSearch.handler Sample.platform
      (<["YOUTUBE_API_KEY" := "yt-key"]> Outage.noKeys)
      (Sample.request "POST" (Some "Bearer beta") (Some Sample.queryBody)).
Proof.
  apply (X7_configuration_read Sample.platform Sample.env
           (<["YOUTUBE_API_KEY" := "yt-key"]> Outage.noKeys)).
  repeat split; reflexivity.
Defined.

(** X8: once LICENSE_TOKENS is set, to any value, NODE_ENV has no
    influence: two configurations with the same LICENSE_TOKENS and the same
    key give the same response and the same effects for every request,
    whatever NODE_ENV is in each. *)
Theorem X8_mode_irrelevant_with_whitelist (P : Platform)
    (env env' : gmap string string) (event : HandlerEvent.t) :
  is_Some (env !! "LICENSE_TOKENS") →
  env !! "LICENSE_TOKENS" = env' !! "LICENSE_TOKENS" →
  (env !! "YOUTUBE_API_KEY" = env' !! "YOUTUBE_API_KEY" →
     youtubeSearch.handler P env event = youtubeSearch.handler P env' event)
  ∧ (env !! "GEMINI_API_KEY" = env' !! "GEMINI_API_KEY" →
     aiCommand.handler P env event = aiCommand.handler P env' event).
Proof.
  intros Hset Htokens. split; intros Hkey.
  - apply youtubeSearch_ext; [|done]. by apply validateLicense_mode_irrelevant.
  - apply aiCommand_ext; [|done]. by apply validateLicense_mode_irrelevant.
Qed.

Lemma X8_mode_irrelevant_with_whitelist_witness :
  is_Some (Sample.env !! "LICENSE_TOKENS")
  ∧ youtubeSearch.handler Sample.platform Sample.env
      (Sample.request "POST" (Some "Bearer gamma") (Some Sample.queryBody))
    = youtubeSearch.handler Sample.platform (<["NODE_ENV" := "development"]> Sample.env)
        (Sample.request "POST" (Some "Bearer gamma") (Some Sample.queryBody)).
Proof.
  split; [by eexists|].
  apply (X8_mode_irrelevant_with_whitelist Sample.platform Sample.env
           (<["NODE_ENV" := "development"]> Sample.env));
    [by eexists | reflexivity | reflexivity].
Defined.

(** X9: validateLicense writes to the console exactly when it lets a token
    through by the development bypass: a token is present, LICENSE_TOKENS
    is unset and NODE_ENV is development; what it writes then is the one
    warning, and in every other case it performs no effect. *)
Theorem X9_warning_marks_the_bypass (env : gmap string string) (token : option string) :
  ((validateLicense env token).2 ≠ [] ↔
     JsString.truthy token = true
     ∧ env !! "LICENSE_TOKENS" = None
     ∧ env !! "NODE_ENV" = Some "development")
  ∧ ((validateLicense env token).2 = []
     ∨ validateLicense env token =
         (Normal validToken,
          [ConsoleWarn ["No LICENSE_TOKENS set - allowing all requests in development"]])).
Proof.
  destruct (JsString.truthy token) eqn:Htoken; cycle 1.
  { rewrite validateLicense_missing by done. split; [|by left].
    split; [done | by intros [? _]]. }
  rewrite validateLicense_present by done.
  destruct (length (whitelist env) =? 0) eqn:Hlen; simpl.
  - apply whitelist_length_zero in Hlen.
    destruct (developmentMode env) eqn:Hmode.
    + apply bool_decide_eq_true in Hmode. split; [|by right]. by split.
    + apply bool_decide_eq_false in Hmode. split.
      * destruct (includes _ _); (split; [done | by intros (_ & _ & ?)]).
      * left. by destruct (includes _ _).
  - split.
    + destruct (includes _ _); (split; [done|]); intros (_ & Hunset & _);
        apply whitelist_length_zero in Hunset; congruence.
    + left. by destruct (includes _ _).
Qed.

(** X10: a 401 of either handler carries one of the two reasons of
    validateLicense, 'Missing authorization token' or 'Invalid license
    token' (the fallback 'Invalid license' is never sent), and a request
    answered 401 has caused no effect: no log entry and no upstream call. *)
Theorem X10_unauthorized_responses (P : Platform) (env : gmap string string)
    (event : HandlerEvent.t) (resp : HandlerResponse.t) (trace : list Effect) :
  youtubeSearch.handler P env event = (Normal resp, trace)
  ∨ aiCommand.handler P env event = (Normal resp, trace) →
  HandlerResponse.statusCode resp = 401%N →
  trace = []
  ∧ (resp = unauthorized P "Missing authorization token"
     ∨ resp = unauthorized P "Invalid license token").
Proof.
  assert (∀ r t, licenseCheck env event = (Normal r, t) → valid r = false →
            t = [] ∧ (unauthorized P (JsString.orLit (reason r) "Invalid license")
                        = unauthorized P "Missing authorization token"
                      ∨ unauthorized P (JsString.orLit (reason r) "Invalid license")
                        = unauthorized P "Invalid license token")) as Hreason.
  { intros r t Hr Hv. destruct (validateLicense_invalid _ _ _ _ Hr Hv) as [-> [-> | ->]].
    - split; [done | by left].
    - split; [done | by right]. }
  intros [Hrun | Hrun] Hstatus.
  - destruct (youtubeSearch_follows_path P env event) as (resp' & trace' & Hrun' & Hpath).
    rewrite Hrun in Hrun'. injection Hrun' as <- <-.
    destruct Hpath; try discriminate Hstatus. by eapply Hreason.
  - destruct (aiCommand_follows_path P env event) as (resp' & trace' & Hrun' & Hpath).
    rewrite Hrun in Hrun'. injection Hrun' as <- <-.
    destruct Hpath; try discriminate Hstatus. by eapply Hreason.
Qed.

Lemma X10_unauthorized_responses_witness :
  ([] : list Effect) = []
  ∧ (unauthorized Sample.platform "Invalid license token"
       = unauthorized Sample.platform "Missing authorization token"
     ∨ unauthorized Sample.platform "Invalid license token"
       = unauthorized Sample.platform "Invalid license token").
Proof.
  apply (X10_unauthorized_responses Sample.platform Sample.env
           (Sample.request "POST" (Some "Bearer gamma") (Some Sample.queryBody))
           (unauthorized Sample.platform "Invalid license token") []);
    [left; reflexivity | reflexivity].
Defined.

(** ** Status codes, responses and upstream calls along the paths *)

Lemma quiet_app t t' :
  filter isUpstream t = [] → filter isUpstream t' = [] →
  filter isUpstream (t ++ t') = [].
Proof. intros Ht Ht'. by rewrite filter_app, Ht, Ht'. Qed.

Lemma one_call t e rest :
  filter isUpstream t = [] → isUpstream e = true → filter isUpstream rest = [] →
  filter isUpstream (t ++ e :: rest) = [e].
Proof.
  intros Ht He Hrest. rewrite filter_app, Ht. simpl.
  rewrite filter_cons_True by (by rewrite He). by rewrite Hrest.
Qed.

Lemma passesGuard_quiet env event t :
  passesGuard env event t → filter isUpstream t = [].
Proof. intros (_ & r & Hr & _). by eapply validateLicense_quiet. Qed.

Lemma passesGuard_licensed env event t : passesGuard env event t → licensed env event.
Proof. intros (_ & r & Hr & Hv). by exists r, t. Qed.

Lemma licensed_passesGuard env event :
  HandlerEvent.httpMethod event = "POST" → licensed env event →
  ∃ t, passesGuard env event t.
Proof. intros Hpost (r & t & Hr & Hv). exists t. split; [done | by exists r]. Qed.

(** The request parameters of the video search. *)
Lemma searchTarget_parameters P env query :
  searchTarget P env query =
    URL_toString P
      {| href := "https://www.googleapis.com/youtube/v3/search";
         searchParams := [("part", "snippet"); ("q", JsValue.asString query);
                          ("type", "video"); ("maxResults", "10");
                          ("key", JsString.value (env !! "YOUTUBE_API_KEY"))] |}.
Proof. reflexivity. Qed.

Section RunFacts.

Context (P : Platform) (env : gmap string string) (event : HandlerEvent.t).

Lemma youtubeSearch_path_of_run resp trace :
  youtubeSearch.handler P env event = (Normal resp, trace) →
  youtubeSearchPath P env event resp trace.
Proof.
  intros Hrun.
  destruct (youtubeSearch_follows_path P env event) as (resp' & trace' & Hrun' & Hpath).
  rewrite Hrun in Hrun'. by injection Hrun' as <- <-.
Qed.

Lemma aiCommand_path_of_run resp trace :
  aiCommand.handler P env event = (Normal resp, trace) →
  aiCommandPath P env event resp trace.
Proof.
  intros Hrun.
  destruct (aiCommand_follows_path P env event) as (resp' & trace' & Hrun' & Hpath).
  rewrite Hrun in Hrun'. by injection Hrun' as <- <-.
Qed.

Lemma statusOf_run (m : M HandlerResponse.t) resp trace code :
  m = (Normal resp, trace) →
  statusOf m = Some code ↔ HandlerResponse.statusCode resp = code.
Proof. intros ->. unfold statusOf. simpl. split; [by intros [= ->] | by intros ->]. Qed.

Lemma unlicensed_invalid r t :
  licenseCheck env event = (Normal r, t) → valid r = false → ¬ licensed env event.
Proof. intros Hr Hv (r' & t' & Hr' & Hv'). congruence. Qed.

Lemma not_licensed_invalid :
  ¬ licensed env event →
  ∃ r t, licenseCheck env event = (Normal r, t) ∧ valid r = false.
Proof.
  intros Hnot.
  destruct (validateLicense_normal env (extractToken (authHeader event)))
    as (r & t & Hr & _).
  exists r, t. split; [done|]. destruct (valid r) eqn:Hv; [|done].
  exfalso. apply Hnot. by exists r, t.
Qed.

End RunFacts.

(** Membership in a list that is written out. *)
Ltac in_list :=
  repeat first [ apply list_elem_of_here | apply list_elem_of_further ].

(** Take the path of a run apart, keeping the cases with the status in
    hand. *)
Ltac by_path Hpath Hstatus :=
  destruct Hpath; try discriminate Hstatus.

(** X11: the status of a response of either handler is 200, 400, 401, 405
    or 500; it is 405 exactly when the method is neither OPTIONS nor POST,
    and 401 exactly when the method is POST and the license check fails. *)
Theorem X11_status_codes (P : Platform) (env : gmap string string)
    (event : HandlerEvent.t) :
  let gate (m : M HandlerResponse.t) :=
    (∃ code, statusOf m = Some code ∧ code ∈ [200; 400; 401; 405; 500]%N)
    ∧ (statusOf m = Some 405%N ↔
         HandlerEvent.httpMethod event ≠ "OPTIONS"
         ∧ HandlerEvent.httpMethod event ≠ "POST")
    ∧ (statusOf m = Some 401%N ↔
         HandlerEvent.httpMethod event = "POST" ∧ ¬ licensed env event) in
  gate (youtubeSearch.handler P env event) ∧ gate (aiCommand.handler P env event).
Proof.
  intros gate. unfold gate. split.
  - destruct (youtubeSearch_follows_path P env event) as (resp & trace & Hrun & Hpath).
    rewrite !(statusOf_run _ _ _ _ Hrun). split; [|split].
    + eexists. split; [by apply (statusOf_run _ _ _ _ Hrun)|].
      destruct Hpath; cbn; in_list.
    + split.
      * intros Hstatus. by_path Hpath Hstatus. done.
      * intros [Hoptions Hpost].
        pose proof (youtubeSearch_method_gate P env event Hpost Hoptions) as Hgate.
        rewrite Hrun in Hgate. by injection Hgate as -> _.
    + split.
      * intros Hstatus. by_path Hpath Hstatus. split; [done|].
        by eapply unlicensed_invalid.
      * intros [Hpost (r & t & Hr & Hv)%not_licensed_invalid].
        pose proof (youtubeSearch_unlicensed P env event r t Hpost Hr Hv) as Hgate.
        rewrite Hrun in Hgate. by injection Hgate as -> _.
  - destruct (aiCommand_follows_path P env event) as (resp & trace & Hrun & Hpath).
    rewrite !(statusOf_run _ _ _ _ Hrun). split; [|split].
    + eexists. split; [by apply (statusOf_run _ _ _ _ Hrun)|].
      destruct Hpath; cbn; in_list.
    + split.
      * intros Hstatus. by_path Hpath Hstatus. done.
      * intros [Hoptions Hpost].
        pose proof (aiCommand_method_gate P env event Hpost Hoptions) as Hgate.
        rewrite Hrun in Hgate. by injection Hgate as -> _.
    + split.
      * intros Hstatus. by_path Hpath Hstatus. split; [done|].
        by eapply unlicensed_invalid.
      * intros [Hpost (r & t & Hr & Hv)%not_licensed_invalid].
        pose proof (aiCommand_unlicensed P env event r t Hpost Hr Hv) as Hgate.
        rewrite Hrun in Hgate. by injection Hgate as -> _.
Qed.

(** X12: either handler answers 400 exactly when the request is a POST that
    passed the license guard and whose body text ([event.body], or '{}'
    for an absent or empty one) is not JSON, or parses to a value with
    properties whose required field is absent, not a string, or an empty or
    white-space-only string. *)
Theorem X12_bad_request_exactly (P : Platform) (env : gmap string string)
    (event : HandlerEvent.t) :
  let rejects (field : string) :=
    ∃ t, passesGuard env event t
         ∧ ((∃ e, JSON_parse P (bodyText event) = Throw e)
            ∨ ∃ body v, JSON_parse P (bodyText event) = Normal body
                        ∧ JsValue.member body field = Some v
                        ∧ Spec.absentOrBlank v) in
  (statusOf (youtubeSearch.handler P env event) = Some 400%N ↔ rejects "query")
  ∧ (statusOf (aiCommand.handler P env event) = Some 400%N ↔ rejects "prompt").
Proof.
  intros rejects. unfold rejects. split.
  - destruct (youtubeSearch_follows_path P env event) as (resp & trace & Hrun & Hpath).
    rewrite (statusOf_run _ _ _ _ Hrun). split.
    + intros Hstatus. by_path Hpath Hstatus.
      * exists t. split; [done|]. left. by exists e.
      * exists t. split; [done|]. right. exists body, query.
        by rewrite <- missingOrInvalid_spec.
    + intros (t & (Hpost & r & Hr & Hv) & Hcause).
      destruct Hcause as [[e Hparse] | (body & v & Hparse & Hmember & Hbad)].
      * pose proof (youtubeSearch_invalid_json P env event r t Hpost Hr Hv e Hparse)
          as Hgate. rewrite Hrun in Hgate. by injection Hgate as -> _.
      * apply missingOrInvalid_spec in Hbad.
        pose proof (youtubeSearch_bad_query P env event r t Hpost Hr Hv body v
                      Hparse Hmember Hbad) as Hgate.
        rewrite Hrun in Hgate. by injection Hgate as -> _.
  - destruct (aiCommand_follows_path P env event) as (resp & trace & Hrun & Hpath).
    rewrite (statusOf_run _ _ _ _ Hrun). split.
    + intros Hstatus. by_path Hpath Hstatus.
      * exists t. split; [done|]. left. by exists e.
      * exists t. split; [done|]. right. exists body, prompt.
        by rewrite <- missingOrInvalid_spec.
    + intros (t & (Hpost & r & Hr & Hv) & Hcause).
      destruct Hcause as [[e Hparse] | (body & v & Hparse & Hmember & Hbad)].
      * pose proof (aiCommand_invalid_json P env event r t Hpost Hr Hv e Hparse)
          as Hgate. rewrite Hrun in Hgate. by injection Hgate as -> _.
      * apply missingOrInvalid_spec in Hbad.
        pose proof (aiCommand_bad_prompt P env event r t Hpost Hr Hv body v
                      Hparse Hmember Hbad) as Hgate.
        rewrite Hrun in Hgate. by injection Hgate as -> _.
Qed.

(** X13: youtubeSearch answers 200 exactly on an OPTIONS request and on a
    POST request that passed the license guard, carried a valid query, found
    the key configured and got from the video search a response that is ok,
    whose JSON could be read and can be transformed: the payload is not
    null, its items are absent or an array, no item is null and the video
    id of every item has a string form. aiCommand answers 200 exactly on an
    OPTIONS request and on such a POST request with a valid prompt to which
    the generative-text service answered with a text. *)
Theorem X13_success_exactly (P : Platform) (env : gmap string string)
    (event : HandlerEvent.t) :
  (statusOf (youtubeSearch.handler P env event) = Some 200%N ↔
     HandlerEvent.httpMethod event = "OPTIONS"
     ∨ ∃ t body query fetched data,
         passesGuard env event t
         ∧ JSON_parse P (bodyText event) = Normal body
         ∧ JsValue.member body "query" = Some query
         ∧ missingOrInvalid query = false
         ∧ JsString.truthy (env !! "YOUTUBE_API_KEY") = true
         ∧ fetch P (searchTarget P env query) = Normal fetched
         ∧ ok fetched = true
         ∧ json fetched = Normal data
         ∧ Spec.mappable data = true)
  ∧ (statusOf (aiCommand.handler P env event) = Some 200%N ↔
     HandlerEvent.httpMethod event = "OPTIONS"
     ∨ ∃ t body prompt context result text,
         passesGuard env event t
         ∧ JSON_parse P (bodyText event) = Normal body
         ∧ JsValue.member body "prompt" = Some prompt
         ∧ missingOrInvalid prompt = false
         ∧ JsString.truthy (env !! "GEMINI_API_KEY") = true
         ∧ JsValue.member body "context" = Some context
         ∧ generateAnswer P env prompt context = Normal result
         ∧ response_text result = Normal text).
Proof.
  split.
  - destruct (youtubeSearch_follows_path P env event) as (resp & trace & Hrun & Hpath).
    rewrite (statusOf_run _ _ _ _ Hrun). split.
    + intros Hstatus. by_path Hpath Hstatus; [by left|].
      right. exists t, body, query, fetched, data. do 8 (split; [done|]).
      apply (results_mappable P). by eexists.
    + intros [Hoptions | (t & body & query & fetched & data & (Hpost & r & Hr & Hv)
                          & Hparse & Hmember & Hfield & Hkey & Hfetch & Hok & Hjson
                          & Hmappable)].
      * pose proof (youtubeSearch_preflight P env event Hoptions) as Hgate.
        rewrite Hrun in Hgate. by injection Hgate as -> _.
      * apply (results_mappable P) in Hmappable as [results Hresults].
        pose proof (youtubeSearch_upstream_run P env event r t Hpost Hr Hv body query
                      Hparse Hmember Hfield Hkey) as Hgate.
        rewrite Hfetch, Hok, Hjson, Hresults, Hrun in Hgate.
        by injection Hgate as -> _.
  - destruct (aiCommand_follows_path P env event) as (resp & trace & Hrun & Hpath).
    rewrite (statusOf_run _ _ _ _ Hrun). split.
    + intros Hstatus. by_path Hpath Hstatus; [by left|].
      right. exists t, body, prompt, context, result. by eexists.
    + intros [Hoptions | (t & body & prompt & context & result & text
                          & (Hpost & r & Hr & Hv)
                          & Hparse & Hmember & Hfield & Hkey & Hcontext & Hanswer & Htext)].
      * pose proof (aiCommand_preflight P env event Hoptions) as Hgate.
        rewrite Hrun in Hgate. by injection Hgate as -> _.
      * pose proof (aiCommand_upstream_run P env event r t Hpost Hr Hv body prompt context
                      Hparse Hmember Hfield Hkey Hcontext) as Hgate.
        rewrite Hanswer, Htext, Hrun in Hgate. by injection Hgate as -> _.
Qed.

(** The responses a failed license check gives. *)
Lemma unauthorized_reason P env event r t :
  licenseCheck env event = (Normal r, t) → valid r = false →
  unauthorized P (JsString.orLit (reason r) "Invalid license")
    = unauthorized P "Missing authorization token"
  ∨ unauthorized P (JsString.orLit (reason r) "Invalid license")
    = unauthorized P "Invalid license token".
Proof.
  intros Hr Hv. destruct (validateLicense_invalid _ _ _ _ Hr Hv) as [_ [-> | ->]];
    [by left | by right].
Qed.

(** X14: every response of youtubeSearch is the empty preflight response, a
    200 whose body is the JSON text of a payload, or one of eight fixed
    error responses; every response of aiCommand likewise, with seven. The
    body of an error response is the JSON text of { error, message } with a
    message from a fixed list: nothing of a thrown error, of the upstream
    answer or of the configuration is in it. *)
Theorem X14_responses_are_fixed (P : Platform) (env : gmap string string)
    (event : HandlerEvent.t) :
  returns (λ resp,
      resp = preflight
      ∨ (∃ payload, resp = success P payload)
      ∨ resp ∈ [methodNotAllowed P;
                unauthorized P "Missing authorization token";
                unauthorized P "Invalid license token";
                badRequest P "Invalid JSON in request body";
                badRequest P Spec.invalidQuery;
                serverError P "Server configuration error";
                serverError P "Failed to search YouTube";
                serverError P genericMessage])
    (youtubeSearch.handler P env event)
  ∧ returns (λ resp,
      resp = preflight
      ∨ (∃ payload, resp = success P payload)
      ∨ resp ∈ [methodNotAllowed P;
                unauthorized P "Missing authorization token";
                unauthorized P "Invalid license token";
                badRequest P "Invalid JSON in request body";
                badRequest P Spec.invalidPrompt;
                serverError P "Server configuration error";
                serverError P genericMessage])
    (aiCommand.handler P env event).
Proof.
  split.
  - destruct (youtubeSearch_follows_path P env event) as (resp & trace & Hrun & Hpath).
    exists resp, trace. split; [done|].
    destruct Hpath;
      first [ by left
            | right; left; by eexists
            | right; right;
              first [ by in_list
                    | by destruct (unauthorized_reason P env event r t) as [-> | ->];
                        [ | | in_list | in_list ] ] ].
  - destruct (aiCommand_follows_path P env event) as (resp & trace & Hrun & Hpath).
    exists resp, trace. split; [done|].
    destruct Hpath;
      first [ by left
            | right; left; by eexists
            | right; right;
              first [ by in_list
                    | by destruct (unauthorized_reason P env event r t) as [-> | ->];
                        [ | | in_list | in_list ] ] ].
Qed.

(** The field test passes exactly the strings that hold a code unit that
    is not white space. *)
Lemma missingOrInvalid_valid v :
  missingOrInvalid v = false ↔ ∃ s, v = JString s ∧ JsString.trim s ≠ EmptyString.
Proof.
  split.
  - intros Hgood.
    assert (¬ Spec.absentOrBlank v) as Hnot
      by (intros Hbad%missingOrInvalid_spec; congruence).
    destruct v as [| |b|x|s|xs|ps];
      try (exfalso; apply Hnot; right; left; by intros ?).
    exists s. split; [done|]. intros Hs. apply Hnot. right; right.
    exists s. split; [done | by apply trim_empty].
  - intros (s & -> & Hs). by apply missingOrInvalid_string.
Qed.

(** X15: youtubeSearch calls the video search at most once per request,
    and only for a POST request that passed the license guard, carried a
    valid query and found the key configured; the url it fetches then is the
    search endpoint with the parameters part=snippet, q, type=video,
    maxResults=10 and key, where q is the query as it was received (not
    trimmed) and key the value of YOUTUBE_API_KEY. aiCommand's call is never
    made by youtubeSearch. *)
Theorem X15_video_search_is_guarded (P : Platform) (env : gmap string string)
    (event : HandlerEvent.t) :
  upstreamCalls (youtubeSearch.handler P env event) = []
  ∨ ∃ t body query,
      passesGuard env event t
      ∧ JSON_parse P (bodyText event) = Normal body
      ∧ JsValue.member body "query" = Some (JString query)
      ∧ JsString.trim query ≠ EmptyString
      ∧ JsString.truthy (env !! "YOUTUBE_API_KEY") = true
      ∧ upstreamCalls (youtubeSearch.handler P env event)
        = [Fetch (URL_toString P
                    {| href := "https://www.googleapis.com/youtube/v3/search";
                       searchParams :=
                         [("part", "snippet"); ("q", query); ("type", "video");
                          ("maxResults", "10");
                          ("key", JsString.value (env !! "YOUTUBE_API_KEY"))] |})].
Proof.
  destruct (youtubeSearch_follows_path P env event) as (resp & trace & Hrun & Hpath).
  unfold upstreamCalls. rewrite Hrun. simpl.
  assert (∀ t body query (rest : list Effect),
            passesGuard env event t →
            JSON_parse P (bodyText event) = Normal body →
            JsValue.member body "query" = Some query →
            missingOrInvalid query = false →
            JsString.truthy (env !! "YOUTUBE_API_KEY") = true →
            filter isUpstream rest = [] →
            trace = t ++ Fetch (searchTarget P env query) :: rest →
            ∃ t body query,
              passesGuard env event t
              ∧ JSON_parse P (bodyText event) = Normal body
              ∧ JsValue.member body "query" = Some (JString query)
              ∧ JsString.trim query ≠ EmptyString
              ∧ JsString.truthy (env !! "YOUTUBE_API_KEY") = true
              ∧ filter isUpstream trace
                = [Fetch (URL_toString P
                    {| href := "https://www.googleapis.com/youtube/v3/search";
                       searchParams :=
                         [("part", "snippet"); ("q", query); ("type", "video");
                          ("maxResults", "10");
                          ("key", JsString.value (env !! "YOUTUBE_API_KEY"))] |})])
    as Hcall.
  { intros t body query rest Hguard Hparse Hmember Hfield Hkey Hrest ->.
    apply missingOrInvalid_valid in Hfield as (q & -> & Hq).
    exists t, body, q. do 5 (split; [done|]).
    apply (one_call t _ rest); [by eapply passesGuard_quiet | done | done]. }
  destruct Hpath;
    first [ by left
          | left; by eapply passesGuard_quiet
          | left; by eapply validateLicense_quiet
          | left; apply quiet_app; [by eapply passesGuard_quiet | apply logged_quiet]
          | right; eapply (Hcall t body query);
            [ eassumption | eassumption | eassumption | eassumption | eassumption
            | | reflexivity ];
            first [ apply logged_quiet | reflexivity ] ].
Qed.

(** X16: aiCommand calls the generative-text service at most once per
    request, and only for a POST request that passed the license guard,
    carried a valid prompt and found the key configured; the call is made
    with the value of GEMINI_API_KEY, the model gemini-pro and the prompt as
    it was received (not trimmed), preceded by the JSON text of the context
    exactly when the field context of the body is truthy: a context that is
    null, false, zero or the empty string is left out like an absent one. *)
Theorem X16_generation_is_guarded (P : Platform) (env : gmap string string)
    (event : HandlerEvent.t) :
  upstreamCalls (aiCommand.handler P env event) = []
  ∨ ∃ t body prompt context,
      passesGuard env event t
      ∧ JSON_parse P (bodyText event) = Normal body
      ∧ JsValue.member body "prompt" = Some (JString prompt)
      ∧ JsString.trim prompt ≠ EmptyString
      ∧ JsValue.member body "context" = Some context
      ∧ JsString.truthy (env !! "GEMINI_API_KEY") = true
      ∧ upstreamCalls (aiCommand.handler P env event)
        = [GenerateContent (JsString.value (env !! "GEMINI_API_KEY")) "gemini-pro"
             (if JsValue.truthy context
              then "Context: " +:+ JSON_stringify P context +:+ JsString.lf
                     +:+ JsString.lf +:+ "User Request: " +:+ prompt
              else prompt)].
Proof.
  destruct (aiCommand_follows_path P env event) as (resp & trace & Hrun & Hpath).
  unfold upstreamCalls. rewrite Hrun. simpl.
  assert (∀ t body prompt context (rest : list Effect),
            passesGuard env event t →
            JSON_parse P (bodyText event) = Normal body →
            JsValue.member body "prompt" = Some prompt →
            missingOrInvalid prompt = false →
            JsString.truthy (env !! "GEMINI_API_KEY") = true →
            JsValue.member body "context" = Some context →
            filter isUpstream rest = [] →
            trace = t ++ generateCall P env prompt context :: rest →
            ∃ t body prompt context,
              passesGuard env event t
              ∧ JSON_parse P (bodyText event) = Normal body
              ∧ JsValue.member body "prompt" = Some (JString prompt)
              ∧ JsString.trim prompt ≠ EmptyString
              ∧ JsValue.member body "context" = Some context
              ∧ JsString.truthy (env !! "GEMINI_API_KEY") = true
              ∧ filter isUpstream trace
                = [GenerateContent (JsString.value (env !! "GEMINI_API_KEY"))
                     "gemini-pro"
                     (if JsValue.truthy context
                      then "Context: " +:+ JSON_stringify P context +:+ JsString.lf
                             +:+ JsString.lf +:+ "User Request: " +:+ prompt
                      else prompt)])
    as Hcall.
  { intros t body prompt context rest Hguard Hparse Hmember Hfield Hkey Hcontext Hrest ->.
    apply missingOrInvalid_valid in Hfield as (p & -> & Hp).
    exists t, body, p, context. do 6 (split; [done|]).
    apply (one_call t _ rest); [by eapply passesGuard_quiet | done | done]. }
  destruct Hpath;
    first [ by left
          | left; by eapply passesGuard_quiet
          | left; by eapply validateLicense_quiet
          | left; apply quiet_app; [by eapply passesGuard_quiet | apply logged_quiet]
          | right; eapply (Hcall t body prompt context);
            [ eassumption | eassumption | eassumption | eassumption | eassumption
            | eassumption | | reflexivity ];
            first [ apply logged_quiet | reflexivity ] ].
Qed.

(** ** The failures after the guard *)

Lemma Sample_passesGuard body :
  passesGuard Sample.env (Sample.request "POST" (Some "Bearer beta") body) [].
Proof. split; [done | by exists validToken]. Qed.

Lemma noKeys_passesGuard body :
  passesGuard Outage.noKeys (Sample.request "POST" (Some "Bearer beta") body) [].
Proof. split; [done | by exists validToken]. Qed.

(** X17: when the video search answers with a response that is not ok and
    whose text can be read, youtubeSearch answers 500 with 'Failed to search
    YouTube': the same response whatever the upstream status and text, which
    go to the server log only, after the single upstream call. *)
Theorem X17_video_search_refused (P : Platform) (env : gmap string string)
    (event : HandlerEvent.t) (t : list Effect) (body query : jsval)
    (fetched : FetchResponse) (errorText : string) :
  passesGuard env event t →
  JSON_parse P (bodyText event) = Normal body →
  JsValue.member body "query" = Some query →
  missingOrInvalid query = false →
  JsString.truthy (env !! "YOUTUBE_API_KEY") = true →
  fetch P (searchTarget P env query) = Normal fetched →
  ok fetched = false →
  text fetched = Normal errorText →
  youtubeSearch.handler P env event =
    (Normal (serverError P "Failed to search YouTube"),
     t ++ Fetch (searchTarget P env query)
       :: logged (Primitive ("YouTube API error: " +:+ pretty (status fetched)
                               +:+ " " +:+ errorText)) "youtubeSearch").
Proof.
  intros (Hpost & r & Hr & Hv) Hparse Hmember Hfield Hkey Hfetch Hok Htext.
  rewrite (youtubeSearch_upstream_run P env event r t Hpost Hr Hv body query) by done.
  by rewrite Hfetch, Hok, Htext.
Qed.

Lemma X17_video_search_refused_witness :
  youtubeSearch.handler Outage.refusing Sample.env
    (Sample.request "POST" (Some "Bearer beta") (Some Sample.queryBody))
  = (Normal (serverError Outage.refusing "Failed to search YouTube"),
     [Fetch (searchTarget Outage.refusing Sample.env (JString "cats"));
      ConsoleError ["[youtubeSearch] Error:"; "YouTube API error: 403 quotaExceeded"]]).
Proof.
  apply (X17_video_search_refused Outage.refusing Sample.env
           (Sample.request "POST" (Some "Bearer beta") (Some Sample.queryBody))
           [] (JObject [("query", JString "cats")]) (JString "cats")
           Outage.refused "quotaExceeded" (Sample_passesGuard _));
    reflexivity.
Defined.

(** X18: when the video search cannot be reached, or answers ok with a body
    that is not JSON, or answers not ok with a text that cannot be read,
    youtubeSearch answers 500 with 'An error occurred processing your
    request': the thrown error goes to the server log and the response is
    the same whatever was thrown. *)
Theorem X18_video_search_exception (P : Platform) (env : gmap string string)
    (event : HandlerEvent.t) (t : list Effect) (body query : jsval) (e : Thrown) :
  passesGuard env event t →
  JSON_parse P (bodyText event) = Normal body →
  JsValue.member body "query" = Some query →
  missingOrInvalid query = false →
  JsString.truthy (env !! "YOUTUBE_API_KEY") = true →
  fetch P (searchTarget P env query) = Throw e
  ∨ (∃ fetched, fetch P (searchTarget P env query) = Normal fetched
                ∧ ok fetched = true ∧ json fetched = Throw e)
  ∨ (∃ fetched, fetch P (searchTarget P env query) = Normal fetched
                ∧ ok fetched = false ∧ text fetched = Throw e) →
  youtubeSearch.handler P env event =
    (Normal (serverError P genericMessage),
     t ++ Fetch (searchTarget P env query) :: logged e "youtubeSearch").
Proof.
  intros (Hpost & r & Hr & Hv) Hparse Hmember Hfield Hkey Hcause.
  rewrite (youtubeSearch_upstream_run P env event r t Hpost Hr Hv body query) by done.
  destruct Hcause as [Hfetch | [(fetched & Hfetch & Hok & Hjson)
                               | (fetched & Hfetch & Hok & Htext)]].
  - by rewrite Hfetch.
  - by rewrite Hfetch, Hok, Hjson.
  - by rewrite Hfetch, Hok, Htext.
Qed.

Lemma X18_video_search_exception_witness :
  youtubeSearch.handler Outage.unreachable Sample.env
    (Sample.request "POST" (Some "Bearer beta") (Some Sample.queryBody))
  = (Normal (serverError Outage.unreachable genericMessage),
     [Fetch (searchTarget Outage.unreachable Sample.env (JString "cats"));
      ConsoleError ["[youtubeSearch] Error:"; "fetch failed"];
      ConsoleError ["[youtubeSearch] Stack:";
                    "TypeError: fetch failed at node:internal"]]).
Proof.
  apply (X18_video_search_exception Outage.unreachable Sample.env
           (Sample.request "POST" (Some "Bearer beta") (Some Sample.queryBody))
           [] (JObject [("query", JString "cats")]) (JString "cats")
           Outage.networkError (Sample_passesGuard _));
    [reflexivity | reflexivity | reflexivity | reflexivity | by left].
Defined.

(** X19: when the call to the generative-text service throws, or its
    answer has no readable text, aiCommand answers 500 with 'An error
    occurred processing your request': the thrown error goes to the server
    log and the response is the same whatever was thrown. *)
Theorem X19_generation_exception (P : Platform) (env : gmap string string)
    (event : HandlerEvent.t) (t : list Effect) (body prompt context : jsval)
    (e : Thrown) :
  passesGuard env event t →
  JSON_parse P (bodyText event) = Normal body →
  JsValue.member body "prompt" = Some prompt →
  missingOrInvalid prompt = false →
  JsString.truthy (env !! "GEMINI_API_KEY") = true →
  JsValue.member body "context" = Some context →
  generateAnswer P env prompt context = Throw e
  ∨ (∃ result, generateAnswer P env prompt context = Normal result
               ∧ response_text result = Throw e) →
  aiCommand.handler P env event =
    (Normal (serverError P genericMessage),
     t ++ generateCall P env prompt context :: logged e "aiCommand").
Proof.
  intros (Hpost & r & Hr & Hv) Hparse Hmember Hfield Hkey Hcontext Hcause.
  rewrite (aiCommand_upstream_run P env event r t Hpost Hr Hv body prompt context)
    by done.
  destruct Hcause as [Hanswer | (result & Hanswer & Htext)].
  - by rewrite Hanswer.
  - by rewrite Hanswer, Htext.
Qed.

Lemma X19_generation_exception_witness :
  aiCommand.handler Outage.refusing Sample.env
    (Sample.request "POST" (Some "Bearer beta") (Some Sample.promptBody))
  = (Normal (serverError Outage.refusing genericMessage),
     [GenerateContent "gm-key" "gemini-pro" "cut here";
      ConsoleError ["[aiCommand] Error:"; "blocked by safety"]]).
Proof.
  apply (X19_generation_exception Outage.refusing Sample.env
           (Sample.request "POST" (Some "Bearer beta") (Some Sample.promptBody))
           [] (JObject [("prompt", JString "cut here")]) (JString "cut here") JUndefined
           (ErrorObject "blocked by safety" None) (Sample_passesGuard _));
    [reflexivity | reflexivity | reflexivity | reflexivity | reflexivity | ].
  right. by eexists.
Defined.

(** X20: when the key of a handler is unset or empty, a request that
    passed the guard with a valid field is answered 500 with 'Server
    configuration error' by youtubeSearch and by aiCommand alike: the
    response does not say which key is missing, the name of the key goes to
    the server log only, and no upstream call is made. *)
Theorem X20_missing_key (P : Platform) (env : gmap string string)
    (event : HandlerEvent.t) (t : list Effect) (body field : jsval) :
  passesGuard env event t →
  JSON_parse P (bodyText event) = Normal body →
  missingOrInvalid field = false →
  (JsValue.member body "query" = Some field →
   JsString.truthy (env !! "YOUTUBE_API_KEY") = false →
   youtubeSearch.handler P env event =
     (Normal (serverError P "Server configuration error"),
      t ++ logged (Primitive "YOUTUBE_API_KEY not set in environment variables")
              "youtubeSearch")
   ∧ upstreamCalls (youtubeSearch.handler P env event) = [])
  ∧ (JsValue.member body "prompt" = Some field →
     JsString.truthy (env !! "GEMINI_API_KEY") = false →
     aiCommand.handler P env event =
       (Normal (serverError P "Server configuration error"),
        t ++ logged (Primitive "GEMINI_API_KEY not set in environment variables")
                "aiCommand")
     ∧ upstreamCalls (aiCommand.handler P env event) = []).
Proof.
  intros Hguard Hparse Hfield. pose proof (passesGuard_quiet _ _ _ Hguard) as Hquiet.
  destruct Hguard as (Hpost & r & Hr & Hv). split; intros Hmember Hkey.
  - unfold upstreamCalls.
    rewrite (youtubeSearch_no_key_run P env event r t Hpost Hr Hv body field) by done.
    split; [done|]. apply quiet_app; [done | apply logged_quiet].
  - unfold upstreamCalls.
    rewrite (aiCommand_no_key_run P env event r t Hpost Hr Hv body field) by done.
    split; [done|]. apply quiet_app; [done | apply logged_quiet].
Qed.

Lemma X20_missing_key_witness :
  youtubeSearch.handler Sample.platform Outage.noKeys
    (Sample.request "POST" (Some "Bearer beta") (Some Sample.queryBody))
  = (Normal (serverError Sample.platform "Server configuration error"),
     [ConsoleError ["[youtubeSearch] Error:";
                    "YOUTUBE_API_KEY not set in environment variables"]])
  ∧ aiCommand.handler Sample.platform Outage.noKeys
      (Sample.request "POST" (Some "Bearer beta") (Some Sample.promptBody))
    = (Normal (serverError Sample.platform "Server configuration error"),
       [ConsoleError ["[aiCommand] Error:";
                      "GEMINI_API_KEY not set in environment variables"]]).
Proof.
  split.
  - apply (X20_missing_key Sample.platform Outage.noKeys
             (Sample.request "POST" (Some "Bearer beta") (Some Sample.queryBody))
             [] (JObject [("query", JString "cats")]) (JString "cats")
             (noKeys_passesGuard _) eq_refl eq_refl); reflexivity.
  - apply (X20_missing_key Sample.platform Outage.noKeys
             (Sample.request "POST" (Some "Bearer beta") (Some Sample.promptBody))
             [] (JObject [("prompt", JString "cut here")]) (JString "cut here")
             (noKeys_passesGuard _) eq_refl eq_refl); reflexivity.
Defined.

(** X21: a POST request that passed the guard and whose body text is not
    JSON is answered 400 with 'Invalid JSON in request body' by both
    handlers, with no effect beyond those of the license check: the keys are
    not read and no upstream call is made. *)
Theorem X21_invalid_json (P : Platform) (env : gmap string string)
    (event : HandlerEvent.t) (t : list Effect) (e : Thrown) :
  passesGuard env event t →
  JSON_parse P (bodyText event) = Throw e →
  youtubeSearch.handler P env event
    = (Normal (badRequest P "Invalid JSON in request body"), t)
  ∧ aiCommand.handler P env event
    = (Normal (badRequest P "Invalid JSON in request body"), t).
Proof.
  intros (Hpost & r & Hr & Hv) Hparse. split.
  - by rewrite (youtubeSearch_invalid_json P env event r t Hpost Hr Hv e).
  - by rewrite (aiCommand_invalid_json P env event r t Hpost Hr Hv e).
Qed.

Lemma X21_invalid_json_witness :
  youtubeSearch.handler Sample.platform Outage.noKeys
    (Sample.request "POST" (Some "Bearer beta") (Some "{query:"))
    = (Normal (badRequest Sample.platform "Invalid JSON in request body"), [])
  ∧ aiCommand.handler Sample.platform Outage.noKeys
      (Sample.request "POST" (Some "Bearer beta") (Some "{query:"))
    = (Normal (badRequest Sample.platform "Invalid JSON in request body"), []).
Proof.
  apply (X21_invalid_json Sample.platform Outage.noKeys
           (Sample.request "POST" (Some "Bearer beta") (Some "{query:"))
           [] (ErrorObject "Unexpected token in JSON" None) (noKeys_passesGuard _)).
  reflexivity.
Defined.

(** X22: a body that is the empty string is treated as an absent body: for
    every method, every headers and every configuration both handlers give
    the same response and the same effects for the two requests (the empty
    text is never handed to JSON.parse). *)
Theorem X22_empty_body_is_absent_body (P : Platform) (env : gmap string string)
    (method : string) (headers : gmap string string) :
  youtubeSearch.handler P env
    {| HandlerEvent.httpMethod := method; HandlerEvent.headers := headers;
       HandlerEvent.body := Some EmptyString |}
  = youtubeSearch.handler P env
      {| HandlerEvent.httpMethod := method; HandlerEvent.headers := headers;
         HandlerEvent.body := None |}
  ∧ aiCommand.handler P env
      {| HandlerEvent.httpMethod := method; HandlerEvent.headers := headers;
         HandlerEvent.body := Some EmptyString |}
    = aiCommand.handler P env
        {| HandlerEvent.httpMethod := method; HandlerEvent.headers := headers;
           HandlerEvent.body := None |}.
Proof. split; reflexivity. Qed.



(** ** utils/errors *)

(** X25: every response of either handler that is not a 200 has the
    status and the body of a call of createErrorResponse (the helper both
    handlers import), with the CORS headers added; for a 500 it is the call
    with the message alone, the status and the error label being the
    defaults of createErrorResponse. *)
Theorem X25_errors_as_createErrorResponse (P : Platform) (env : gmap string string)
    (event : HandlerEvent.t) :
  let shaped (resp : HandlerResponse.t) :=
    HandlerResponse.statusCode resp = 200%N
    ∨ ∃ message code label,
        let made := errors.createErrorResponse P message code label in
        resp = response (errors.statusCode made) corsHeaders (errors.body made)
        ∧ (HandlerResponse.statusCode resp = 500%N → code = None ∧ label = None) in
  returns shaped (youtubeSearch.handler P env event)
  ∧ returns shaped (aiCommand.handler P env event).
Proof.
  intros shaped. unfold shaped.
  assert (∀ message, ∃ message' code label,
            serverError P message
            = response (errors.statusCode (errors.createErrorResponse P message' code label))
                corsHeaders (errors.body (errors.createErrorResponse P message' code label))
            ∧ (HandlerResponse.statusCode (serverError P message) = 500%N
               → code = None ∧ label = None)) as H500.
  { intros message. by exists message, None, None. }
  assert (∀ status label message, status ≠ 500%N → ∃ message' code label',
            response status corsHeaders (errorBody P label message)
            = response (errors.statusCode (errors.createErrorResponse P message' code label'))
                corsHeaders (errors.body (errors.createErrorResponse P message' code label'))
            ∧ (HandlerResponse.statusCode
                 (response status corsHeaders (errorBody P label message)) = 500%N
               → code = None ∧ label' = None)) as Hother.
  { intros status label message Hstatus.
    exists message, (Some status), (Some label). split; [done|]. simpl. intros Hcode. congruence. }
  split.
  - destruct (youtubeSearch_follows_path P env event) as (resp & trace & Hrun & Hpath).
    exists resp, trace. split; [done|].
    destruct Hpath;
      first [ by left | right; by apply H500 | right; by apply Hother ].
  - destruct (aiCommand_follows_path P env event) as (resp & trace & Hrun & Hpath).
    exists resp, trace. split; [done|].
    destruct Hpath;
      first [ by left | right; by apply H500 | right; by apply Hother ].
Qed.

(** ** The body validator *)

(** X26: the test the handlers make on the required field passes exactly
    the strings that hold at least one code unit that is not white space;
    undefined, null, booleans, numbers, arrays and objects fail it, and so
    do the empty string and strings of white space. *)
Theorem X26_field_test (v : jsval) :
  (missingOrInvalid v = false ↔
     ∃ s, v = JString s ∧ JsString.all JsString.isWhiteSpace s = false)
  ∧ (missingOrInvalid v = true ↔ Spec.absentOrBlank v).
Proof.
  split; [|apply missingOrInvalid_spec].
  rewrite missingOrInvalid_valid. split.
  - intros (s & -> & Hs). exists s. split; [done|].
    destruct (JsString.all JsString.isWhiteSpace s) eqn:Hall; [|done].
    by apply trim_empty in Hall.
  - intros (s & -> & Hs). exists s. split; [done|].
    intros Hall%trim_empty. congruence.
Qed.

(** ** What the handlers read of the request *)

(** X27: of a request, the handlers read the method, the body and the two
    headers authorization and Authorization only: two requests that agree
    on these get the same response and cause the same effects, whatever
    their other headers; Content-Type is never looked at. *)
Theorem X27_request_read (P : Platform) (env : gmap string string)
    (event event' : HandlerEvent.t) :
  HandlerEvent.httpMethod event = HandlerEvent.httpMethod event' →
  HandlerEvent.body event = HandlerEvent.body event' →
  HandlerEvent.headers event !! "authorization"
    = HandlerEvent.headers event' !! "authorization" →
  HandlerEvent.headers event !! "Authorization"
    = HandlerEvent.headers event' !! "Authorization" →
  youtubeSearch.handler P env event = youtubeSearch.handler P env event'
  ∧ aiCommand.handler P env event = aiCommand.handler P env event'.
Proof.
  intros Hmethod Hbody Hlower Hupper.
  unfold youtubeSearch.handler, aiCommand.handler, authHeader.
  by rewrite Hmethod, Hbody, Hlower, Hupper.
Qed.

Lemma X27_request_read_witness :
  youtubeSearch.handler Sample.platform Sample.env
    (Sample.request "POST" (Some "Bearer beta") (Some Sample.queryBody))
  = youtubeSearch.handler Sample.platform Sample.env
      {| HandlerEvent.httpMethod := "POST";
         HandlerEvent.headers :=
           <["content-type" := "text/plain"]> (<["authorization" := "Bearer beta"]> ∅);
         HandlerEvent.body := Some Sample.queryBody |}.
Proof.
  apply (X27_request_read Sample.platform Sample.env
           (Sample.request "POST" (Some "Bearer beta") (Some Sample.queryBody))
           {| HandlerEvent.httpMethod := "POST";
              HandlerEvent.headers :=
                <["content-type" := "text/plain"]>
                  (<["authorization" := "Bearer beta"]> ∅);
              HandlerEvent.body := Some Sample.queryBody |});
    reflexivity.
Defined.

(** X30: the 200 a handler gives to a POST request carries Content-Type:
    application/json; every other response (the preflight response and all
    error responses, whose body is JSON text too) carries no Content-Type
    header. *)
Theorem X30_content_type (P : Platform) (env : gmap string string)
    (event : HandlerEvent.t) :
  let typed (resp : HandlerResponse.t) :=
    (HandlerResponse.headers resp !! "Content-Type" = Some "application/json"
     ∧ HandlerResponse.statusCode resp = 200%N
     ∧ HandlerEvent.httpMethod event = "POST")
    ∨ (HandlerResponse.headers resp !! "Content-Type" = None
       ∧ (HandlerResponse.statusCode resp ≠ 200%N
          ∨ HandlerEvent.httpMethod event = "OPTIONS")) in
  returns typed (youtubeSearch.handler P env event)
  ∧ returns typed (aiCommand.handler P env event).
Proof.
  intros typed. unfold typed. split.
  - destruct (youtubeSearch_follows_path P env event) as (resp & trace & Hrun & Hpath).
    exists resp, trace. split; [done|].
    destruct Hpath;
      first [ right; split; [reflexivity | first [by right | by left]]
            | left; split; [reflexivity | split; [reflexivity|] ];
              match goal with H : passesGuard _ _ _ |- _ => by destruct H end ].
  - destruct (aiCommand_follows_path P env event) as (resp & trace & Hrun & Hpath).
    exists resp, trace. split; [done|].
    destruct Hpath;
      first [ right; split; [reflexivity | first [by right | by left]]
            | left; split; [reflexivity | split; [reflexivity|] ];
              match goal with H : passesGuard _ _ _ |- _ => by destruct H end ].
Qed.

(** ** The whitelist as a set *)

Lemma includes_app l l' token :
  includes (l ++ l') token = includes l token || includes l' token.
Proof. unfold includes. apply existsb_app. Qed.

(** X28: the order and the repetition of the tokens in LICENSE_TOKENS do
    not matter: two configurations with the same NODE_ENV whose parsed
    whitelists have the same entries give the same result for every
    token. *)
Theorem X28_whitelist_is_a_set (env env' : gmap string string)
    (token : option string) :
  env !! "NODE_ENV" = env' !! "NODE_ENV" →
  (∀ entry, entry ∈ whitelist env ↔ entry ∈ whitelist env') →
  validateLicense env token = validateLicense env' token.
Proof.
  intros Hmode Hsame.
  assert ((length (whitelist env) =? 0) = (length (whitelist env') =? 0)) as Hlen.
  { destruct (whitelist env) as [|x l] eqn:E, (whitelist env') as [|x' l'] eqn:E';
      try done.
    - exfalso. eapply elem_of_nil. apply Hsame. by left.
    - exfalso. eapply elem_of_nil. apply Hsame. by left. }
  assert (includes (whitelist env) token = includes (whitelist env') token) as Hin.
  { destruct token as [tok|]; [|by rewrite !includes_None].
    pose proof (includes_elem_of (whitelist env) tok) as H1.
    pose proof (includes_elem_of (whitelist env') tok) as H2.
    specialize (Hsame tok).
    destruct (includes (whitelist env) (Some tok)),
             (includes (whitelist env') (Some tok)); try done.
    - assert (false = true) by tauto. done.
    - assert (false = true) by tauto. done. }
  unfold validateLicense, developmentMode. by rewrite Hlen, Hin, Hmode.
Qed.

Lemma X28_whitelist_is_a_set_witness :
  validateLicense Sample.env (Some "beta")
  = validateLicense (<["LICENSE_TOKENS" := "beta,alpha , beta"]> Sample.env)
      (Some "beta").
Proof.
  apply (X28_whitelist_is_a_set Sample.env
           (<["LICENSE_TOKENS" := "beta,alpha , beta"]> Sample.env) (Some "beta"));
    [reflexivity|].
  intros entry.
  change (whitelist Sample.env) with ["alpha"; "beta"].
  change (whitelist (<["LICENSE_TOKENS" := "beta,alpha , beta"]> Sample.env))
    with ["beta"; "alpha"; "beta"].
  rewrite !elem_of_cons, !elem_of_nil. tauto.
Defined.

(** X29: appending a comma and further tokens to LICENSE_TOKENS appends
    their trimmed entries to the parsed whitelist, so every token that was
    accepted stays accepted. *)
Theorem X29_appending_tokens (env : gmap string string) (tokens added : string) :
  env !! "LICENSE_TOKENS" = Some tokens →
  let env' := <["LICENSE_TOKENS" := tokens +:+ String ","%char added]> env in
  whitelist env'
    = whitelist env ++ (JsString.trim <$> JsString.split ","%char added)
  ∧ ∀ token,
      returns (λ r, valid r = true) (validateLicense env token) →
      returns (λ r, valid r = true) (validateLicense env' token).
Proof.
  intros Hset env'.
  assert (whitelist env'
          = whitelist env ++ (JsString.trim <$> JsString.split ","%char added))
    as Hlist.
  { unfold whitelist, env'. rewrite lookup_insert_eq, Hset, split_app.
    by rewrite fmap_app. }
  split; [done|]. intros token (r & t & Hr & Hv).
  destruct (JsString.truthy token) eqn:Htoken; cycle 1.
  { rewrite validateLicense_missing in Hr by done. by injection Hr as <- _. }
  destruct token as [tok|]; [|done]. apply truthy_Some in Htoken.
  assert (whitelist env ≠ []) as Hnonempty
    by (intros Hnil%whitelist_nil; congruence).
  rewrite validateLicense_membership in Hr by (done || by left).
  destruct (includes (whitelist env) (Some tok)) eqn:Hin;
    [|by injection Hr as <- _].
  exists validToken, []. split; [|done].
  rewrite validateLicense_membership; cycle 1; [done | | ].
  { left. rewrite Hlist. by destruct (whitelist env). }
  by rewrite Hlist, includes_app, Hin.
Qed.

Lemma X29_appending_tokens_witness :
  whitelist (<["LICENSE_TOKENS" := "alpha, beta" +:+ String ","%char " gamma"]>
               Sample.env)
  = ["alpha"; "beta"; "gamma"].
Proof.
  apply (X29_appending_tokens Sample.env "alpha, beta" " gamma"). reflexivity.
Defined.
